(** * Rows virtualizer of the data grid

    A shallow embedding of [ts/DataGrid/DataGrid2/Actions/RowsVirtualizer.ts]:
    the row cursor, the rendered range with its buffer, the row that is always
    kept last, and the pass that adjusts the heights of the rendered rows.

    Numbers.  Row indexes, pixel heights measured by [offsetHeight] and the
    buffer size are integers ([Z]); the scroll offset ([scrollTop]) is a
    rational ([Q]); [Math.floor] and [Math.ceil] are [Qfloor] and [Qceiling].
    The arithmetic of the interpolated height of the first visible row is
    binary64: every operation is rounded to the nearest number of 53
    significant bits ([round64]).  The two quotients whose floor or ceiling is
    taken at once (the cursor and the rows of a page) are taken exact: for
    offsets and heights from [0] up to [2^53] the floor and the ceiling of
    the rounded quotient are those of the exact one
    ([quotients_as_the_machine] compares them where the quotient is nearest
    to an integer).  From [2^53] on binary64 no longer has
    every integer, where the integers of the model are unbounded: the
    statement on the interpolated value is for magnitudes below [2^53].  The
    default row height is a measured height of a rendered row; the model
    follows the code for a positive one (a zero one makes the quotients
    infinite in the source, and [renderRows] does not end).

    Layout.  An element whose [style.height] is [k px] measures [k]; the first
    cell of a row whose height override was cleared measures the natural
    height of the row content.  The child list of the table body mirrors
    [rows] and is not represented. *)

From Stdlib Require Import ZArith QArith Qround Qabs Lia Lqa List.
From Stdlib Require PrimFloat FloatOps SpecFloat.
From stdpp Require Import base tactics option list gmap strings.

Local Open Scope Z_scope.

(** ** Exceptions *)

Inductive Exn : Type :=
| TypeError.

Inductive Outcome (A : Type) : Type :=
| Returns (a : A)
| Throws (e : Exn).

Arguments Returns {A} a.
Arguments Throws {A} e.

#[global] Instance Outcome_ret : MRet Outcome := fun _ a => Returns a.

#[global] Instance Outcome_bind : MBind Outcome := fun _ _ f m =>
  match m with
  | Returns a => f a
  | Throws e => Throws e
  end.

(** Dereferencing a value that may be [undefined]. *)
Definition deref {A : Type} (o : option A) : Outcome A :=
  match o with
  | Some a => Returns a
  | None => Throws TypeError
  end.

(** ** Numbers

    The arithmetic of JavaScript numbers: the result of an operation is the
    binary64 number nearest to the exact result, the one of even significand
    when two are as near.  Infinities and NaN are not represented: for a
    default row height of a pixel or more no operation of the formula of the
    interpolated height overflows.  A number of magnitude [2^53] or more is
    rounded to an integer, where binary64 rounds to a multiple of a higher
    power of two. *)

(** The integer nearest to [x], the even one of two. *)
Definition roundEven (x : Q) : Z :=
  let f := Qfloor x in
  match (x - inject_Z f ?= 1 # 2)%Q with
  | Lt => f
  | Gt => f + 1
  | Eq => if Z.even f then f else f + 1
  end.

(** The exponent of the unit in the last place of the binary64 numbers
    around [x]: [floor(log2 |x|) - 52], and [-1074] for the numbers below
    [2^-1022].  It stops at [0]: the model keeps every integer. *)
Definition ulpExp (x : Q) : Z :=
  Z.max (-1074)
    (Z.min 0 (Z.log2 (Qfloor (Qabs x * inject_Z (2 ^ 1074))) - 1126)).

(** [x] rounded to a multiple of its unit in the last place. *)
Definition round64 (x : Q) : Q :=
  let scale := inject_Z (2 ^ (- ulpExp x)) in
  (inject_Z (roundEven (x * scale)) / scale)%Q.

(** [x - y], [x * y] and [x / y] on numbers. *)
Definition sub64 (x y : Q) : Q := round64 (x - y).

Definition mul64 (x y : Q) : Q := round64 (x * y).

Definition div64 (x y : Q) : Q := round64 (x / y).

Arguments round64 : simpl never.
Arguments sub64 : simpl never.
Arguments mul64 : simpl never.
Arguments div64 : simpl never.

(** No operation of [h - (h - d) * (s / d - c)] rounds. *)
Definition exact64 (h d : Z) (s : Q) (c : Z) : Prop :=
  let q := (s / inject_Z d)%Q in
  let t := (q - inject_Z c)%Q in
  let p := (inject_Z (h - d) * t)%Q in
  (round64 q == q /\ round64 t == t /\ round64 p == p
   /\ round64 (inject_Z h - p) == inject_Z h - p)%Q.

(** ** The numbers of the machine

    The primitive floating-point numbers, which are the binary64 numbers
    with the operations of the processor: [round64] is compared with them
    below. *)
Module Machine.

Import PrimFloat.

(** The number [z], for [0 <= z < 2^53]. *)
Definition ofZ (z : Z) : float := of_uint63 (Uint63Axioms.of_Z z).

(** The value of a finite number. *)
Definition valueOf (f : float) : option Q :=
  match FloatOps.Prim2SF f with
  | SpecFloat.S754_zero _ => Some 0%Q
  | SpecFloat.S754_finite sg m e =>
      Some ((if sg then -1 else 1) * inject_Z (Zpos m) * (2 # 1) ^ e)%Q
  | _ => None
  end.

(** [Math.floor] *)
Definition floor (f : float) : option Z := Qfloor <$> valueOf f.

(** [cellHeight - (cellHeight - defaultH) * (scrollTop / defaultH - cursor)] *)
Definition interpolate (cellHeight defaultH scrollTop cursor : float) : float :=
  (cellHeight - (cellHeight - defaultH) * (scrollTop / defaultH - cursor))%float.

(** The height [scroll()] and [adjustRowHeights()] apply to the first visible
    row at the scroll offset [k / 8]: the cursor is
    [Math.floor(scrollTop / rowHeight)]. *)
Definition newHeight (h d k : Z) : option Z :=
  let scrollTop := (ofZ k / 8)%float in
  cursor ← floor (scrollTop / ofZ d)%float;
  floor (interpolate (ofZ h) (ofZ d) scrollTop (ofZ cursor)).

(** [Math.floor(scrollTop / rowHeight)] at the numbers next below and next
    above [k * d], with the value of each: the offsets at which rounding
    the quotient could reach another integer. *)
Definition cursorNear (k d : Z) : list (option (Q * Z)) :=
  (fun scrollTop =>
     s ← valueOf scrollTop; c ← floor (scrollTop / ofZ d)%float; Some (s, c))
  <$> [next_down (ofZ (k * d)); next_up (ofZ (k * d))].

(** [Math.ceil(offsetHeight / defaultRowHeight)] *)
Definition rowsPerPage (oh d : Z) : option Z :=
  Qceiling <$> valueOf (ofZ oh / ofZ d)%float.

End Machine.

(** The cursor and the rows of a page, which the model takes from the exact
    quotients, are those of the machine. *)
Definition cursorAgrees (k d : Z) : bool :=
  forallb (fun o => match o with
                    | Some (s, c) => c =? Qfloor (s / inject_Z d)
                    | None => false
                    end)
    (Machine.cursorNear k d).

Definition rowsPerPageAgrees (oh d : Z) : bool :=
  bool_decide (Machine.rowsPerPage oh d
               = Some (Qceiling (inject_Z oh / inject_Z d))).

(** The same height by the arithmetic of the model. *)
Definition newHeight (h d k : Z) : Z :=
  let scroll_top := (inject_Z k / 8)%Q in
  let cursor := Qfloor (scroll_top / inject_Z d) in
  Qfloor
    (sub64 (inject_Z h)
       (mul64 (sub64 (inject_Z h) (inject_Z d))
          (sub64 (div64 scroll_top (inject_Z d)) (inject_Z cursor)))).

(** The two agree on the scroll offsets [k / 8], [from <= k < from + n]. *)
Definition agreeOn (h d from n : Z) : bool :=
  forallb (fun k => bool_decide (Machine.newHeight h d k = Some (newHeight h d k)))
    (seqZ from n).

(** ** Data *)

(** A cell element: its measured height and the [translateY] of its
    [style.transform] ([None] is the empty string). *)
Record DataGridCell : Type := mkCell {
  cellOffsetHeight : Z;
  cellTransform : option Z
}.

(** A row object.  [handle] is the identity of the object. *)
Record DataGridRow : Type := mkRow {
  index : Z;
  handle : nat;
  cells : list DataGridCell;
  styleHeight : option Z;
  rowTransform : option Z
}.

(** The viewport (table): the rendered rows, the row count of the data table,
    the geometry of the table body, and the bookkeeping of row objects. *)
Record DataGridTable : Type := mkTable {
  rows : list DataGridRow;
  rowCount : Z;
  offsetHeight : Z;
  scrollTop : Q;
  destroyed : list nat;
  nextHandle : nat
}.

Record RowsVirtualizer : Type := mkVirtualizer {
  defaultRowHeight : Z;
  rowCursor : Z;
  viewport : DataGridTable;
  buffer : Z
}.

Definition setRows (l : list DataGridRow) (vp : DataGridTable) : DataGridTable :=
  mkTable l (rowCount vp) (offsetHeight vp) (scrollTop vp) (destroyed vp)
    (nextHandle vp).

Definition setScrollTop (s : Q) (vp : DataGridTable) : DataGridTable :=
  mkTable (rows vp) (rowCount vp) (offsetHeight vp) s (destroyed vp)
    (nextHandle vp).

Definition setViewport (vp : DataGridTable) (v : RowsVirtualizer) : RowsVirtualizer :=
  mkVirtualizer (defaultRowHeight v) (rowCursor v) vp (buffer v).

Definition setRowCursor (c : Z) (v : RowsVirtualizer) : RowsVirtualizer :=
  mkVirtualizer (defaultRowHeight v) c (viewport v) (buffer v).

Definition setStyleHeight (h : option Z) (r : DataGridRow) : DataGridRow :=
  mkRow (index r) (handle r) (cells r) h (rowTransform r).

Definition setCells (cs : list DataGridCell) (r : DataGridRow) : DataGridRow :=
  mkRow (index r) (handle r) cs (styleHeight r) (rowTransform r).

Definition setRowTransform (t : option Z) (r : DataGridRow) : DataGridRow :=
  mkRow (index r) (handle r) (cells r) (styleHeight r) t.

Definition setCellTransform (t : option Z) (c : DataGridCell) : DataGridCell :=
  mkCell (cellOffsetHeight c) t.

(** [a[i]] for a JavaScript array: [undefined] out of range. *)
Definition at_ {A : Type} (a : list A) (i : Z) : option A :=
  if i <? 0 then None else a !! Z.to_nat i.

(** [a[i] = x] for [i] within the array. *)
Definition put {A : Type} (a : list A) (i : Z) (x : A) : list A :=
  <[Z.to_nat i := x]> a.

(** [row.htmlElement.offsetHeight]. *)
Definition rowOffsetHeight (r : DataGridRow) : Z :=
  match styleHeight r with
  | Some k => k
  | None => from_option cellOffsetHeight 0 (head (cells r))
  end.

(** [rows[i].destroy()] for every row of [l]: their handles are recorded. *)
Definition destroyAll (l : list DataGridRow) (vp : DataGridTable) : DataGridTable :=
  mkTable (rows vp) (rowCount vp) (offsetHeight vp) (scrollTop vp)
    (destroyed vp ++ (handle <$> l)) (nextHandle vp).

(** ** Collaborators

    What the classes and the document outside this class provide. *)
Class Collaborators : Type := {
  (** the cells and the initial transform of a row object that was
      constructed for index [i] and rendered *)
  render : Z -> list DataGridCell * option Z;
  (** [DataGridRow.getDefaultTopOffset] *)
  getDefaultTopOffset : DataGridRow -> Z;
  (** [Utils.getTranslateY] of a row element, from its transform *)
  getTranslateY : option Z -> Z;
  (** the scroll offset the table body reports once the rows were laid out
      again, from the rows and the offset it had *)
  settle : list DataGridRow -> Q -> Q;
  (** [DataGridRow.reflow] *)
  reflow : DataGridRow -> DataGridRow
}.

Section Virtualizer.

Context `{Collaborators}.

(** [new DataGridRow(vp, i)] followed by [render()]: a fresh object. *)
Definition newRow (i : Z) (vp : DataGridTable) : DataGridRow * DataGridTable :=
  (mkRow i (nextHandle vp) (fst (render i)) None (snd (render i)),
   mkTable (rows vp) (rowCount vp) (offsetHeight vp) (scrollTop vp)
     (destroyed vp) (S (nextHandle vp))).

(** [Math.ceil(vp.tbodyElement.offsetHeight / this.defaultRowHeight)] *)
Definition rowsPerPage (v : RowsVirtualizer) : Z :=
  Qceiling (inject_Z (offsetHeight (viewport v)) / inject_Z (defaultRowHeight v)).

(** [for (let i = from; i <= to; ++i) { ...; rows.push(newRow) }], with the
    number of remaining iterations as the structural argument. *)
Fixpoint renderLoop (n : nat) (i : Z) (vp : DataGridTable) : DataGridTable :=
  match n with
  | O => vp
  | S n' =>
      let (r, vp') := newRow i vp in
      renderLoop n' (i + 1) (setRows (rows vp' ++ [r]) vp')
  end.

Definition rangeFrom (v : RowsVirtualizer) (cursor : Z) : Z :=
  Z.min (Z.max (cursor - buffer v) 0)
        (rowCount (viewport v) - rowsPerPage v).

Definition rangeTo (v : RowsVirtualizer) (cursor lastIndex : Z) : Z :=
  Z.min (cursor + rowsPerPage v + buffer v) (lastIndex - 1).

Definition renderRows (cursor : Z) (v : RowsVirtualizer) : Outcome RowsVirtualizer :=
  let vp := viewport v in
  let vp1 :=
    match rows vp with
    | [] =>
        let (lastR, vp') := newRow (rowCount vp - 1) vp in
        setRows (rows vp' ++ [lastR]) vp'
    | _ :: _ => vp
    end in
  lastRow ← deref (at_ (rows vp1) (Z.of_nat (length (rows vp1)) - 1));
  let from := rangeFrom v cursor in
  let to := rangeTo v cursor (index lastRow) in
  (* const alwaysLastRow = rows.pop(); *)
  let alwaysLastRow := last (rows vp1) in
  let vp2 := setRows (removelast (rows vp1)) vp1 in
  (* destroy the others; rows.length = 0 *)
  let vp3 := setRows [] (destroyAll (rows vp2) vp2) in
  let vp4 := renderLoop (Z.to_nat (to - from + 1)) from vp3 in
  let vp5 :=
    match alwaysLastRow with
    | Some r => setRows (rows vp4 ++ [r]) vp4
    | None => vp4
    end in
  Returns (setViewport vp5 v).

(** One iteration of the first loop of [adjustRowHeights], on [row]. *)
Definition adjustRow (cursor defaultH : Z) (scroll_top : Q) (row : DataGridRow)
  : Outcome DataGridRow :=
  (* Reset row height and cell transforms *)
  let row := setStyleHeight None row in
  cell0 ← deref (at_ (cells row) 0);
  let row :=
    match cellTransform cell0 with
    | Some _ => setCells (setCellTransform None <$> cells row) row
    | None => row
    end in
  (* Rows above the first visible row *)
  if index row <? cursor then
    Returns (setStyleHeight (Some defaultH) row)
  else
    cell0 ← deref (at_ (cells row) 0);
    let cellHeight := cellOffsetHeight cell0 in
    let row := setStyleHeight (Some cellHeight) row in
    (* Rows below the first visible row *)
    if index row >? cursor then Returns row
    else
      (* First visible row *)
      if rowOffsetHeight row >? defaultH then
        let newHeight :=
          Qfloor
            (sub64 (inject_Z cellHeight)
               (mul64 (sub64 (inject_Z cellHeight) (inject_Z defaultH))
                  (sub64 (div64 scroll_top (inject_Z defaultH))
                     (inject_Z cursor)))) in
        let row := setStyleHeight (Some newHeight) row in
        Returns (setCells
                   (setCellTransform (Some (newHeight - cellHeight))
                     <$> cells row) row)
      else Returns row.

(** [for (let i = 0; i < rowsLn; ++i) { const row = rows[i]; ... }] *)
Fixpoint heightLoop (n : nat) (i : Z) (cursor defaultH : Z) (scroll_top : Q)
    (rs : list DataGridRow) : Outcome (list DataGridRow) :=
  match n with
  | O => Returns rs
  | S n' =>
      row ← deref (at_ rs i);
      row' ← adjustRow cursor defaultH scroll_top row;
      heightLoop n' (i + 1) cursor defaultH scroll_top (put rs i row')
  end.

(** [for (let i = 1, iEnd = rowsLn - 1; i < iEnd; ++i) { ... }] *)
Fixpoint offsetLoop (n : nat) (i : Z) (translateBuffer : Z)
    (rs : list DataGridRow) : Outcome (list DataGridRow) :=
  match n with
  | O => Returns rs
  | S n' =>
      prev ← deref (at_ rs (i - 1));
      let translateBuffer := translateBuffer + rowOffsetHeight prev in
      row ← deref (at_ rs i);
      offsetLoop n' (i + 1) translateBuffer
        (put rs i (setRowTransform (Some translateBuffer) row))
  end.

Definition adjustRowHeights (v : RowsVirtualizer) : Outcome RowsVirtualizer :=
  let cursor := rowCursor v in
  let defaultH := defaultRowHeight v in
  let vp := viewport v in
  let rowsLn := Z.of_nat (length (rows vp)) in
  first ← deref (at_ (rows vp) 0);
  let translateBuffer := getDefaultTopOffset first in
  rs ← heightLoop (Z.to_nat rowsLn) 0 cursor defaultH (scrollTop vp) (rows vp);
  rs ← offsetLoop (Z.to_nat (rowsLn - 1 - 1)) 1 translateBuffer rs;
  (* Set the proper offset for the last row *)
  lastRow ← deref (at_ rs (rowsLn - 1));
  let rs :=
    match at_ rs (rowsLn - 2) with
    | Some preLastRow =>
        if index preLastRow =? index lastRow - 1 then
          put rs (rowsLn - 1)
            (setRowTransform
               (Some (rowOffsetHeight preLastRow
                      + getTranslateY (rowTransform preLastRow)))
               lastRow)
        else rs
    | None => rs
    end in
  Returns (setViewport (setRows rs vp) v).

(** [initialRender]; the geometry held by the viewport is the one that
    [viewport.reflow()] has set. *)
Definition initialRender (v : RowsVirtualizer) : Outcome RowsVirtualizer :=
  v ← renderRows (rowCursor v) v;
  adjustRowHeights v.

Definition scroll (v : RowsVirtualizer) : Outcome RowsVirtualizer :=
  let rowHeight := defaultRowHeight v in
  let lastScrollTop := scrollTop (viewport v) in
  (* Do vertical virtual scrolling *)
  let cursor := Qfloor (scrollTop (viewport v) / inject_Z rowHeight) in
  v ← (if decide (rowCursor v = cursor) then Returns v else renderRows cursor v);
  let v := setRowCursor cursor v in
  v ← adjustRowHeights v;
  let now := settle (rows (viewport v)) (scrollTop (viewport v)) in
  if Qlt_le_dec now lastScrollTop then
    Returns (setViewport (setScrollTop lastScrollTop (viewport v)) v)
  else
    Returns (setViewport (setScrollTop now (viewport v)) v).

(** [reflowRows] *)
Definition reflowRows (v : RowsVirtualizer) : Outcome RowsVirtualizer :=
  let rs := rows (viewport v) in
  if Z.of_nat (length rs) <? 1 then Returns v
  else adjustRowHeights (setViewport (setRows (reflow <$> rs) (viewport v)) v).

End Virtualizer.

(** ** Sessions *)

(** The table body is scrolled to the offset [s]. *)
Definition scrollTo (s : Q) (v : RowsVirtualizer) : RowsVirtualizer :=
  setViewport (setScrollTop s (viewport v)) v.

(** The states of a virtualizer [v0], of a positive default row height and
    with no rendered row yet, after [initialRender()] and any number of scroll
    events, each at an offset of its own. *)
Inductive reachable `{Collaborators} (v0 : RowsVirtualizer) : RowsVirtualizer -> Prop :=
| reach_initialRender v :
    0 < defaultRowHeight v0 ->
    rows (viewport v0) = [] ->
    initialRender v0 = Returns v ->
    reachable v0 v
| reach_scroll v s v' :
    reachable v0 v ->
    scroll (scrollTo s v) = Returns v' ->
    reachable v0 v'.

(** ** Closed forms used by the proofs *)

(** The [n] row objects that [renderLoop] constructs from index [i] on, the
    first with handle [h]. *)
Fixpoint freshRows `{Collaborators} (n : nat) (i : Z) (h : nat) : list DataGridRow :=
  match n with
  | O => []
  | S n' => mkRow i h (fst (render i)) None (snd (render i))
            :: freshRows n' (i + 1) (S h)
  end.

(** [f] on every element in turn, stopping at the first exception. *)
Fixpoint eachRow (f : DataGridRow -> Outcome DataGridRow) (l : list DataGridRow)
  : Outcome (list DataGridRow) :=
  match l with
  | [] => Returns []
  | r :: l' => r' ← f r; l'' ← eachRow f l'; Returns (r' :: l'')
  end.

(** A row object without its transform. *)
Definition box (r : DataGridRow) : Z * nat * list DataGridCell * option Z :=
  (index r, handle r, cells r, styleHeight r).

(** The row that is kept last when the window is rendered for the first
    time. *)
Definition firstLast `{Collaborators} (vp : DataGridTable) : DataGridRow :=
  mkRow (rowCount vp - 1) (nextHandle vp) (fst (render (rowCount vp - 1))) None
    (snd (render (rowCount vp - 1))).

(** The indexes [from..to], both included. *)
Definition indexRun (from to : Z) : list Z := seqZ from (to - from + 1).

(** The window of a virtualizer: the indexes of its rows without the last
    one, and the last one. *)
Definition runIndexes (v : RowsVirtualizer) : list Z :=
  index <$> removelast (rows (viewport v)).

Definition windowIndexes (v : RowsVirtualizer) : list Z :=
  index <$> rows (viewport v).

(** ** The scroll transition in the order of the specification

    [RenderRange(newCursor)], then [ReconcileHeights()], then
    [cursor = newCursor]: the height pass runs under the stored cursor. *)
Definition scrollAsSpecified `{Collaborators} (v : RowsVirtualizer)
  : Outcome RowsVirtualizer :=
  let lastScrollTop := scrollTop (viewport v) in
  let newCursor := Qfloor (scrollTop (viewport v) / inject_Z (defaultRowHeight v)) in
  v ← (if decide (rowCursor v = newCursor) then Returns v
       else renderRows newCursor v);
  v ← adjustRowHeights v;
  let v := setRowCursor newCursor v in
  let now := settle (rows (viewport v)) (scrollTop (viewport v)) in
  if Qlt_le_dec now lastScrollTop then
    Returns (setViewport (setScrollTop lastScrollTop (viewport v)) v)
  else
    Returns (setViewport (setScrollTop now (viewport v)) v).

(** ** The reads of [rows] in [adjustRowHeights]

    The pass once more, now recording every read [rows[i]]: a computation
    yields the subscripts it read, in program order, and its outcome; an
    exception ends it with the subscripts read until then. *)
Inductive Traced (A : Type) : Type :=
| traced (t : list Z) (o : Outcome A).

Arguments traced {A} t o.

Definition reads {A : Type} (m : Traced A) : list Z :=
  match m with traced t _ => t end.

Definition outcome {A : Type} (m : Traced A) : Outcome A :=
  match m with traced _ o => o end.

#[global] Instance Traced_ret : MRet Traced := fun _ a => traced [] (Returns a).

#[global] Instance Traced_bind : MBind Traced := fun _ _ f m =>
  match m with
  | traced t (Returns a) => traced (t ++ reads (f a)) (outcome (f a))
  | traced t (Throws e) => traced t (Throws e)
  end.

(** [rows[i]] *)
Definition readRow (rs : list DataGridRow) (i : Z) : Traced (option DataGridRow) :=
  traced [i] (Returns (at_ rs i)).

(** A step that reads no row. *)
Definition untraced {A : Type} (o : Outcome A) : Traced A := traced [] o.

Section Reads.

Context `{Collaborators}.

Fixpoint heightLoopT (n : nat) (i : Z) (cursor defaultH : Z) (scroll_top : Q)
    (rs : list DataGridRow) : Traced (list DataGridRow) :=
  match n with
  | O => untraced (Returns rs)
  | S n' =>
      row ← readRow rs i;
      row ← untraced (deref row);
      row' ← untraced (adjustRow cursor defaultH scroll_top row);
      heightLoopT n' (i + 1) cursor defaultH scroll_top (put rs i row')
  end.

Fixpoint offsetLoopT (n : nat) (i : Z) (translateBuffer : Z)
    (rs : list DataGridRow) : Traced (list DataGridRow) :=
  match n with
  | O => untraced (Returns rs)
  | S n' =>
      prev ← readRow rs (i - 1);
      prev ← untraced (deref prev);
      let translateBuffer := translateBuffer + rowOffsetHeight prev in
      row ← readRow rs i;
      row ← untraced (deref row);
      offsetLoopT n' (i + 1) translateBuffer
        (put rs i (setRowTransform (Some translateBuffer) row))
  end.

Definition adjustRowHeightsT (v : RowsVirtualizer) : Traced RowsVirtualizer :=
  let cursor := rowCursor v in
  let defaultH := defaultRowHeight v in
  let vp := viewport v in
  let rowsLn := Z.of_nat (length (rows vp)) in
  first ← readRow (rows vp) 0;
  first ← untraced (deref first);
  let translateBuffer := getDefaultTopOffset first in
  rs ← heightLoopT (Z.to_nat rowsLn) 0 cursor defaultH (scrollTop vp) (rows vp);
  rs ← offsetLoopT (Z.to_nat (rowsLn - 1 - 1)) 1 translateBuffer rs;
  (* Set the proper offset for the last row *)
  lastRow ← readRow rs (rowsLn - 1);
  lastRow ← untraced (deref lastRow);
  preLastRow ← readRow rs (rowsLn - 2);
  let rs :=
    match preLastRow with
    | Some preLastRow =>
        if index preLastRow =? index lastRow - 1 then
          put rs (rowsLn - 1)
            (setRowTransform
               (Some (rowOffsetHeight preLastRow
                      + getTranslateY (rowTransform preLastRow)))
               lastRow)
        else rs
    | None => rs
    end in
  untraced (Returns (setViewport (setRows rs vp) v)).

End Reads.

Definition inBounds (rowsLn i : Z) : Prop := 0 <= i < rowsLn.

(** ** Invariants of a session *)

(** The configuration that rendering and scrolling leave alone. *)
Definition sameGrid (v0 v : RowsVirtualizer) : Prop :=
  defaultRowHeight v = defaultRowHeight v0 /\ buffer v = buffer v0
  /\ rowCount (viewport v) = rowCount (viewport v0)
  /\ offsetHeight (viewport v) = offsetHeight (viewport v0).

(** The window is the one [renderRows] builds for the cursor [c]. *)
Definition windowAt (c : Z) (v : RowsVirtualizer) : Prop :=
  windowIndexes v =
  indexRun (rangeFrom v c) (rangeTo v c (rowCount (viewport v) - 1))
  ++ [rowCount (viewport v) - 1].

(** The last row object is the first one that was constructed, every other
    object came later, and the first one was not destroyed since. *)
Definition handlesInv (v0 v : RowsVirtualizer) : Prop :=
  let a0 := nextHandle (viewport v0) in
  (a0 < nextHandle (viewport v))%nat
  /\ (exists hs, handle <$> rows (viewport v) = hs ++ [a0]
                 /\ Forall (fun h => (a0 < h)%nat) hs)
  /\ (exists ds, destroyed (viewport v) = destroyed (viewport v0) ++ ds
                 /\ Forall (fun h => (a0 < h)%nat) ds).

Definition Inv (v0 v : RowsVirtualizer) : Prop :=
  sameGrid v0 v /\ windowAt (rowCursor v) v /\ handlesInv v0 v.

(** Every row that is constructed has a cell: the grid has a column. *)
Definition hasColumns `{Collaborators} : Prop := forall i, fst (render i) <> [].

Definition hasCells (r : DataGridRow) : Prop := cells r <> [].

(** ** A sample grid

    Every row has two cells of natural height 40, rows start at their
    default top offset, and the table body keeps its scroll offset. *)
Definition sampleGrid : Collaborators := {|
  render := fun i => ([mkCell 40 None; mkCell 40 None], Some (i * 20));
  getDefaultTopOffset := fun r => index r * 20;
  getTranslateY := fun t => from_option id 0 t;
  settle := fun _ s => s;
  reflow := fun r => r
|}.

(** The constructor: the cursor starts at 0. *)
Definition newRowsVirtualizer (vp : DataGridTable) (defaultH buf : Z) : RowsVirtualizer :=
  mkVirtualizer defaultH 0 vp buf.

Definition emptyTable (n visibleHeight : Z) : DataGridTable :=
  mkTable [] n visibleHeight 0 [] 0.

(** 1000 rows of default height 20 in a table body of height 200, buffer 2. *)
Definition sample0 : RowsVirtualizer :=
  newRowsVirtualizer (emptyTable 1000 200) 20 2.

Definition stateOf (o : Outcome RowsVirtualizer) (d : RowsVirtualizer) : RowsVirtualizer :=
  match o with
  | Returns v => v
  | Throws _ => d
  end.

(** [sample0] after [initialRender()]. *)
Definition sample1 : RowsVirtualizer :=
  Eval vm_compute in stateOf (@initialRender sampleGrid sample0) sample0.

(** A table of 5 rows, less than the 10 rows of a page. *)
Definition small0 : RowsVirtualizer :=
  newRowsVirtualizer (emptyTable 5 200) 20 2.

(** A table with one row in a table body one row high, no buffer. *)
Definition single0 : RowsVirtualizer :=
  newRowsVirtualizer (emptyTable 1 20) 20 0.

(** 1000 rows in a table body half a row high. *)
Definition short0 : RowsVirtualizer :=
  newRowsVirtualizer (emptyTable 1000 10) 20 2.

(** The last row object of [sample1]. *)
Definition sampleAnchor : DataGridRow :=
  Eval vm_compute in default (firstLast (H := sampleGrid) (viewport sample0))
                       (last (rows (viewport sample1))).

(** [sample1] after a scroll event at offset 500, and at offset 510. *)
Definition sample500 : RowsVirtualizer :=
  Eval vm_compute in stateOf (@scroll sampleGrid (scrollTo 500 sample1)) sample1.

Definition sample510 : RowsVirtualizer :=
  Eval vm_compute in stateOf (@scroll sampleGrid (scrollTo 510 sample1)) sample1.

(** [sample1] after a scroll event at offset 501. *)
Definition sample501 : RowsVirtualizer :=
  Eval vm_compute in stateOf (@scroll sampleGrid (scrollTo 501 sample1)) sample1.

(** [single0] after [initialRender()]. *)
Definition single1 : RowsVirtualizer :=
  Eval vm_compute in stateOf (@initialRender sampleGrid single0) single0.

(** The sample grid in a table body that reports an offset 7 lower once the
    rows were laid out again. *)
Definition shrinkingGrid : Collaborators := {|
  render := fun i => ([mkCell 40 None; mkCell 40 None], Some (i * 20));
  getDefaultTopOffset := fun r => index r * 20;
  getTranslateY := fun t => from_option id 0 t;
  settle := fun _ s => (s - 7)%Q;
  reflow := fun r => r
|}.

(** ** Closed forms of the offset loops *)

(** The sum of the measured heights of rows. *)
Definition sumHeights (l : list DataGridRow) : Z :=
  foldr (fun r acc => rowOffsetHeight r + acc) 0 l.

(** The second loop of [adjustRowHeights] on the rows [l] that follow the row
    [prev], [translateBuffer] being [tb] before. *)
Fixpoint stackRows (tb : Z) (prev : DataGridRow) (l : list DataGridRow)
  : list DataGridRow :=
  match l with
  | [] => []
  | r :: l' =>
      let tb' := tb + rowOffsetHeight prev in
      let r' := setRowTransform (Some tb') r in
      r' :: stackRows tb' r' l'
  end.

(** The last step of [adjustRowHeights]: the offset of the last row. *)
Definition glueLast `{Collaborators} (rs : list DataGridRow) : list DataGridRow :=
  let rowsLn := Z.of_nat (length rs) in
  match at_ rs (rowsLn - 1), at_ rs (rowsLn - 2) with
  | Some lastRow, Some preLastRow =>
      if index preLastRow =? index lastRow - 1 then
        put rs (rowsLn - 1)
          (setRowTransform
             (Some (rowOffsetHeight preLastRow
                    + getTranslateY (rowTransform preLastRow)))
             lastRow)
      else rs
  | _, _ => rs
  end.

(** ** Bookkeeping of row objects *)

(** Every row object constructed since [v0] is in the window or was destroyed,
    and none is both or was destroyed twice: the handles of the window and
    the handles destroyed since are, in some order, the handles handed out. *)
Definition accounted (v0 v : RowsVirtualizer) : Prop :=
  (nextHandle (viewport v0) <= nextHandle (viewport v))%nat
  /\ exists ds,
       destroyed (viewport v) = destroyed (viewport v0) ++ ds
       /\ (handle <$> rows (viewport v)) ++ ds
          ≡ₚ seq (nextHandle (viewport v0))
               (nextHandle (viewport v) - nextHandle (viewport v0)).

(** The cells of a row carry no transform. *)
Definition untranslated (r : DataGridRow) : Prop :=
  Forall (fun cell => cellTransform cell = None) (cells r).

(** When the first cell of a row carries no transform, no cell does: the
    reset of [adjustRowHeights], which tests the first cell only, then clears
    every transform there is. *)
Definition firstCellTells (r : DataGridRow) : Prop :=
  (exists cell0, head (cells r) = Some cell0 /\ cellTransform cell0 = None) ->
  untranslated r.

(** * Columns of the data grid

    A shallow embedding of the class [DataGridColumn].  An element is its
    attributes and its class list; the cells of a column are given by their
    elements.  The options of a column and its data, which the constructor
    takes from [merge] and from the data table, are read by none of the
    methods below and are left out.  The class name
    [Globals.classNames.hoveredColumn] and [DataGridTable.getWithFromRatio]
    are parameters. *)

Module Column.

Record HTMLElement : Type := mkElement {
  attributes : gmap string string;
  classList : gset string
}.

Record DataGridColumn : Type := mkColumn {
  width : Q;
  cells : list HTMLElement;
  id : string;
  index : Z;
  headElement : option HTMLElement
}.

(** [element.setAttribute(name, value)] *)
Definition setAttribute (name value : string) (e : HTMLElement) : HTMLElement :=
  mkElement (<[name := value]> (attributes e)) (classList e).

(** [element.classList[add ? 'add' : 'remove'](name)] *)
Definition toggleClass (add : bool) (name : string) (e : HTMLElement) : HTMLElement :=
  mkElement (attributes e)
    (if add then {[name]} ∪ classList e else classList e ∖ {[name]}).

(** The constructor, [isFull] being [viewport.columnDistribution === 'full']:
    no cell, no head element yet. *)
Definition new (isFull : bool) (columnId : string) (columnIndex : Z) : DataGridColumn :=
  mkColumn (if isFull then 1 else 100) [] columnId columnIndex None.

Definition registerCell (cell : HTMLElement) (col : DataGridColumn) : DataGridColumn :=
  mkColumn (width col)
    (cells col ++ [setAttribute "column-id" (id col) cell])
    (id col) (index col) (headElement col).

Definition getWidth (isFull : bool) (getWithFromRatio : Q -> Q) (col : DataGridColumn) : Q :=
  if isFull then getWithFromRatio (width col) else width col.

Definition setHover (hoveredColumn : string) (hovered : bool) (col : DataGridColumn)
  : DataGridColumn :=
  mkColumn (width col)
    (toggleClass hovered hoveredColumn <$> cells col)
    (id col) (index col)
    (toggleClass hovered hoveredColumn <$> headElement col).

(** No element of the column has the class [name]. *)
Definition noneHas (name : string) (col : DataGridColumn) : Prop :=
  Forall (fun e => name ∉ classList e) (cells col)
  /\ (forall e, headElement col = Some e -> name ∉ classList e).

End Column.

(** [sample1] after a scroll event at offset 19800, the end of the table:
    the window is [988..998] and the row 999. *)
Definition sampleEnd : RowsVirtualizer :=
  Eval vm_compute in stateOf (@scroll sampleGrid (scrollTo 19800 sample1)) sample1.

(** The state of the sample grid in the scroll event at offset 510, between
    [renderRows(25)] and the height pass. *)
Definition sample510Rendered : RowsVirtualizer :=
  Eval vm_compute in
    setRowCursor 25
      (stateOf (@renderRows sampleGrid 25 (scrollTo 510 sample1)) sample1).

(** A column with a head element and two registered cells, none hovered. *)
Definition sampleColumn : Column.DataGridColumn :=
  Column.registerCell (Column.mkElement ∅ {["cell"]})
    (Column.registerCell (Column.mkElement ∅ {["cell"]})
       (Column.mkColumn 100 [] "price" 2 (Some (Column.mkElement ∅ {["head"]})))).

(** * Properties *)

(** ** Rounding *)

Section Rounding.

Local Arguments Qfloor : simpl never.

Lemma roundEven_floor x : Qfloor x <= roundEven x <= Qfloor x + 1.
Proof.
  unfold roundEven. destruct (_ ?= _)%Q; [destruct (Z.even _)|..]; lia.
Qed.

Lemma roundEven_ge x n : (inject_Z n <= x)%Q -> n <= roundEven x.
Proof.
  intros Hn. apply Z.le_trans with (Qfloor x); [|apply roundEven_floor].
  rewrite <- (Qfloor_Z n). by apply Qfloor_resp_le.
Qed.

Lemma roundEven_le x n : (x <= inject_Z n)%Q -> roundEven x <= n.
Proof.
  intros Hn. pose proof (Qfloor_le x) as Hfl. pose proof (roundEven_floor x).
  assert (Qfloor x <= n) as Hfn.
  { rewrite <- (Qfloor_Z n). by apply Qfloor_resp_le. }
  destruct (Z_lt_le_dec (Qfloor x) n) as [Hlt|Hge]; [lia|].
  assert (Qfloor x = n) as Hx by lia.
  unfold roundEven. rewrite Hx in *.
  assert ((x - inject_Z n ?= 1 # 2)%Q = Lt) as ->; [|lia].
  apply (proj1 (Qlt_alt _ _)). lra.
Qed.

Lemma roundEven_comp x y : (x == y)%Q -> roundEven x = roundEven y.
Proof.
  intros Hxy. unfold roundEven. rewrite (Qfloor_comp _ _ Hxy).
  assert ((x - inject_Z (Qfloor y) ?= 1 # 2) = (y - inject_Z (Qfloor y) ?= 1 # 2))%Q
    as ->; [|done].
  by rewrite Hxy.
Qed.

Lemma ulpExp_range x : -1074 <= ulpExp x <= 0.
Proof. unfold ulpExp. lia. Qed.

Lemma ulpExp_comp x y : (x == y)%Q -> ulpExp x = ulpExp y.
Proof.
  intros Hxy. unfold ulpExp.
  rewrite (Qfloor_comp (Qabs x * inject_Z (2 ^ 1074)) (Qabs y * inject_Z (2 ^ 1074)));
    [done|]. by rewrite Hxy.
Qed.

Lemma round64_comp x y : (x == y)%Q -> round64 x = round64 y.
Proof.
  intros Hxy. unfold round64. rewrite (ulpExp_comp _ _ Hxy).
  f_equal. f_equal. apply roundEven_comp. by rewrite Hxy.
Qed.

Lemma scale_pos e : e <= 0 -> (0 < inject_Z (2 ^ (- e)))%Q.
Proof.
  intros He. change 0%Q with (inject_Z 0). rewrite <- Zlt_Qlt.
  apply Z.pow_pos_nonneg; lia.
Qed.

(** Rounding does not pass an integer. *)
Lemma round64_ge_Z n x : (inject_Z n <= x)%Q -> (inject_Z n <= round64 x)%Q.
Proof.
  intros Hn. unfold round64.
  pose proof (scale_pos (ulpExp x) (proj2 (ulpExp_range x))) as Hs.
  set (scale := inject_Z (2 ^ (- ulpExp x))) in *.
  apply Qle_shift_div_l; [done|].
  subst scale. rewrite <- inject_Z_mult, <- Zle_Qle.
  apply roundEven_ge. rewrite inject_Z_mult.
  apply Qmult_le_compat_r; [done|]. by apply Qlt_le_weak.
Qed.

Lemma round64_le_Z n x : (x <= inject_Z n)%Q -> (round64 x <= inject_Z n)%Q.
Proof.
  intros Hn. unfold round64.
  pose proof (scale_pos (ulpExp x) (proj2 (ulpExp_range x))) as Hs.
  set (scale := inject_Z (2 ^ (- ulpExp x))) in *.
  apply Qle_shift_div_r; [done|].
  subst scale. rewrite <- inject_Z_mult, <- Zle_Qle.
  apply roundEven_le. rewrite inject_Z_mult.
  apply Qmult_le_compat_r; [done|]. by apply Qlt_le_weak.
Qed.

Lemma round64_Z n : (round64 (inject_Z n) == inject_Z n)%Q.
Proof.
  apply Qle_antisym; [apply round64_le_Z|apply round64_ge_Z]; apply Qle_refl.
Qed.

(** The integer [roundEven x] is within one half of [x]. *)
Lemma roundEven_near x : (Qabs (inject_Z (roundEven x) - x) <= 1 # 2)%Q.
Proof.
  pose proof (Qfloor_le x) as Hlo. pose proof (Qlt_floor x) as Hhi.
  rewrite inject_Z_plus in Hhi. change (inject_Z 1) with 1%Q in Hhi.
  apply Qabs_Qle_condition. unfold roundEven.
  destruct (x - inject_Z (Qfloor x) ?= 1 # 2)%Q eqn:Hcmp.
  - apply Qeq_alt in Hcmp.
    destruct (Z.even (Qfloor x)); rewrite ?inject_Z_plus;
      change (inject_Z 1) with 1%Q; lra.
  - apply Qlt_alt in Hcmp. lra.
  - apply Qgt_alt in Hcmp. rewrite inject_Z_plus. change (inject_Z 1) with 1%Q. lra.
Qed.

(** The unit in the last place: above the smallest one the scaled magnitude
    has 53 bits, and below the largest one no more. *)
Lemma ulpExp_spec x :
  let e := ulpExp x in
  (-1074 < e -> (inject_Z (2 ^ 52) <= Qabs x * inject_Z (2 ^ (- e)))%Q)
  /\ (e < 0 -> (Qabs x * inject_Z (2 ^ (- e)) < inject_Z (2 ^ 53))%Q).
Proof.
  intros e. pose proof (ulpExp_range x) as [He0 He1]. fold e in He0, He1.
  pose proof (Qfloor_le (Qabs x * inject_Z (2 ^ 1074))) as Hlo.
  pose proof (Qlt_floor (Qabs x * inject_Z (2 ^ 1074))) as Hhi.
  set (N := Qfloor (Qabs x * inject_Z (2 ^ 1074))) in *.
  assert (0 <= N) as HN.
  { subst N. rewrite <- (Qfloor_Z 0). apply Qfloor_resp_le.
    change (inject_Z 0) with 0%Q. apply Qmult_le_0_compat; [apply Qabs_nonneg|].
    change 0%Q with (inject_Z 0). rewrite <- Zle_Qle. by apply Z.pow_nonneg. }
  assert (e = Z.max (-1074) (Z.min 0 (Z.log2 N - 1126))) as Hedef by done.
  assert (0 < inject_Z (2 ^ (1074 + e)))%Q as Hpos.
  { change 0%Q with (inject_Z 0). rewrite <- Zlt_Qlt. apply Z.pow_pos_nonneg; lia. }
  assert (inject_Z (2 ^ 1074) == inject_Z (2 ^ (- e)) * inject_Z (2 ^ (1074 + e)))%Q
    as Hsplit.
  { rewrite <- inject_Z_mult, <- Z.pow_add_r by lia. by replace (- e + (1074 + e)) with 1074 by lia. }
  split.
  - intros He.
    assert (0 < Z.log2 N /\ e + 1126 <= Z.log2 N) as [HL0 HL] by lia.
    assert (0 < N) as HN0.
    { destruct (Z.eq_dec N 0) as [->|]; [by cbn in HL0|lia]. }
    pose proof (Z.log2_spec N HN0) as [Hpow _].
    assert (2 ^ (e + 1126) <= N) as HeN.
    { etrans; [|exact Hpow]. apply Z.pow_le_mono_r; lia. }
    apply (Qmult_le_r _ _ (inject_Z (2 ^ (1074 + e)))); [exact Hpos|].
    rewrite <- Qmult_assoc, <- Hsplit, <- inject_Z_mult, <- Z.pow_add_r by lia.
    replace (52 + (1074 + e)) with (e + 1126) by lia.
    apply Qle_trans with (inject_Z N); [by rewrite <- Zle_Qle|exact Hlo].
  - intros He.
    assert (Z.log2 N <= e + 1126) as HL by lia.
    assert (N + 1 <= 2 ^ (e + 1127)) as HeN.
    { destruct (Z.eq_dec N 0) as [->|Hne].
      - cbn [Z.add]. apply (Z.pow_le_mono_r 2 0 (e + 1127)); lia.
      - pose proof (Z.log2_spec N ltac:(lia)) as [_ Hpow].
        assert (2 ^ Z.succ (Z.log2 N) <= 2 ^ (e + 1127)); [|lia].
        apply Z.pow_le_mono_r; lia. }
    apply (Qmult_lt_r _ _ (inject_Z (2 ^ (1074 + e)))); [exact Hpos|].
    rewrite <- Qmult_assoc, <- Hsplit, <- inject_Z_mult, <- Z.pow_add_r by lia.
    replace (53 + (1074 + e)) with (e + 1127) by lia.
    apply Qlt_le_trans with (inject_Z (N + 1)); [exact Hhi|by rewrite <- Zle_Qle].
Qed.

(** [round64 x] is a multiple of the unit in the last place of [x], within
    half a unit of [x]. *)
Lemma round64_near x :
  let scale := inject_Z (2 ^ (- ulpExp x)) in
  (round64 x * scale == inject_Z (roundEven (x * scale))
   /\ Qabs (round64 x - x) * scale <= 1 # 2)%Q.
Proof.
  intros scale.
  pose proof (scale_pos (ulpExp x) (proj2 (ulpExp_range x))) as Hs. fold scale in Hs.
  assert (round64 x * scale == inject_Z (roundEven (x * scale)))%Q as Hm.
  { unfold round64. fold scale. field. lra. }
  split; [exact Hm|].
  assert (Qabs (round64 x - x) * scale == Qabs ((round64 x - x) * scale))%Q as ->.
  { rewrite Qabs_Qmult, (Qabs_pos scale); [reflexivity|by apply Qlt_le_weak]. }
  assert ((round64 x - x) * scale == inject_Z (roundEven (x * scale)) - x * scale)%Q
    as -> by (rewrite <- Hm; ring).
  apply roundEven_near.
Qed.

(** When no operation of the formula rounds, its value is the exact one. *)
Lemma interpolated_exact h d s c :
  exact64 h d s c ->
  Qfloor (sub64 (inject_Z h)
            (mul64 (sub64 (inject_Z h) (inject_Z d))
               (sub64 (div64 s (inject_Z d)) (inject_Z c))))
  = Qfloor (inject_Z h
            - inject_Z (h - d) * (s / inject_Z d - inject_Z c))%Q.
Proof.
  intros (Hq & Ht & Hp & Hr). apply Qfloor_comp.
  assert (inject_Z h - inject_Z d == inject_Z (h - d))%Q as Hsub.
  { unfold Z.sub. by rewrite inject_Z_plus, inject_Z_opp. }
  unfold sub64, mul64, div64.
  rewrite (round64_comp (inject_Z h - inject_Z d) (inject_Z (h - d)) Hsub).
  rewrite (round64_comp (round64 (s / inject_Z d) - inject_Z c)
             (s / inject_Z d - inject_Z c)) by (by rewrite Hq).
  rewrite (round64_comp
             (round64 (inject_Z (h - d)) * round64 (s / inject_Z d - inject_Z c))
             (inject_Z (h - d) * (s / inject_Z d - inject_Z c)))
    by (by rewrite round64_Z, Ht).
  rewrite (round64_comp
             (inject_Z h
              - round64 (inject_Z (h - d) * (s / inject_Z d - inject_Z c)))
             (inject_Z h - inject_Z (h - d) * (s / inject_Z d - inject_Z c)))
    by (by rewrite Hp).
  exact Hr.
Qed.

Lemma interpolated_between d h (s : Q) :
  0 < d -> d < h ->
  d <= Qfloor (sub64 (inject_Z h)
                 (mul64 (sub64 (inject_Z h) (inject_Z d))
                    (sub64 (div64 s (inject_Z d))
                       (inject_Z (Qfloor (s / inject_Z d))))))
    <= h.
Proof.
  intros Hd Hh. set (q := (s / inject_Z d)%Q).
  pose proof (Qfloor_le q) as Hq0. pose proof (Qlt_floor q) as Hq1.
  set (c := Qfloor q) in *.
  assert (inject_Z c <= div64 s (inject_Z d) <= inject_Z (c + 1))%Q as [Hu0 Hu1].
  { unfold div64. fold q. split; [by apply round64_ge_Z|].
    apply round64_le_Z. by apply Qlt_le_weak. }
  set (u := div64 s (inject_Z d)) in *.
  assert (0 <= sub64 u (inject_Z c) <= 1)%Q as [Ht0 Ht1].
  { unfold sub64. split.
    - apply (round64_ge_Z 0). change (inject_Z 0) with 0%Q. lra.
    - apply (round64_le_Z 1). rewrite inject_Z_plus in Hu1.
      change (inject_Z 1) with 1%Q in *. lra. }
  set (t := sub64 u (inject_Z c)) in *.
  assert (sub64 (inject_Z h) (inject_Z d) = round64 (inject_Z (h - d))) as ->.
  { unfold sub64. apply round64_comp. unfold Z.sub.
    by rewrite inject_Z_plus, inject_Z_opp. }
  assert (0 < inject_Z (h - d))%Q as Hpos.
  { change 0%Q with (inject_Z 0). rewrite <- Zlt_Qlt. lia. }
  assert (inject_Z (h - d) == inject_Z h - inject_Z d)%Q as Hsub.
  { unfold Z.sub. by rewrite inject_Z_plus, inject_Z_opp. }
  assert (0 <= mul64 (round64 (inject_Z (h - d))) t <= inject_Z (h - d))%Q
    as [Hp0 Hp1].
  { unfold mul64.
    rewrite (round64_comp (round64 (inject_Z (h - d)) * t) (inject_Z (h - d) * t))
      by (by rewrite round64_Z).
    split.
    - apply (round64_ge_Z 0). change (inject_Z 0) with 0%Q.
      apply Qmult_le_0_compat; [by apply Qlt_le_weak|done].
    - apply round64_le_Z.
      rewrite <- (Qmult_1_r (inject_Z (h - d))) at 2.
      apply Qmult_le_l; done. }
  set (p := mul64 (round64 (inject_Z (h - d))) t) in *.
  split.
  - rewrite <- (Qfloor_Z d). apply Qfloor_resp_le. unfold sub64.
    apply round64_ge_Z. lra.
  - rewrite <- (Qfloor_Z h) at 2. apply Qfloor_resp_le. unfold sub64.
    apply round64_le_Z. lra.
Qed.

(** [round64] gives what the machine computes: the first visible row gets
    the same height, and the cursor is the same, at every eighth of a pixel
    of the first 250 pixels for rows of height 40 over a default of 20, and
    for some other heights and offsets. *)
Example round64_as_the_machine :
  agreeOn 40 20 0 2000 = true
  /\ agreeOn 33 7 1000 500 = true
  /\ agreeOn 100 3 123456 500 = true
  /\ agreeOn 1000 17 (2 ^ 40) 500 = true.
Proof.
  split; [vm_compute; reflexivity|]. split; [vm_compute; reflexivity|].
  split; vm_compute; reflexivity.
Qed.

(** The floor and the ceiling of a rounded quotient are those of the exact
    quotient: for the cursor at the offsets next to the multiples [k * d] of
    the default row heights [d] up to 130, and for the rows of a page of
    the heights up to 300. *)
Example quotients_as_the_machine :
  forallb (fun k => forallb (cursorAgrees k) (seqZ 1 130))
    (seqZ 1 60 ++ seqZ (2 ^ 31 - 10) 20 ++ [2 ^ 40 + 1; 2 ^ 45 + 12345]) = true
  /\ forallb (fun oh => forallb (rowsPerPageAgrees oh) (seqZ 1 130))
       (seqZ 0 300 ++ seqZ (2 ^ 31 - 50) 50) = true.
Proof. split; vm_compute; reflexivity. Qed.

End Rounding.

Section Properties.

Context `{Collaborators}.

Local Arguments Qfloor : simpl never.
Local Arguments Qceiling : simpl never.
Local Arguments Qminus : simpl never.
Local Arguments Qmult : simpl never.
Local Arguments Qdiv : simpl never.
Local Arguments inject_Z : simpl never.

(** ** Array reads *)

Lemma at_lookup {A : Type} (l : list A) (k : nat) : at_ l (Z.of_nat k) = l !! k.
Proof.
  unfold at_. destruct (Z.ltb_spec (Z.of_nat k) 0); [lia|].
  by rewrite Nat2Z.id.
Qed.

Lemma at_last_index {A : Type} (l : list A) :
  at_ l (Z.of_nat (length l) - 1) = last l.
Proof.
  destruct l as [|x l]; [done|].
  replace (Z.of_nat (length (x :: l)) - 1) with (Z.of_nat (length l))
    by (cbn [length]; lia).
  by rewrite at_lookup, last_lookup.
Qed.

Lemma removelast_snoc {A : Type} (l : list A) (a : A) :
  removelast (l ++ [a]) = l.
Proof. apply removelast_last. Qed.

(** ** The render loop *)

Lemma freshRows_index n i h : index <$> freshRows n i h = seqZ i (Z.of_nat n).
Proof.
  revert i h. induction n as [|n IH]; intros i h.
  - by rewrite seqZ_nil.
  - cbn [freshRows fmap list_fmap index]. rewrite seqZ_cons by lia.
    f_equal. change (list_fmap _ _ index ?l) with (index <$> l).
    rewrite IH. f_equal; lia.
Qed.

Lemma freshRows_handle n i h : handle <$> freshRows n i h = seq h n.
Proof.
  revert i h. induction n as [|n IH]; intros i h; [done|].
  cbn [freshRows fmap list_fmap handle seq]. f_equal. apply IH.
Qed.

Lemma freshRows_length n i h : length (freshRows n i h) = n.
Proof. revert i h. induction n as [|n IH]; intros; cbn; [done|]. by rewrite IH. Qed.

Lemma freshRows_cells n i h r :
  r ∈ freshRows n i h -> cells r = fst (render (index r)).
Proof.
  revert i h. induction n as [|n IH]; intros i h Hr; cbn in Hr.
  - by apply elem_of_nil in Hr.
  - apply elem_of_cons in Hr as [->|Hr]; [done|]. by eapply IH.
Qed.

Lemma renderLoop_spec n i vp :
  renderLoop n i vp =
  mkTable (rows vp ++ freshRows n i (nextHandle vp)) (rowCount vp)
    (offsetHeight vp) (scrollTop vp) (destroyed vp) (nextHandle vp + n)%nat.
Proof.
  revert i vp. induction n as [|n IH]; intros i vp.
  - cbn. rewrite app_nil_r, Nat.add_0_r. by destruct vp.
  - cbn [renderLoop newRow]. rewrite IH. cbn.
    rewrite <- app_assoc. cbn. f_equal. lia.
Qed.

(** ** [renderRows] in closed form *)

Local Arguments renderLoop : simpl never.

Lemma renderRows_spec c v :
  let vp := viewport v in
  let a := default (firstLast vp) (last (rows vp)) in
  let h := match rows vp with [] => S (nextHandle vp) | _ :: _ => nextHandle vp end in
  let from := rangeFrom v c in
  let to := rangeTo v c (index a) in
  let n := Z.to_nat (to - from + 1) in
  renderRows c v =
  Returns (setViewport
             (mkTable (freshRows n from h ++ [a]) (rowCount vp) (offsetHeight vp)
                (scrollTop vp)
                (destroyed vp ++ (handle <$> removelast (rows vp)))
                (h + n)%nat) v).
Proof.
  destruct v as [d c0 [rs N oh st ds nh] b]. cbv zeta. unfold renderRows.
  rewrite at_last_index. cbn [viewport rows].
  destruct rs as [|r l].
  - cbn. rewrite renderLoop_spec. cbn. by rewrite app_nil_r.
  - destruct (last (r :: l)) as [a|] eqn:Hlast; [|by apply last_None in Hlast].
    cbn. rewrite Hlast. cbn. rewrite renderLoop_spec. done.
Qed.

Lemma renderRows_returns c v : exists v', renderRows c v = Returns v'.
Proof. eexists. apply renderRows_spec. Qed.

(** ** The height pass *)

Lemma at_0 {A : Type} (l : list A) : at_ l 0 = head l.
Proof. by destruct l. Qed.

Lemma at_is_Some {A : Type} (l : list A) i :
  0 <= i < Z.of_nat (length l) -> is_Some (at_ l i).
Proof.
  intros Hi. unfold at_. destruct (Z.ltb_spec i 0); [lia|].
  apply lookup_lt_is_Some. lia.
Qed.

Lemma at_None {A : Type} (l : list A) i :
  at_ l i = None <-> ~ (0 <= i < Z.of_nat (length l)).
Proof.
  unfold at_. destruct (Z.ltb_spec i 0); [split; [lia|done]|].
  rewrite lookup_ge_None. lia.
Qed.

Ltac first_cell := cbn; change (Z.to_nat 0) with 0%nat in *; cbn.

Lemma adjustRow_throws c d s r :
  cells r = [] -> adjustRow c d s r = Throws TypeError.
Proof.
  destruct r as [i hd cs sh rt]. cbn. intros ->. unfold adjustRow. by first_cell.
Qed.

Lemma adjustRow_returns c d s r :
  cells r <> [] -> exists r', adjustRow c d s r = Returns r'.
Proof.
  destruct r as [i hd [|[ch t] cs] sh rt]; [done|]. intros _.
  unfold adjustRow. first_cell.
  destruct t; cbn; destruct (i <? c); try (eexists; reflexivity);
    cbn; destruct (i >? c); try (eexists; reflexivity);
    unfold rowOffsetHeight; cbn; destruct (ch >? d); eexists; reflexivity.
Qed.

(** What one iteration leaves of the row object, and the height it applies,
    [h] being the measured height of the first cell. *)
Lemma adjustRow_inv c d s r r' :
  adjustRow c d s r = Returns r' ->
  index r' = index r /\ handle r' = handle r /\ rowTransform r' = rowTransform r
  /\ length (cells r') = length (cells r)
  /\ exists cell0, head (cells r) = Some cell0 /\
       let h := cellOffsetHeight cell0 in
       let adjusted :=
         Qfloor (sub64 (inject_Z h)
                   (mul64 (sub64 (inject_Z h) (inject_Z d))
                      (sub64 (div64 s (inject_Z d)) (inject_Z c)))) in
       (index r < c -> styleHeight r' = Some d) /\
       (index r > c -> styleHeight r' = Some h) /\
       (index r = c -> h <= d -> styleHeight r' = Some h) /\
       (index r = c -> h > d ->
          styleHeight r' = Some adjusted /\
          Forall (fun cell => cellTransform cell = Some (adjusted - h)) (cells r')).
Proof.
  destruct r as [i hd [|[ch t] cs] sh rt].
  { rewrite adjustRow_throws; done. }
  unfold adjustRow. first_cell.
  intros Hr.
  destruct t; cbn in Hr; destruct (Z.ltb_spec i c); cbn in Hr;
    try (injection Hr as <-; cbn; rewrite ?length_fmap; repeat split; try done;
         eexists; split; [reflexivity|]; cbn; repeat split; intros; (done || lia)).
  all: destruct (Z.gtb_spec i c); cbn in Hr;
    try (injection Hr as <-; cbn; rewrite ?length_fmap; repeat split; try done;
         eexists; split; [reflexivity|]; cbn; repeat split; intros; (done || lia)).
  all: unfold rowOffsetHeight in Hr; cbn in Hr; destruct (Z.gtb_spec ch d);
    injection Hr as <-; cbn; rewrite ?length_fmap; repeat split; try done;
    eexists; (split; [reflexivity|]); cbn; repeat split; intros; try (done || lia).
  all: constructor; [done|]; apply Forall_fmap, Forall_true; done.
Qed.

Lemma eachRow_Forall2 f l l' :
  eachRow f l = Returns l' -> Forall2 (fun r r' => f r = Returns r') l l'.
Proof.
  revert l'. induction l as [|r l IH]; intros l' Hl; cbn in Hl.
  - injection Hl as <-. constructor.
  - destruct (f r) as [r1|] eqn:Hr; [|done]. cbn in Hl.
    destruct (eachRow f l) as [l1|]; [|done]. cbn in Hl.
    injection Hl as <-. constructor; auto.
Qed.

Lemma eachRow_returns f l :
  Forall (fun r => exists r', f r = Returns r') l ->
  exists l', eachRow f l = Returns l'.
Proof.
  induction 1 as [|r l [r' Hr] _ [l' IH]]; cbn.
  - by eexists.
  - rewrite Hr. cbn. rewrite IH. cbn. by eexists.
Qed.

Lemma heightLoop_eachRow c d s l1 l2 :
  heightLoop (length l2) (Z.of_nat (length l1)) c d s (l1 ++ l2) =
  l ← eachRow (adjustRow c d s) l2; Returns (l1 ++ l).
Proof.
  revert l1. induction l2 as [|r l2 IH]; intros l1.
  - cbn. by rewrite app_nil_r.
  - cbn [length heightLoop eachRow].
    rewrite at_lookup, list_lookup_middle by done. cbn.
    destruct (adjustRow c d s r) as [r'|]; [|done]. cbn.
    unfold put. rewrite Nat2Z.id.
    replace (<[length l1:=r']> (l1 ++ r :: l2)) with ((l1 ++ [r']) ++ l2).
    2:{ rewrite <- (Nat.add_0_r (length l1)), insert_app_r. cbn.
        by rewrite <- app_assoc. }
    replace (Z.of_nat (length l1) + 1) with (Z.of_nat (length (l1 ++ [r'])))
      by (rewrite length_app; cbn; lia).
    rewrite IH. destruct (eachRow (adjustRow c d s) l2); cbn; [|done].
    by rewrite <- app_assoc.
Qed.

Lemma offsetLoop_box n i tb rs :
  1 <= i -> i + Z.of_nat n <= Z.of_nat (length rs) ->
  exists rs', offsetLoop n i tb rs = Returns rs' /\ box <$> rs' = box <$> rs.
Proof.
  revert i tb rs. induction n as [|n IH]; intros i tb rs Hi Hn.
  - by eexists.
  - cbn [offsetLoop].
    destruct (at_is_Some rs (i - 1)) as [prev ->]; [lia|].
    destruct (at_is_Some rs i) as [row Hrow]; [lia|]. rewrite Hrow. cbn.
    destruct (IH (i + 1) (tb + rowOffsetHeight prev)
                (put rs i (setRowTransform (Some (tb + rowOffsetHeight prev)) row)))
      as (rs' & -> & Hbox); [lia|unfold put; rewrite length_insert; lia|].
    eexists; split; [done|]. rewrite Hbox. unfold put.
    rewrite list_fmap_insert. apply list_insert_id.
    rewrite list_lookup_fmap. unfold at_ in Hrow.
    destruct (Z.ltb_spec i 0); [lia|]. by rewrite Hrow.
Qed.

Lemma put_transform_box rs i t row :
  at_ rs i = Some row -> box <$> put rs i (setRowTransform t row) = box <$> rs.
Proof.
  intros Hrow. unfold put. rewrite list_fmap_insert. apply list_insert_id.
  rewrite list_lookup_fmap. unfold at_ in Hrow.
  destruct (Z.ltb_spec i 0); [done|]. by rewrite Hrow.
Qed.

Lemma eachRow_length f l l' : eachRow f l = Returns l' -> length l' = length l.
Proof. intros Hl. symmetry. eapply Forall2_length, eachRow_Forall2, Hl. Qed.

Lemma box_length (l l' : list DataGridRow) :
  box <$> l = box <$> l' -> length l = length l'.
Proof. intros Hb. by rewrite <- (length_fmap box l), Hb, length_fmap. Qed.

(** The pass on a window that has rows: the first loop decides the heights,
    the rest only moves rows. *)
Lemma adjustRowHeights_spec v rs1 :
  rows (viewport v) <> [] ->
  eachRow (adjustRow (rowCursor v) (defaultRowHeight v) (scrollTop (viewport v)))
    (rows (viewport v)) = Returns rs1 ->
  exists rs,
    adjustRowHeights v = Returns (setViewport (setRows rs (viewport v)) v)
    /\ box <$> rs = box <$> rs1.
Proof.
  intros Hne Heach. unfold adjustRowHeights.
  pose proof (eachRow_length _ _ _ Heach) as Hlen1.
  rewrite at_0. destruct (rows (viewport v)) as [|r0 l] eqn:Hrows; [done|].
  cbn [head deref mbind Outcome_bind]. rewrite Nat2Z.id.
  pose proof (heightLoop_eachRow (rowCursor v) (defaultRowHeight v)
                (scrollTop (viewport v)) [] (r0 :: l)) as Hh.
  change (Z.of_nat (length [])) with 0 in Hh. cbn [app] in Hh.
  rewrite Hh, Heach. cbn [mbind Outcome_bind mret Outcome_ret app].
  destruct (offsetLoop_box (Z.to_nat (Z.of_nat (length (r0 :: l)) - 1 - 1)) 1
              (getDefaultTopOffset r0) rs1) as (rs2 & -> & Hbox2);
    [lia|rewrite Hlen1; cbn [length]; lia|].
  cbn [mbind Outcome_bind].
  pose proof (box_length _ _ Hbox2) as Hlen2.
  destruct (at_is_Some rs2 (Z.of_nat (length (r0 :: l)) - 1)) as [lastRow Hlast];
    [rewrite Hlen2, Hlen1; cbn [length]; lia|].
  rewrite Hlast. cbn [deref mbind Outcome_bind].
  eexists; split; [reflexivity|].
  destruct (at_ rs2 (Z.of_nat (length (r0 :: l)) - 2)) as [pre|]; [|done].
  destruct (index pre =? index lastRow - 1); [|done].
  by rewrite put_transform_box.
Qed.

Lemma adjustRowHeights_empty v :
  rows (viewport v) = [] -> adjustRowHeights v = Throws TypeError.
Proof. intros Hrows. unfold adjustRowHeights. by rewrite Hrows. Qed.

Lemma adjustRowHeights_throws v e :
  rows (viewport v) <> [] ->
  eachRow (adjustRow (rowCursor v) (defaultRowHeight v) (scrollTop (viewport v)))
    (rows (viewport v)) = Throws e ->
  adjustRowHeights v = Throws e.
Proof.
  intros Hne Heach. unfold adjustRowHeights.
  rewrite at_0. destruct (rows (viewport v)) as [|r0 l] eqn:Hrows; [done|].
  cbn [head deref mbind Outcome_bind]. rewrite Nat2Z.id.
  pose proof (heightLoop_eachRow (rowCursor v) (defaultRowHeight v)
                (scrollTop (viewport v)) [] (r0 :: l)) as Hh.
  change (Z.of_nat (length [])) with 0 in Hh. cbn [app] in Hh.
  by rewrite Hh, Heach.
Qed.

Lemma adjustRowHeights_inv v v' :
  adjustRowHeights v = Returns v' ->
  rows (viewport v) <> [] /\
  exists rs1,
    eachRow (adjustRow (rowCursor v) (defaultRowHeight v) (scrollTop (viewport v)))
      (rows (viewport v)) = Returns rs1
    /\ box <$> rows (viewport v') = box <$> rs1
    /\ v' = setViewport (setRows (rows (viewport v')) (viewport v)) v.
Proof.
  intros Hv.
  destruct (rows (viewport v)) as [|r0 l] eqn:Hrows.
  { by rewrite adjustRowHeights_empty in Hv. }
  split; [done|]. rewrite <- Hrows.
  destruct (eachRow (adjustRow (rowCursor v) (defaultRowHeight v)
                       (scrollTop (viewport v))) (rows (viewport v)))
    as [rs1|e] eqn:Heach.
  - destruct (adjustRowHeights_spec v rs1) as (rs & Hrs & Hbox);
      [by rewrite Hrows|done|].
    rewrite Hrs in Hv. injection Hv as <-. exists rs1. by cbn.
  - rewrite (adjustRowHeights_throws v e) in Hv; [done|by rewrite Hrows|done].
Qed.

(** Nothing but the row objects changes. *)
Lemma adjustRowHeights_frame v v' :
  adjustRowHeights v = Returns v' ->
  defaultRowHeight v' = defaultRowHeight v /\ rowCursor v' = rowCursor v
  /\ buffer v' = buffer v
  /\ rowCount (viewport v') = rowCount (viewport v)
  /\ offsetHeight (viewport v') = offsetHeight (viewport v)
  /\ scrollTop (viewport v') = scrollTop (viewport v)
  /\ destroyed (viewport v') = destroyed (viewport v)
  /\ nextHandle (viewport v') = nextHandle (viewport v).
Proof.
  intros Hv. apply adjustRowHeights_inv in Hv as (_ & rs1 & _ & _ & ->).
  by cbn.
Qed.

(** Row by row: the object after the pass is the one [adjustRow] returns, up
    to its transform. *)
Lemma adjustRowHeights_rows v v' :
  adjustRowHeights v = Returns v' ->
  Forall2 (fun r r' =>
             exists r1,
               adjustRow (rowCursor v) (defaultRowHeight v)
                 (scrollTop (viewport v)) r = Returns r1
               /\ box r' = box r1)
    (rows (viewport v)) (rows (viewport v')).
Proof.
  intros Hv. apply adjustRowHeights_inv in Hv as (_ & rs1 & Heach & Hbox & _).
  apply eachRow_Forall2 in Heach.
  revert Hbox. generalize (rows (viewport v')). clear -Heach.
  induction Heach as [|r r1 l l1 Hr _ IH]; intros [|r' l'] Hbox;
    cbn in Hbox; try discriminate.
  - constructor.
  - assert (Hb : box r' = box r1)
      by (apply (f_equal head) in Hbox; cbn in Hbox; congruence).
    assert (Hbs : box <$> l' = box <$> l1)
      by (apply (f_equal tail) in Hbox; exact Hbox).
    constructor; [by exists r1|]. by apply IH.
Qed.

Lemma adjustRowHeights_index_handle v v' :
  adjustRowHeights v = Returns v' ->
  index <$> rows (viewport v') = index <$> rows (viewport v)
  /\ handle <$> rows (viewport v') = handle <$> rows (viewport v).
Proof.
  intros Hv. apply adjustRowHeights_rows in Hv.
  induction Hv as [|r r' l l' (r1 & Hr & Hb) _ [IH1 IH2]]; [done|].
  apply adjustRow_inv in Hr as (Hi & Hh & _).
  unfold box in Hb. injection Hb as Hbi Hbh _ _.
  cbn. rewrite IH1, IH2. split; f_equal; congruence.
Qed.

(** The pass returns on a window that has rows, each with a cell. *)
Lemma adjustRowHeights_returns v :
  rows (viewport v) <> [] ->
  Forall (fun r => cells r <> []) (rows (viewport v)) ->
  exists v', adjustRowHeights v = Returns v'.
Proof.
  intros Hne Hcells.
  destruct (eachRow_returns
              (adjustRow (rowCursor v) (defaultRowHeight v) (scrollTop (viewport v)))
              (rows (viewport v))) as [rs1 Heach].
  { eapply Forall_impl; [exact Hcells|]. intros r Hr. by apply adjustRow_returns. }
  destruct (adjustRowHeights_spec v rs1 Hne Heach) as (rs & Hrs & _).
  by eexists.
Qed.

(** ** Invariants *)

Lemma seqZ_to_nat m n : seqZ m (Z.of_nat (Z.to_nat n)) = seqZ m n.
Proof.
  destruct (Z.le_gt_cases 0 n).
  - by rewrite Z2Nat.id.
  - rewrite !seqZ_nil; [done|lia|lia].
Qed.

Lemma fmap_removelast {A B : Type} (f : A -> B) (l : list A) :
  f <$> removelast l = removelast (f <$> l).
Proof.
  destruct (last l) as [a|] eqn:Hl.
  - apply last_Some in Hl as [l' ->].
    rewrite fmap_app. change (f <$> [a]) with [f a]. by rewrite !removelast_snoc.
  - apply last_None in Hl as ->. done.
Qed.

Lemma renderRows_frame c v v' :
  renderRows c v = Returns v' ->
  sameGrid v v' /\ rowCursor v' = rowCursor v
  /\ scrollTop (viewport v') = scrollTop (viewport v).
Proof.
  rewrite renderRows_spec. intros [= <-]. by cbn.
Qed.

(** The window that [renderRows] builds, from an empty window or from one
    whose last row is the last row of the table. *)
Lemma renderRows_window c v v' :
  (forall a, last (rows (viewport v)) = Some a ->
             index a = rowCount (viewport v) - 1) ->
  renderRows c v = Returns v' ->
  windowAt c v'.
Proof.
  intros Hlast. rewrite renderRows_spec. intros [= <-].
  unfold windowAt, windowIndexes, indexRun. cbn.
  rewrite fmap_app, freshRows_index, seqZ_to_nat. cbn.
  assert (index (default (firstLast (viewport v)) (last (rows (viewport v))))
          = rowCount (viewport v) - 1) as ->; [|done].
  destruct (last (rows (viewport v))) as [a|]; cbn; [by apply Hlast|done].
Qed.

Lemma windowAt_last c v a :
  windowAt c v -> last (rows (viewport v)) = Some a ->
  index a = rowCount (viewport v) - 1.
Proof.
  unfold windowAt, windowIndexes. intros Hw Ha.
  apply (f_equal last) in Hw. rewrite fmap_last, Ha, last_snoc in Hw.
  cbn in Hw. congruence.
Qed.

Lemma renderRows_first c v v' :
  rows (viewport v) = [] ->
  renderRows c v = Returns v' ->
  sameGrid v v' /\ windowAt c v' /\ handlesInv v v'.
Proof.
  intros Hrows Hr. split; [by eapply renderRows_frame|].
  split.
  { eapply renderRows_window; [|done]. rewrite Hrows. by intros a. }
  revert Hr. rewrite renderRows_spec. intros [= <-].
  unfold handlesInv. rewrite Hrows. cbn. rewrite app_nil_r.
  split; [lia|]. split; [|exists []; by rewrite app_nil_r].
  eexists. rewrite fmap_app, freshRows_handle. cbn. split; [done|].
  apply Forall_forall. intros h Hh. apply elem_of_seq in Hh. lia.
Qed.

Lemma renderRows_again c v0 v v' :
  Inv v0 v ->
  renderRows c v = Returns v' ->
  sameGrid v0 v' /\ windowAt c v' /\ handlesInv v0 v'.
Proof.
  intros ((Hd & Hb & HN & Hoh) & Hw & Hlt & (hs & Hhs & Hgt) & (ds & Hds & Hdgt)) Hr.
  split.
  { apply renderRows_frame in Hr as ((? & ? & ? & ?) & _).
    repeat split; congruence. }
  split.
  { eapply renderRows_window; [|done]. intros a. by apply windowAt_last with (rowCursor v). }
  revert Hr. rewrite renderRows_spec. intros [= <-].
  assert (exists a, last (rows (viewport v)) = Some a /\ handle a = nextHandle (viewport v0))
    as (a & Ha & Hha).
  { apply (f_equal last) in Hhs. rewrite fmap_last, last_snoc in Hhs.
    destruct (last (rows (viewport v))) as [a|]; [|done].
    exists a. split; [done|]. cbn in Hhs. congruence. }
  assert (handle <$> removelast (rows (viewport v)) = hs) as Hrm.
  { by rewrite fmap_removelast, Hhs, removelast_snoc. }
  assert (rows (viewport v) <> []) as Hne by (by apply last_is_Some; eexists).
  unfold handlesInv. cbn. rewrite Ha, Hrm. cbn.
  destruct (rows (viewport v)) as [|r l]; [done|].
  split; [lia|]. split.
  - eexists. rewrite fmap_app, freshRows_handle. cbn. rewrite Hha.
    split; [done|]. apply Forall_forall. intros h Hh.
    apply elem_of_seq in Hh. lia.
  - exists (ds ++ hs). rewrite Hds, app_assoc. split; [done|].
    by apply Forall_app.
Qed.

Lemma adjustRowHeights_Inv v0 v v' :
  adjustRowHeights v = Returns v' ->
  sameGrid v0 v /\ windowAt (rowCursor v) v /\ handlesInv v0 v ->
  Inv v0 v'.
Proof.
  intros Hv (Hg & Hw & Hh).
  pose proof (adjustRowHeights_frame _ _ Hv)
    as (Hd & Hc & Hb & HN & Hoh & Hst & Hds & Hnh).
  pose proof (adjustRowHeights_index_handle _ _ Hv) as (Hi & Hhd).
  destruct Hg as (? & ? & ? & ?).
  split; [repeat split; congruence|]. split.
  - unfold windowAt, windowIndexes, rangeFrom, rangeTo, rowsPerPage in *.
    by rewrite Hi, Hc, Hb, HN, Hoh, Hd.
  - unfold handlesInv in *. by rewrite Hnh, Hhd, Hds.
Qed.

Lemma Inv_scrollTop v0 v s :
  Inv v0 v -> Inv v0 (setViewport (setScrollTop s (viewport v)) v).
Proof. done. Qed.

Lemma Inv_setRowCursor c v0 v :
  sameGrid v0 v /\ windowAt c v /\ handlesInv v0 v ->
  sameGrid v0 (setRowCursor c v) /\ windowAt (rowCursor (setRowCursor c v)) (setRowCursor c v)
  /\ handlesInv v0 (setRowCursor c v).
Proof. done. Qed.

Lemma initialRender_Inv v0 v :
  rows (viewport v0) = [] -> initialRender v0 = Returns v -> Inv v0 v.
Proof.
  intros Hrows. unfold initialRender.
  destruct (renderRows (rowCursor v0) v0) as [v1|] eqn:Hr; [|done]. cbn.
  intros Hv. eapply adjustRowHeights_Inv; [done|].
  pose proof (renderRows_frame _ _ _ Hr) as (_ & -> & _).
  by apply renderRows_first.
Qed.

Lemma scroll_Inv v0 v v' :
  Inv v0 v -> scroll v = Returns v' -> Inv v0 v'.
Proof.
  intros HI. unfold scroll.
  set (c := Qfloor (scrollTop (viewport v) / inject_Z (defaultRowHeight v))).
  destruct (decide (rowCursor v = c)) as [Hc|Hc]; cbn.
  - destruct (adjustRowHeights (setRowCursor c v)) as [v2|] eqn:Hv2; [|done]. cbn.
    intros Hv'.
    assert (Inv v0 v2) as HI2.
    { eapply adjustRowHeights_Inv; [done|]. rewrite <- Hc. by destruct v. }
    destruct (Qlt_le_dec _ _); injection Hv' as <-; by apply Inv_scrollTop.
  - destruct (renderRows c v) as [v1|] eqn:Hv1; [|done]. cbn.
    destruct (adjustRowHeights (setRowCursor c v1)) as [v2|] eqn:Hv2; [|done]. cbn.
    intros Hv'.
    assert (Inv v0 v2) as HI2.
    { eapply adjustRowHeights_Inv; [done|]. apply Inv_setRowCursor.
      by eapply renderRows_again. }
    destruct (Qlt_le_dec _ _); injection Hv' as <-; by apply Inv_scrollTop.
Qed.

Lemma reachable_positive v0 v : reachable v0 v -> 0 < defaultRowHeight v0.
Proof. by induction 1. Qed.

Lemma reachable_Inv v0 v : reachable v0 v -> Inv v0 v.
Proof.
  induction 1 as [v _ Hrows Hv|v s v' _ IH Hv'].
  - by apply initialRender_Inv.
  - eapply scroll_Inv; [|done]. by apply Inv_scrollTop.
Qed.

(** ** The entry points return *)

Lemma renderRows_cells c v v' :
  hasColumns ->
  Forall hasCells (rows (viewport v)) ->
  renderRows c v = Returns v' ->
  Forall hasCells (rows (viewport v')).
Proof.
  intros Hcols Hcells. rewrite renderRows_spec. intros [= <-]. cbn.
  apply Forall_app. split.
  - apply Forall_forall. intros r Hr. unfold hasCells.
    rewrite (freshRows_cells _ _ _ _ Hr). apply Hcols.
  - apply Forall_singleton.
    destruct (last (rows (viewport v))) as [a|] eqn:Ha; cbn.
    + apply last_Some_elem_of in Ha. by eapply Forall_forall in Hcells.
    + apply Hcols.
Qed.

Lemma adjustRowHeights_cells v v' :
  adjustRowHeights v = Returns v' ->
  Forall hasCells (rows (viewport v')).
Proof.
  intros Hv. apply adjustRowHeights_rows in Hv.
  induction Hv as [|r r' l l' (r1 & Hr & Hb) _ IH]; constructor; [|done].
  apply adjustRow_inv in Hr as (_ & _ & _ & Hlen & cell0 & Hc0 & _).
  unfold box in Hb. injection Hb as _ _ Hcs _. unfold hasCells. rewrite Hcs.
  destruct (cells r); [done|]. by destruct (cells r1).
Qed.

Lemma Inv_rows_nonempty v0 v : Inv v0 v -> rows (viewport v) <> [].
Proof.
  intros (_ & _ & _ & (hs & Hhs & _) & _) Hrows. rewrite Hrows in Hhs.
  by destruct hs.
Qed.

Lemma initialRender_returns v0 :
  hasColumns -> rows (viewport v0) = [] ->
  exists v, initialRender v0 = Returns v.
Proof.
  intros Hcols Hrows. unfold initialRender.
  destruct (renderRows_returns (rowCursor v0) v0) as [v1 Hv1]. rewrite Hv1. cbn.
  apply adjustRowHeights_returns.
  - pose proof (renderRows_first _ _ _ Hrows Hv1) as (_ & _ & _ & (hs & Hhs & _) & _).
    intros Hr. rewrite Hr in Hhs. by destruct hs.
  - eapply renderRows_cells; [done| |done]. rewrite Hrows. constructor.
Qed.

Lemma reachable_cells v0 v :
  reachable v0 v -> Forall hasCells (rows (viewport v)).
Proof.
  destruct 1 as [v _ Hrows Hv|v s v' _ Hv'].
  - unfold initialRender in Hv.
    destruct (renderRows (rowCursor v0) v0) as [v1|]; [|done].
    by eapply adjustRowHeights_cells.
  - unfold scroll in Hv'.
    destruct (if decide _ then _ else _) as [v1|]; [|done]. cbn in Hv'.
    destruct (adjustRowHeights _) as [v2|] eqn:Hv2; [|done]. cbn in Hv'.
    apply adjustRowHeights_cells in Hv2.
    destruct (Qlt_le_dec _ _); by injection Hv' as <-.
Qed.

Lemma scroll_returns v0 v s :
  hasColumns -> reachable v0 v ->
  exists v', scroll (scrollTo s v) = Returns v'.
Proof.
  intros Hcols Hreach.
  pose proof (reachable_cells _ _ Hreach) as Hcells.
  pose proof (reachable_Inv _ _ Hreach) as HI.
  apply (Inv_scrollTop _ _ s) in HI. fold (scrollTo s v) in HI.
  assert (Forall hasCells (rows (viewport (scrollTo s v)))) as Hcells' by done.
  clear Hcells Hreach. revert HI Hcells'. generalize (scrollTo s v). clear v.
  intros v HI Hcells. unfold scroll.
  set (c := Qfloor (scrollTop (viewport v) / inject_Z (defaultRowHeight v))).
  assert (exists v1, (if decide (rowCursor v = c) then Returns v else renderRows c v)
                     = Returns v1
                     /\ rows (viewport v1) <> []
                     /\ Forall hasCells (rows (viewport v1))) as (v1 & -> & Hne & Hc1).
  { destruct (decide (rowCursor v = c)).
    - exists v. split; [done|]. split; [by eapply Inv_rows_nonempty|done].
    - destruct (renderRows_returns c v) as [v1 Hv1]. exists v1.
      split; [done|]. split; [|by eapply renderRows_cells].
      pose proof (renderRows_again _ _ _ _ HI Hv1) as (_ & _ & _ & (hs & Hhs & _) & _).
      intros Hr. rewrite Hr in Hhs. by destruct hs. }
  cbn.
  destruct (adjustRowHeights_returns (setRowCursor c v1)) as [v2 ->]; [done|done|].
  cbn. destruct (Qlt_le_dec _ _); by eexists.
Qed.

(** A scroll event returns whenever the rows have cells and the window has
    rows or the cursor moves. *)
Lemma scroll_completes v :
  hasColumns ->
  Forall hasCells (rows (viewport v)) ->
  rows (viewport v) <> []
  \/ rowCursor v <> Qfloor (scrollTop (viewport v) / inject_Z (defaultRowHeight v)) ->
  exists v', scroll v = Returns v'.
Proof.
  intros Hcols Hcells Hor. unfold scroll.
  set (c := Qfloor (scrollTop (viewport v) / inject_Z (defaultRowHeight v))) in *.
  assert (exists v1, (if decide (rowCursor v = c) then Returns v else renderRows c v)
                     = Returns v1
                     /\ rows (viewport v1) <> []
                     /\ Forall hasCells (rows (viewport v1))) as (v1 & -> & Hne & Hc1).
  { destruct (decide (rowCursor v = c)) as [Hc|Hc].
    - exists v. destruct Hor; done.
    - eexists. split; [apply renderRows_spec|]. cbn [viewport rows setViewport].
      split; [by destruct (freshRows _ _ _)|].
      pose proof (renderRows_cells c v _ Hcols Hcells (renderRows_spec c v)) as Hc1.
      exact Hc1. }
  cbn.
  destruct (adjustRowHeights_returns (setRowCursor c v1)) as [v2 ->]; [done|done|].
  cbn. destruct (Qlt_le_dec _ _); by eexists.
Qed.

(** ** The rendered range *)


(** ** Contiguity *)

(** C2, as the code has it: after [initialRender()] and after every scroll
    event, the indexes of the window without its last row are the run
    [from..to] of the stored cursor, each one more than the one before (the
    run is empty when [to < from]).  The cursor lies in the run,
    [from <= cursor <= to], when the buffer and the rows per page are not
    negative and [0 <= cursor <= N - 2]; a cursor on the last row or beyond
    is above [to]. *)
Theorem window_contiguous v0 v :
  reachable v0 v ->
  let N := rowCount (viewport v) in
  let p := rowsPerPage v in
  let b := buffer v in
  let c := rowCursor v in
  let from := Z.min (Z.max (c - b) 0) (N - p) in
  let to := Z.min (c + p + b) (N - 2) in
  runIndexes v = indexRun from to
  /\ (forall k i j, runIndexes v !! k = Some i ->
                    runIndexes v !! S k = Some j -> j = i + 1)
  /\ (0 <= b -> 0 <= p -> 0 <= c <= N - 2 -> from <= c <= to)
  /\ (N - 2 < c -> to < c).
Proof.
  intros Hreach N p b c from to.
  pose proof (reachable_Inv _ _ Hreach) as (_ & Hw & _).
  assert (runIndexes v = indexRun from to) as Hrun.
  { unfold runIndexes. rewrite fmap_removelast.
    unfold windowAt, windowIndexes in Hw. rewrite Hw, removelast_snoc.
    unfold rangeFrom, rangeTo. subst from to N p b c.
    by replace (rowCount (viewport v) - 1 - 1) with (rowCount (viewport v) - 2) by lia. }
  split; [done|]. split; [|split].
  - rewrite Hrun. unfold indexRun. intros k i j Hi Hj.
    apply lookup_seqZ in Hi as [-> _]. apply lookup_seqZ in Hj as [-> _]. lia.
  - lia.
  - lia.
Qed.

(** ** The kept last row *)

Lemma Inv_anchor v0 v :
  Inv v0 v ->
  exists a,
    last (rows (viewport v)) = Some a
    /\ index a = rowCount (viewport v0) - 1
    /\ handle a = nextHandle (viewport v0).
Proof.
  intros ((_ & _ & HN & _) & Hw & _ & (hs & Hhs & _) & _).
  pose proof (f_equal last Hhs) as Hl. rewrite fmap_last, last_snoc in Hl.
  destruct (last (rows (viewport v))) as [a|] eqn:Ha; [|done].
  exists a. split; [done|]. split.
  - rewrite <- HN. by eapply windowAt_last.
  - cbn in Hl. congruence.
Qed.

(** C3: after [initialRender()] and after every scroll event, at any offset,
    the last row of the window is the row object of index
    [totalRowCount - 1] that [initialRender()] constructed; it was not
    destroyed since, and a [renderRows] call keeps this very object last and
    destroys only the others.  In a grid that has a column the next scroll
    event, at any offset, returns with that object last again. *)
Theorem anchor_persistent v0 v :
  reachable v0 v ->
  exists a,
    last (rows (viewport v)) = Some a
    /\ rowCount (viewport v) = rowCount (viewport v0)
    /\ index a = rowCount (viewport v0) - 1
    /\ handle a = nextHandle (viewport v0)
    /\ (exists ds, destroyed (viewport v) = destroyed (viewport v0) ++ ds
                   /\ handle a ∉ ds)
    /\ (forall c, exists v',
          renderRows c v = Returns v'
          /\ last (rows (viewport v')) = Some a
          /\ destroyed (viewport v')
             = destroyed (viewport v) ++ (handle <$> removelast (rows (viewport v)))
          /\ handle a ∉ handle <$> removelast (rows (viewport v)))
    /\ (hasColumns -> forall s, exists v' a',
          scroll (scrollTo s v) = Returns v'
          /\ last (rows (viewport v')) = Some a'
          /\ index a' = index a /\ handle a' = handle a).
Proof.
  intros Hreach.
  pose proof (reachable_Inv _ _ Hreach) as HI.
  destruct (Inv_anchor _ _ HI) as (a & Ha & Hia & Hha).
  destruct HI as ((_ & _ & HN & _) & Hw & _ & (hs & Hhs & Hgt) & (ds & Hds & Hdgt)).
  assert (forall l, Forall (fun h => (nextHandle (viewport v0) < h)%nat) l ->
                    handle a ∉ l) as Hnotin.
  { intros l Hl Hin. eapply Forall_forall in Hl; [|done]. lia. }
  exists a. split; [done|]. split; [done|]. split; [done|].
  split; [done|]. split; [exists ds; split; [done|by apply Hnotin]|].
  split.
  - intros c. eexists. split; [apply renderRows_spec|].
    cbn [viewport rows destroyed setViewport]. rewrite Ha. cbn [default].
    rewrite last_snoc. split; [done|]. split; [done|].
    rewrite fmap_removelast, Hhs, removelast_snoc. by apply Hnotin.
  - intros Hcols s.
    destruct (scroll_returns v0 v s Hcols Hreach) as [v' Hv'].
    pose proof (reach_scroll v0 v s v' Hreach Hv') as Hreach'.
    destruct (Inv_anchor _ _ (reachable_Inv _ _ Hreach')) as (a' & Ha' & Hia' & Hha').
    exists v', a'. repeat split; congruence.
Qed.

(** ** The size of the window *)

Lemma rowsPerPage_nonneg v :
  0 < defaultRowHeight v -> 0 <= offsetHeight (viewport v) -> 0 <= rowsPerPage v.
Proof.
  intros Hd Hoh. unfold rowsPerPage. rewrite Zle_Qle.
  eapply Qle_trans; [|apply Qle_ceiling].
  apply Qmult_le_0_compat.
  - change 0%Q with (inject_Z 0). by rewrite <- Zle_Qle.
  - apply Qinv_le_0_compat. change 0%Q with (inject_Z 0). rewrite <- Zle_Qle. lia.
Qed.

(** C4, as the code has it: after [initialRender()] and after every scroll
    event the window holds at most [p + 2 * b + 2] row objects, whatever the
    row count of the table: the run [from..to] with both ends has at most
    [p + 2 * b + 1] rows, and the last row of the table comes on top. *)
Theorem window_bounded v0 v :
  reachable v0 v ->
  0 <= buffer v ->
  0 <= offsetHeight (viewport v) ->
  Z.of_nat (length (rows (viewport v))) <= rowsPerPage v + 2 * buffer v + 2.
Proof.
  intros Hreach Hb Hoh.
  pose proof (reachable_Inv _ _ Hreach) as ((Hd & _) & Hw & _).
  pose proof (reachable_positive _ _ Hreach) as Hpos. rewrite <- Hd in Hpos.
  pose proof (rowsPerPage_nonneg v Hpos Hoh) as Hp.
  unfold windowAt, windowIndexes in Hw. apply (f_equal length) in Hw.
  rewrite length_fmap, length_app in Hw. unfold indexRun in Hw.
  rewrite length_seqZ in Hw. cbn [length] in Hw. rewrite Hw.
  unfold rangeFrom, rangeTo. lia.
Qed.

(** ** The first window *)

Lemma initialRender_window v0 :
  hasColumns -> rows (viewport v0) = [] ->
  exists v,
    initialRender v0 = Returns v
    /\ windowIndexes v =
       indexRun (rangeFrom v0 (rowCursor v0))
         (rangeTo v0 (rowCursor v0) (rowCount (viewport v0) - 1))
       ++ [rowCount (viewport v0) - 1].
Proof.
  intros Hcols Hrows.
  destruct (initialRender_returns v0 Hcols Hrows) as [v Hv].
  exists v. split; [done|].
  pose proof (initialRender_Inv v0 v Hrows Hv) as ((Hd & Hb & HN & Hoh) & Hw & _).
  unfold initialRender in Hv.
  destruct (renderRows (rowCursor v0) v0) as [v1|] eqn:Hv1; [|done].
  cbn in Hv. pose proof (adjustRowHeights_frame _ _ Hv) as (_ & Hc & _).
  pose proof (renderRows_frame _ _ _ Hv1) as (_ & Hc1 & _).
  unfold windowAt in Hw. rewrite Hw.
  unfold rangeFrom, rangeTo, rowsPerPage. by rewrite Hc, Hc1, Hd, Hb, HN, Hoh.
Qed.

(** C5, as the code has it: with 1000 rows of default height 20, a visible
    height of 200 and a buffer of 2, [initialRender()] on an empty window
    leaves the rows of the indexes [0..12] and the row 999: the run ends at
    [cursor + rowsPerPage + buffer = 12], that end included. *)
Theorem initialRender_sample_window :
  hasColumns ->
  exists v,
    initialRender sample0 = Returns v
    /\ rowsPerPage sample0 = 10
    /\ windowIndexes v = indexRun 0 12 ++ [999]
    /\ forall i, i ∈ windowIndexes v <-> 0 <= i <= 12 \/ i = 999.
Proof.
  intros Hcols.
  pose proof (initialRender_window sample0 Hcols eq_refl) as (v & Hv & Hwin).
  assert (rangeFrom sample0 (rowCursor sample0) = 0) as Hfrom
    by (vm_compute; reflexivity).
  assert (rangeTo sample0 (rowCursor sample0) (rowCount (viewport sample0) - 1) = 12)
    as Hto by (vm_compute; reflexivity).
  assert (rowCount (viewport sample0) - 1 = 999) as HN by (vm_compute; reflexivity).
  rewrite Hfrom, Hto, HN in Hwin.
  exists v. split; [exact Hv|]. split; [vm_compute; reflexivity|].
  split; [exact Hwin|].
  intros i. rewrite Hwin. unfold indexRun.
  rewrite elem_of_app, elem_of_seqZ, list_elem_of_singleton. lia.
Qed.

(** ** The heights *)

(** C6, as the code has it: [adjustRowHeights] on a window whose rows have
    cells, [h] being the measured height of the first cell of a row, [d] the
    default row height, [s] the scroll offset and [c] the cursor.  A row of an
    index below [c] gets the height [d]; a row of an index above [c] gets
    [h]; the row of index [c], when [h > d], gets the floor of
    [h - (h - d) * (s / d - c)] computed in binary64, every operation rounded,
    and each of its cells is translated by that height minus [h].  The
    height is the floor of the exact value of the formula when no operation
    rounds.  The interpolated height is stated for the cursor of the scroll
    offset and for magnitudes below [2^53], where [round64] is the rounding
    of binary64. *)
Theorem adjustRowHeights_heights v k r cell0 :
  0 < defaultRowHeight v ->
  Forall hasCells (rows (viewport v)) ->
  rows (viewport v) !! k = Some r ->
  head (cells r) = Some cell0 ->
  let c := rowCursor v in
  let d := defaultRowHeight v in
  let s := scrollTop (viewport v) in
  let h := cellOffsetHeight cell0 in
  let applied :=
    Qfloor (sub64 (inject_Z h)
              (mul64 (sub64 (inject_Z h) (inject_Z d))
                 (sub64 (div64 s (inject_Z d)) (inject_Z c)))) in
  exists v' r',
    adjustRowHeights v = Returns v'
    /\ rows (viewport v') !! k = Some r'
    /\ index r' = index r /\ handle r' = handle r
    /\ (index r < c -> styleHeight r' = Some d /\ rowOffsetHeight r' = d)
    /\ (index r > c -> styleHeight r' = Some h /\ rowOffsetHeight r' = h)
    /\ (index r = c -> h > d ->
        h < 2 ^ 53 -> 0 <= c < 2 ^ 52 -> c = Qfloor (s / inject_Z d) ->
        styleHeight r' = Some applied /\ rowOffsetHeight r' = applied
        /\ Forall (fun cell => cellTransform cell = Some (applied - h)) (cells r')
        /\ d <= applied <= h
        /\ (exact64 h d s c ->
            applied
            = Qfloor (inject_Z h
                      - inject_Z (h - d) * (s / inject_Z d - inject_Z c))%Q)).
Proof.
  intros Hd Hcells Hk Hcell0 c d s h applied.
  destruct (adjustRowHeights_returns v) as [v' Hv']; [|done|].
  { intros Hnil. by rewrite Hnil in Hk. }
  pose proof (adjustRowHeights_rows _ _ Hv') as Hrows.
  destruct (Forall2_lookup_l _ _ _ _ _ Hrows Hk) as (r' & Hk' & r1 & Hr1 & Hbox).
  apply adjustRow_inv in Hr1
    as (Hi & Hh & _ & _ & cell0' & Hcell0' & Hlt & Hgt & _ & Heq).
  rewrite Hcell0 in Hcell0'. injection Hcell0' as <-.
  unfold box in Hbox. injection Hbox as Hbi Hbh Hbc Hbs.
  exists v', r'. split; [done|]. split; [done|].
  split; [congruence|]. split; [congruence|].
  unfold rowOffsetHeight. rewrite Hbs, Hbc.
  split; [|split].
  - intros Hlt'. by rewrite (Hlt Hlt').
  - intros Hgt'. by rewrite (Hgt Hgt').
  - intros Heq' Hhd _ _ Hc. destruct (Heq Heq' Hhd) as [-> Hall].
    split; [done|]. split; [done|]. split; [done|]. split.
    + subst applied. rewrite Hc. apply interpolated_between; [done|]. subst h d. lia.
    + apply interpolated_exact.
Qed.

(** ** The scroll offset *)

(** C7: a [scroll()] call leaves the scroll offset at least at the offset it
    read first.  When the table body reports a lower offset after the heights
    were adjusted, the first offset is written back; when it reports that
    offset or a higher one, nothing is written over it. *)
Theorem scroll_offset_floor v v' :
  scroll v = Returns v' ->
  let before := scrollTop (viewport v) in
  let reported := settle (rows (viewport v')) before in
  (before <= scrollTop (viewport v'))%Q
  /\ ((reported < before)%Q -> scrollTop (viewport v') = before)
  /\ ((before <= reported)%Q -> scrollTop (viewport v') = reported).
Proof.
  unfold scroll.
  set (c := Qfloor (scrollTop (viewport v) / inject_Z (defaultRowHeight v))).
  destruct (if decide (rowCursor v = c) then Returns v else renderRows c v)
    as [v1|] eqn:Hv1; [|done]. cbn.
  destruct (adjustRowHeights (setRowCursor c v1)) as [v2|] eqn:Hv2; [|done]. cbn.
  assert (scrollTop (viewport v1) = scrollTop (viewport v)) as Hs1.
  { destruct (decide (rowCursor v = c)); [by injection Hv1 as <-|].
    by apply renderRows_frame in Hv1 as (_ & _ & ?). }
  pose proof (adjustRowHeights_frame _ _ Hv2) as (_ & _ & _ & _ & _ & Hs2 & _).
  cbn in Hs2. rewrite Hs2, Hs1.
  destruct (Qlt_le_dec _ _) as [Hlt|Hle]; intros [= <-]; cbn.
  - split; [apply Qle_refl|]. split; [done|].
    intros Hle. by apply Qlt_not_le in Hlt.
  - split; [done|]. split; [|done].
    intros Hlt. by apply Qlt_not_le in Hlt.
Qed.

(** ** The scroll transition *)

Lemma adjustRowHeights_above v w :
  adjustRowHeights v = Returns w ->
  Forall (fun r => index r < rowCursor v -> styleHeight r = Some (defaultRowHeight v))
    (rows (viewport w)).
Proof.
  intros Hw. apply adjustRowHeights_rows in Hw.
  induction Hw as [|r r' l l' (r1 & Hr1 & Hbox) _ IH]; constructor; [|done].
  apply adjustRow_inv in Hr1 as (Hi & _ & _ & _ & cell0 & _ & Hlt & _).
  unfold box in Hbox. injection Hbox as Hbi _ _ Hbs.
  intros Hlt'. rewrite Hbs. apply Hlt. congruence.
Qed.

(** C8, as the code has it: [scroll()] computes
    [newCursor = floor(scrollTop / defaultRowHeight)].  When it equals the
    stored cursor, [renderRows] is skipped (no row object is constructed or
    destroyed, the window holds the same objects) and [adjustRowHeights]
    still runs.  When it differs, [renderRows(newCursor)] runs, then the
    cursor is set to [newCursor], then [adjustRowHeights] runs: the height
    pass observes the new cursor, and every row of an index below it has the
    default height afterwards. *)
Theorem scroll_transition v v' :
  0 < defaultRowHeight v ->
  scroll v = Returns v' ->
  let newCursor :=
    Qfloor (scrollTop (viewport v) / inject_Z (defaultRowHeight v)) in
  rowCursor v' = newCursor
  /\ (newCursor = rowCursor v ->
      index <$> rows (viewport v') = index <$> rows (viewport v)
      /\ handle <$> rows (viewport v') = handle <$> rows (viewport v)
      /\ destroyed (viewport v') = destroyed (viewport v)
      /\ nextHandle (viewport v') = nextHandle (viewport v)
      /\ exists w, adjustRowHeights v = Returns w
                   /\ rows (viewport v') = rows (viewport w))
  /\ (newCursor <> rowCursor v ->
      exists v1 w,
        renderRows newCursor v = Returns v1
        /\ adjustRowHeights (setRowCursor newCursor v1) = Returns w
        /\ rows (viewport v') = rows (viewport w))
  /\ Forall (fun r => index r < newCursor ->
                      styleHeight r = Some (defaultRowHeight v))
       (rows (viewport v')).
Proof.
  intros Hd. unfold scroll.
  set (c := Qfloor (scrollTop (viewport v) / inject_Z (defaultRowHeight v))).
  cbv zeta.
  destruct (decide (rowCursor v = c)) as [Hc|Hc]; cbn [mbind Outcome_bind].
  - assert (setRowCursor c v = v) as Hset by (rewrite <- Hc; by destruct v).
    rewrite Hset.
    destruct (adjustRowHeights v) as [v2|] eqn:Hv2; [|done]. cbn.
    pose proof (adjustRowHeights_frame _ _ Hv2)
      as (Hd2 & Hc2 & _ & _ & _ & _ & Hds & Hnh).
    pose proof (adjustRowHeights_index_handle _ _ Hv2) as (Hi & Hh).
    pose proof (adjustRowHeights_above _ _ Hv2) as Habove. rewrite Hc in Habove.
    intros Hv'.
    assert (rowCursor v' = rowCursor v2 /\ viewport v' = setScrollTop (scrollTop (viewport v')) (viewport v2))
      as (Hcv & Hvp).
    { destruct (Qlt_le_dec _ _); by injection Hv' as <-. }
    rewrite Hvp. cbn [rows destroyed nextHandle setScrollTop].
    split; [congruence|]. split; [|split; [done|done]].
    intros _. repeat split; try done. by exists v2.
  - destruct (renderRows c v) as [v1|] eqn:Hv1; [|done]. cbn [mbind Outcome_bind].
    destruct (adjustRowHeights (setRowCursor c v1)) as [v2|] eqn:Hv2; [|done]. cbn.
    pose proof (adjustRowHeights_frame _ _ Hv2) as (_ & Hc2 & _).
    pose proof (adjustRowHeights_above _ _ Hv2) as Habove.
    pose proof (renderRows_frame _ _ _ Hv1) as ((Hd1 & _) & _).
    cbn in Hc2, Habove. rewrite Hd1 in Habove.
    intros Hv'.
    assert (rowCursor v' = rowCursor v2 /\ viewport v' = setScrollTop (scrollTop (viewport v')) (viewport v2))
      as (Hcv & Hvp).
    { destruct (Qlt_le_dec _ _); by injection Hv' as <-. }
    rewrite Hvp. cbn [rows destroyed nextHandle setScrollTop].
    split; [congruence|]. split; [by intros ?|]. split; [|done].
    intros _. by exists v1, v2.
Qed.

(** ** Reads of the row array *)

Lemma reflowRows_empty v : rows (viewport v) = [] -> reflowRows v = Returns v.
Proof. intros Hrows. unfold reflowRows. by rewrite Hrows. Qed.

Lemma reads_bind {A B : Type} (m : Traced A) (f : A -> Traced B) :
  reads (m ≫= f)
  = reads m ++ match outcome m with
               | Returns a => reads (f a)
               | Throws _ => []
               end.
Proof.
  destruct m as [t [a|e]]; cbn; [done|]. by rewrite app_nil_r.
Qed.

Lemma outcome_bind {A B : Type} (m : Traced A) (f : A -> Traced B) :
  outcome (m ≫= f) = outcome m ≫= (fun a => outcome (f a)).
Proof. by destruct m as [t [a|e]]. Qed.

(** The recorded pass is the pass. *)
Lemma heightLoopT_outcome n i c d s rs :
  outcome (heightLoopT n i c d s rs) = heightLoop n i c d s rs.
Proof.
  revert i rs. induction n as [|n IH]; intros i rs; [done|].
  cbn [heightLoopT heightLoop]. rewrite !outcome_bind.
  cbn [readRow outcome mbind Outcome_bind].
  destruct (at_ rs i) as [rw|]; [|reflexivity].
  rewrite !outcome_bind. cbn [deref untraced outcome mbind Outcome_bind].
  destruct (adjustRow c d s rw) as [rw'|]; [|reflexivity].
  cbn [mbind Outcome_bind]. apply IH.
Qed.

Lemma offsetLoopT_outcome n i tb rs :
  outcome (offsetLoopT n i tb rs) = offsetLoop n i tb rs.
Proof.
  revert i tb rs. induction n as [|n IH]; intros i tb rs; [done|].
  cbn [offsetLoopT offsetLoop]. rewrite !outcome_bind.
  cbn [readRow outcome mbind Outcome_bind].
  destruct (at_ rs (i - 1)) as [prev|]; [|reflexivity].
  rewrite !outcome_bind. cbn [deref untraced readRow outcome mbind Outcome_bind].
  destruct (at_ rs i) as [rw|]; [|reflexivity].
  rewrite !outcome_bind. cbn [deref untraced outcome mbind Outcome_bind].
  apply IH.
Qed.

Lemma adjustRowHeightsT_outcome v :
  outcome (adjustRowHeightsT v) = adjustRowHeights v.
Proof.
  unfold adjustRowHeightsT, adjustRowHeights. cbv zeta.
  rewrite !outcome_bind. cbn [readRow outcome mbind Outcome_bind].
  destruct (at_ (rows (viewport v)) 0) as [first|]; [|reflexivity].
  rewrite !outcome_bind. cbn [deref untraced outcome mbind Outcome_bind].
  rewrite !outcome_bind, heightLoopT_outcome.
  destruct (heightLoop _ _ _ _ _ _) as [rs1|]; [|reflexivity].
  cbn [mbind Outcome_bind].
  rewrite !outcome_bind, offsetLoopT_outcome.
  destruct (offsetLoop _ _ _ _) as [rs2|]; [|reflexivity].
  cbn [mbind Outcome_bind].
  rewrite !outcome_bind. cbn [readRow outcome mbind Outcome_bind].
  destruct (at_ rs2 (Z.of_nat (length (rows (viewport v))) - 1)) as [lastRow|];
    [|reflexivity].
  rewrite !outcome_bind. cbn [deref untraced readRow outcome mbind Outcome_bind].
  reflexivity.
Qed.

(** The subscripts the loops read. *)
Lemma heightLoopT_reads n i c d s rs :
  Forall (fun j => i <= j < i + Z.of_nat n) (reads (heightLoopT n i c d s rs)).
Proof.
  revert i rs. induction n as [|n IH]; intros i rs; [constructor|].
  cbn [heightLoopT]. rewrite reads_bind. cbn [readRow reads outcome].
  constructor; [lia|]. rewrite reads_bind.
  destruct (at_ rs i) as [rw|]; cbn [deref untraced reads outcome]; [|constructor].
  rewrite reads_bind.
  destruct (adjustRow c d s rw) as [rw'|]; cbn [untraced reads outcome];
    [|constructor].
  eapply Forall_impl; [apply IH|]. intros j Hj. cbn beta in Hj. lia.
Qed.

Lemma offsetLoopT_reads n i tb rs :
  Forall (fun j => i - 1 <= j < i + Z.of_nat n) (reads (offsetLoopT n i tb rs)).
Proof.
  revert i tb rs. induction n as [|n IH]; intros i tb rs; [constructor|].
  cbn [offsetLoopT]. rewrite reads_bind. cbn [readRow reads outcome].
  constructor; [lia|]. rewrite reads_bind.
  destruct (at_ rs (i - 1)) as [prev|]; cbn [deref untraced reads outcome];
    [|constructor].
  rewrite reads_bind. cbn [readRow reads outcome].
  constructor; [lia|]. rewrite reads_bind.
  destruct (at_ rs i) as [rw|]; cbn [deref untraced reads outcome]; [|constructor].
  eapply Forall_impl; [apply IH|]. intros j Hj. cbn beta in Hj. lia.
Qed.

(** The reads of the pass: [rows[0]] first; then, while nothing throws, the
    reads of the two loops, [rows[rowsLn - 1]], and last [rows[rowsLn - 2]],
    whose value is tested before it is dereferenced. *)
Lemma adjustRowHeightsT_reads v :
  let rowsLn := Z.of_nat (length (rows (viewport v))) in
  exists derefd guarded,
    reads (adjustRowHeightsT v) = 0 :: derefd ++ guarded
    /\ Forall (fun j => 0 <= j < rowsLn) derefd
    /\ (guarded = [] \/ guarded = [rowsLn - 2])
    /\ ((exists v', adjustRowHeights v = Returns v') -> guarded = [rowsLn - 2])
    /\ (rows (viewport v) = [] -> derefd = [] /\ guarded = []).
Proof.
  intros rowsLn. unfold adjustRowHeightsT. cbv zeta. fold rowsLn.
  rewrite <- adjustRowHeightsT_outcome. unfold adjustRowHeightsT. cbv zeta.
  fold rowsLn.
  rewrite reads_bind, outcome_bind. cbn [readRow reads outcome mbind Outcome_bind].
  rewrite reads_bind, outcome_bind.
  destruct (at_ (rows (viewport v)) 0) as [first|] eqn:Hfirst;
    cbn [deref untraced reads outcome mbind Outcome_bind app].
  2:{ exists [], []. split; [done|]. split; [constructor|]. split; [by left|].
      split; [by intros [v' Hv']|done]. }
  assert (rows (viewport v) <> []) as Hne.
  { intros Hnil. by rewrite Hnil in Hfirst. }
  assert (1 <= rowsLn) as Hln.
  { subst rowsLn. destruct (rows (viewport v)); [done|]. cbn [length]. lia. }
  rewrite reads_bind, outcome_bind.
  pose proof (heightLoopT_reads (Z.to_nat rowsLn) 0 (rowCursor v)
                (defaultRowHeight v) (scrollTop (viewport v)) (rows (viewport v)))
    as Ht1.
  set (m1 := heightLoopT _ _ _ _ _ _) in *.
  assert (Forall (fun j => 0 <= j < rowsLn) (reads m1)) as Hb1.
  { eapply Forall_impl; [exact Ht1|]. intros j Hj. cbn beta in Hj. lia. }
  destruct (outcome m1) as [rs1|] eqn:Ho1; cbn [mbind Outcome_bind].
  2:{ exists (reads m1), []. rewrite !app_nil_r. split; [done|]. split; [done|].
      split; [by left|]. split; [by intros [v' Hv']|by intros Hnil]. }
  rewrite reads_bind, outcome_bind.
  pose proof (offsetLoopT_reads (Z.to_nat (rowsLn - 1 - 1)) 1
                (getDefaultTopOffset first) rs1) as Ht2.
  set (m2 := offsetLoopT _ _ _ _) in *.
  assert (Forall (fun j => 0 <= j < rowsLn) (reads m2)) as Hb2.
  { eapply Forall_impl; [exact Ht2|]. intros j Hj. cbn beta in Hj. lia. }
  destruct (outcome m2) as [rs2|] eqn:Ho2; cbn [mbind Outcome_bind].
  2:{ exists (reads m1 ++ reads m2), []. rewrite !app_nil_r. split; [done|].
      split; [by apply Forall_app|]. split; [by left|].
      split; [by intros [v' Hv']|by intros Hnil]. }
  rewrite reads_bind, outcome_bind. cbn [readRow reads outcome mbind Outcome_bind].
  rewrite reads_bind, outcome_bind.
  destruct (at_ rs2 (rowsLn - 1)) as [lastRow|];
    cbn [deref untraced reads outcome mbind Outcome_bind app].
  2:{ exists (reads m1 ++ reads m2 ++ [rowsLn - 1]), [].
      rewrite !app_nil_r. split; [done|].
      split; [|split; [by left|split; [by intros [v' Hv']|by intros Hnil]]].
      apply Forall_app. split; [done|]. apply Forall_app. split; [done|].
      apply Forall_singleton. lia. }
  rewrite reads_bind. cbn [readRow reads outcome untraced].
  exists (reads m1 ++ reads m2 ++ [rowsLn - 1]), [rowsLn - 2].
  split; [by rewrite app_nil_r, <- !app_assoc|].
  split.
  { apply Forall_app. split; [done|]. apply Forall_app. split; [done|].
    apply Forall_singleton. lia. }
  split; [by right|]. split; [done|by intros Hnil].
Qed.

(** C10, as the code has it: [adjustRowHeights] reads [rows[0]] before
    anything else and has no test for an empty array ([adjustRowHeightsT] is
    the pass with its reads of [rows] recorded).  On a window that has rows,
    every subscript it reads and dereferences lies within the array, and the
    pass returns when every row has a cell; the one other read,
    [rows[rowsLn - 2]], comes last, lies within the array only from two rows
    on, and its value is tested before use.  On an empty window the read of
    [rows[0]] is the only one, it is out of bounds and the pass throws, and
    so does [scroll()] when the default row height is positive and the
    cursor is unchanged, as [renderRows] is skipped: it is not a no-op. *)
Theorem adjustRowHeights_reads v :
  let rowsLn := Z.of_nat (length (rows (viewport v))) in
  outcome (adjustRowHeightsT v) = adjustRowHeights v
  /\ head (reads (adjustRowHeightsT v)) = Some 0
  /\ (rows (viewport v) <> [] ->
      Forall (fun i => inBounds rowsLn i \/ i = rowsLn - 2)
        (reads (adjustRowHeightsT v))
      /\ (inBounds rowsLn (rowsLn - 2) <-> 2 <= rowsLn)
      /\ (at_ (rows (viewport v)) (rowsLn - 2) = None <-> rowsLn = 1)
      /\ (Forall hasCells (rows (viewport v)) ->
          (exists v', adjustRowHeights v = Returns v')
          /\ exists derefd,
               reads (adjustRowHeightsT v) = derefd ++ [rowsLn - 2]
               /\ Forall (inBounds rowsLn) derefd))
  /\ (rows (viewport v) = [] ->
      reads (adjustRowHeightsT v) = [0]
      /\ ~ inBounds rowsLn 0
      /\ at_ (rows (viewport v)) 0 = None
      /\ adjustRowHeights v = Throws TypeError
      /\ (0 < defaultRowHeight v ->
          rowCursor v
          = Qfloor (scrollTop (viewport v) / inject_Z (defaultRowHeight v)) ->
          scroll v = Throws TypeError)).
Proof.
  intros rowsLn.
  destruct (adjustRowHeightsT_reads v)
    as (derefd & guarded & Hreads & Hbound & Hguard & Hret & Hempty).
  fold rowsLn in Hreads, Hbound, Hguard, Hret.
  split; [apply adjustRowHeightsT_outcome|].
  split; [by rewrite Hreads|].
  split.
  - intros Hne.
    assert (0 < rowsLn) as Hpos.
    { subst rowsLn. destruct (rows (viewport v)); [done|]. cbn [length]. lia. }
    split.
    { rewrite Hreads. constructor; [left; unfold inBounds; lia|].
      apply Forall_app. split.
      - eapply Forall_impl; [exact Hbound|]. intros j Hj. by left.
      - destruct Hguard as [->| ->]; [constructor|].
        apply Forall_singleton. by right. }
    split; [unfold inBounds; lia|].
    split; [rewrite at_None; fold rowsLn; lia|].
    intros Hcells.
    pose proof (adjustRowHeights_returns v Hne Hcells) as Hv'.
    split; [exact Hv'|].
    exists (0 :: derefd). rewrite Hreads, (Hret Hv'). split; [done|].
    constructor; [unfold inBounds; lia|exact Hbound].
  - intros Hrows. destruct (Hempty Hrows) as [-> ->].
    split; [exact Hreads|].
    subst rowsLn. rewrite Hrows.
    split; [unfold inBounds; cbn [length]; lia|]. split; [done|].
    split; [by apply adjustRowHeights_empty|].
    intros _ Hc. unfold scroll. rewrite <- Hc.
    destruct (decide (rowCursor v = rowCursor v)) as [_|]; [|done].
    cbn [mbind Outcome_bind].
    assert (setRowCursor (rowCursor v) v = v) as -> by (by destruct v).
    by rewrite adjustRowHeights_empty.
Qed.

End Properties.

(** * The sample grid *)

Lemma sampleGrid_hasColumns : @hasColumns sampleGrid.
Proof. intros i. discriminate. Qed.

Lemma sample1_reachable : @reachable sampleGrid sample0 sample1.
Proof. apply reach_initialRender; vm_compute; reflexivity. Qed.

Lemma sample500_reachable : @reachable sampleGrid sample0 sample500.
Proof.
  apply (@reach_scroll sampleGrid sample0 sample1 500%Q).
  - exact sample1_reachable.
  - vm_compute. reflexivity.
Qed.

(** The second scenario as a whole: a scroll event at offset 500 after the
    initial render. *)
Example scroll_to_500 :
  exists v,
    @scroll sampleGrid (scrollTo 500 sample1) = Returns v
    /\ rowCursor v = 25
    /\ windowIndexes v = indexRun 23 37 ++ [999].
Proof.
  exists sample500.
  split; [vm_compute; reflexivity|]. split; vm_compute; reflexivity.
Qed.


(** C2 on the sample grid after the scroll event at offset 500. *)
Lemma window_contiguous_sample :
  runIndexes sample500 = indexRun 23 37 /\ 23 <= rowCursor sample500 <= 37.
Proof.
  destruct (@window_contiguous sampleGrid sample0 sample500 sample500_reachable)
    as (Hrun & _ & Hin & _).
  split; [exact Hrun|].
  apply Hin; vm_compute; intuition discriminate.
Defined.

(** C2 as stated fails on a table of one row: the window holds the last row
    alone, the run is empty, and no [from <= cursor <= to] bounds it. *)
Lemma single_row_run_misses_cursor :
  @initialRender sampleGrid single0 = Returns single1
  /\ @reachable sampleGrid single0 single1
  /\ windowIndexes single1 = [0]
  /\ rowCursor single1 = 0
  /\ ~ (exists from to,
          runIndexes single1 = indexRun from to
          /\ from <= rowCursor single1 <= to).
Proof.
  split; [vm_compute; reflexivity|].
  split; [apply reach_initialRender; vm_compute; reflexivity|].
  split; [vm_compute; reflexivity|].
  split; [vm_compute; reflexivity|].
  intros (from & to & Hrun & Hle).
  apply (f_equal length) in Hrun. unfold indexRun in Hrun.
  rewrite length_seqZ in Hrun.
  change (length (runIndexes single1)) with 0%nat in Hrun. lia.
Qed.

(** The same with 1000 rows, in a table body half a row high that is scrolled
    to its end: the cursor is on the last row, above the run [997..998]. *)
Example cursor_on_last_row_above_run :
  exists v1 v,
    @initialRender sampleGrid short0 = Returns v1
    /\ @scroll sampleGrid (scrollTo 19990 v1) = Returns v
    /\ rowCursor v = 999
    /\ windowIndexes v = [997; 998; 999].
Proof.
  exists (stateOf (@initialRender sampleGrid short0) short0).
  exists (stateOf (@scroll sampleGrid
                     (scrollTo 19990 (stateOf (@initialRender sampleGrid short0) short0)))
            short0).
  split; [vm_compute; reflexivity|]. split; [vm_compute; reflexivity|].
  split; vm_compute; reflexivity.
Qed.

(** C3 on the sample grid after the scroll event at offset 500. *)
Lemma anchor_persistent_sample :
  exists a,
    last (rows (viewport sample500)) = Some a
    /\ index a = 999 /\ handle a = 0%nat.
Proof.
  destruct (@anchor_persistent sampleGrid sample0 sample500 sample500_reachable)
    as (a & Ha & _ & Hi & Hh & _).
  exists a. split; [exact Ha|]. split; [exact Hi|exact Hh].
Defined.

(** C4 on the sample grid after the scroll event at offset 500: 16 row
    objects, [10 + 2 * 2 + 2]. *)
Lemma window_bounded_sample :
  length (rows (viewport sample500)) = 16%nat
  /\ Z.of_nat (length (rows (viewport sample500)))
     <= rowsPerPage sample500 + 2 * buffer sample500 + 2.
Proof.
  split; [vm_compute; reflexivity|].
  apply (@window_bounded sampleGrid sample0 sample500 sample500_reachable);
    vm_compute; (reflexivity || discriminate).
Defined.

(** C4 as stated fails there: 16 row objects against [10 + 2 * 2 + 1 = 15]. *)
Lemma window_exceeds_stated_bound :
  @reachable sampleGrid sample0 sample500
  /\ rowsPerPage sample500 = 10 /\ buffer sample500 = 2
  /\ ~ (Z.of_nat (length (rows (viewport sample500)))
        <= rowsPerPage sample500 + 2 * buffer sample500 + 1).
Proof.
  split; [exact sample500_reachable|].
  split; [vm_compute; reflexivity|].
  split; [vm_compute; reflexivity|].
  vm_compute. intros Hle. apply Hle. reflexivity.
Qed.

(** C5 on the sample grid. *)
Lemma initialRender_sample_window_sampleGrid :
  exists v,
    @initialRender sampleGrid sample0 = Returns v
    /\ windowIndexes v = indexRun 0 12 ++ [999].
Proof.
  destruct (@initialRender_sample_window sampleGrid) as (v & Hv & _ & Hw & _).
  - intros i. vm_compute. discriminate.
  - exists v. split; [exact Hv|exact Hw].
Defined.

(** C5 as stated fails: row 12 is in the window, so its indexes are not
    [0..11] and 999. *)
Lemma initialRender_sample_has_row_12 :
  @initialRender sampleGrid sample0 = Returns sample1
  /\ 12 ∈ windowIndexes sample1
  /\ ~ (forall i, i ∈ windowIndexes sample1 <-> 0 <= i <= 11 \/ i = 999).
Proof.
  split; [vm_compute; reflexivity|].
  assert (12 ∈ windowIndexes sample1) as H12.
  { change (windowIndexes sample1) with (indexRun 0 12 ++ [999]).
    apply elem_of_app. left. apply elem_of_seqZ. lia. }
  split; [exact H12|].
  intros Hall. apply Hall in H12. lia.
Qed.

(** C6 at natural height 40, default height 20, scroll offset 510 and cursor
    25: no operation rounds, and the row of index 25 (the third of the
    window) gets the height 30 and its cells are translated by -10. *)
Lemma adjustRowHeights_heights_sample :
  exact64 40 20 510 25
  /\ exists v' r',
       @adjustRowHeights sampleGrid sample510 = Returns v'
       /\ rows (viewport v') !! 2%nat = Some r'
       /\ index r' = 25
       /\ styleHeight r' = Some 30
       /\ Forall (fun cell => cellTransform cell = Some (-10)) (cells r').
Proof.
  assert (exact64 40 20 510 25) as Hexact.
  { unfold exact64. cbv zeta.
    split; [vm_compute; reflexivity|]. split; [vm_compute; reflexivity|].
    split; vm_compute; reflexivity. }
  split; [exact Hexact|].
  destruct (@adjustRowHeights_heights sampleGrid sample510 2%nat
              (mkRow 25 16 [mkCell 40 (Some (-10)); mkCell 40 (Some (-10))]
                 (Some 30) (Some 500))
              (mkCell 40 (Some (-10))))
    as (v' & r' & Hv' & Hr' & Hi & _ & _ & _ & Heq).
  - vm_compute. reflexivity.
  - vm_compute. repeat constructor; discriminate.
  - vm_compute. reflexivity.
  - vm_compute. reflexivity.
  - exists v', r'. split; [exact Hv'|]. split; [exact Hr'|]. split; [exact Hi|].
    destruct Heq as (Hs & _ & Hcells & _ & Hformula).
    + reflexivity.
    + reflexivity.
    + reflexivity.
    + split; [discriminate|reflexivity].
    + vm_compute. reflexivity.
    + specialize (Hformula Hexact).
      assert (Qfloor (inject_Z 40
                      - inject_Z (40 - 20) * (510 / inject_Z 20 - inject_Z 25))%Q
              = 30) as H30 by (vm_compute; reflexivity).
      change (cellOffsetHeight (mkCell 40 (Some (-10)))) with 40 in *.
      change (defaultRowHeight sample510) with 20 in *.
      change (rowCursor sample510) with 25 in *.
      change (scrollTop (viewport sample510)) with 510%Q in *.
      rewrite H30 in Hformula. rewrite Hformula in Hs, Hcells.
      split; [exact Hs|exact Hcells].
Defined.

(** C6 as stated fails at scroll offset 501, with the same heights and
    cursor: [501 / 20] is no binary64 number and the quotient is rounded up,
    so the code applies the height 38 and translates the cells by -2, where
    the value of the formula is [floor(40 - 20 * 0.05) = 39]. *)
Lemma first_visible_row_rounds_at_501 :
  @scroll sampleGrid (scrollTo 501 sample1) = Returns sample501
  /\ rowCursor sample501 = 25
  /\ (exists r' cell0,
        rows (viewport sample501) !! 2%nat = Some r'
        /\ index r' = 25
        /\ head (cells r') = Some cell0 /\ cellOffsetHeight cell0 = 40
        /\ styleHeight r' = Some 38
        /\ Forall (fun cell => cellTransform cell = Some (-2)) (cells r'))
  /\ Qfloor (inject_Z 40
             - inject_Z (40 - 20) * (501 / inject_Z 20 - inject_Z 25))%Q = 39
  /\ ~ exact64 40 20 501 25.
Proof.
  split; [vm_compute; reflexivity|].
  split; [vm_compute; reflexivity|].
  split.
  { exists (mkRow 25 16 [mkCell 40 (Some (-2)); mkCell 40 (Some (-2))]
              (Some 38) (Some 500)), (mkCell 40 (Some (-2))).
    split; [vm_compute; reflexivity|]. split; [reflexivity|].
    split; [reflexivity|]. split; [reflexivity|]. split; [reflexivity|].
    repeat constructor. }
  split; [vm_compute; reflexivity|].
  intros (Hq & _). vm_compute in Hq. discriminate Hq.
Qed.

Example adjusted_height_40_20_510_25 :
  Qfloor (sub64 (inject_Z 40)
            (mul64 (sub64 (inject_Z 40) (inject_Z 20))
               (sub64 (div64 510 (inject_Z 20)) (inject_Z 25))))
  = 30.
Proof. vm_compute. reflexivity. Qed.

Example scroll_to_510_heights :
  @scroll sampleGrid (scrollTo 510 sample1) = Returns sample510
  /\ styleHeight <$> rows (viewport sample510)
     = [Some 20; Some 20; Some 30] ++ replicate 13 (Some 40).
Proof. split; vm_compute; reflexivity. Qed.

(** C7 where the table body reports an offset 7 lower after the heights were
    adjusted: the offset 500 read first is written back. *)
Lemma scroll_offset_floor_shrinking :
  exists v',
    @scroll shrinkingGrid (scrollTo 500 sample1) = Returns v'
    /\ (500 <= scrollTop (viewport v'))%Q
    /\ scrollTop (viewport v') = 500%Q.
Proof.
  exists (stateOf (@scroll shrinkingGrid (scrollTo 500 sample1)) sample1).
  assert (@scroll shrinkingGrid (scrollTo 500 sample1)
          = Returns (stateOf (@scroll shrinkingGrid (scrollTo 500 sample1)) sample1))
    as Hv by (vm_compute; reflexivity).
  destruct (@scroll_offset_floor shrinkingGrid _ _ Hv) as (Hle & Hlt & _).
  split; [exact Hv|]. split; [exact Hle|].
  apply Hlt. vm_compute. reflexivity.
Defined.

(** C8 on the sample grid at offset 500: the cursor moves from 0 to 25, and
    the rows 23 and 24, below the new cursor, get the default height. *)
Lemma scroll_transition_sample :
  rowCursor sample500 = 25
  /\ Forall (fun r => index r < 25 -> styleHeight r = Some 20)
       (rows (viewport sample500))
  /\ exists v1 w,
       @renderRows sampleGrid 25 (scrollTo 500 sample1) = Returns v1
       /\ @adjustRowHeights sampleGrid (setRowCursor 25 v1) = Returns w
       /\ rows (viewport sample500) = rows (viewport w).
Proof.
  assert (@scroll sampleGrid (scrollTo 500 sample1) = Returns sample500) as Hv
    by (vm_compute; reflexivity).
  destruct (@scroll_transition sampleGrid (scrollTo 500 sample1) sample500)
    as (Hc & _ & Hne & Habove).
  - vm_compute. reflexivity.
  - exact Hv.
  - split; [exact Hc|]. split; [exact Habove|].
    apply Hne. vm_compute. discriminate.
Defined.

(** C8 as stated fails: in the order of the specification the height pass
    would run under the stored cursor 0 and leave row 23 at its natural
    height 40; the code runs it under the new cursor 25 and row 23 gets the
    default height 20. *)
Lemma scroll_heights_observe_new_cursor :
  exists v w,
    @scroll sampleGrid (scrollTo 500 sample1) = Returns v
    /\ @scrollAsSpecified sampleGrid (scrollTo 500 sample1) = Returns w
    /\ index <$> rows (viewport v) !! 0%nat = Some 23
    /\ styleHeight <$> rows (viewport v) !! 0%nat = Some (Some 20)
    /\ styleHeight <$> rows (viewport w) !! 0%nat = Some (Some 40)
    /\ @scroll sampleGrid (scrollTo 500 sample1)
       <> @scrollAsSpecified sampleGrid (scrollTo 500 sample1).
Proof.
  exists sample500,
    (stateOf (@scrollAsSpecified sampleGrid (scrollTo 500 sample1)) sample1).
  split; [vm_compute; reflexivity|].
  split; [vm_compute; reflexivity|].
  split; [vm_compute; reflexivity|].
  split; [vm_compute; reflexivity|].
  split; [vm_compute; reflexivity|].
  vm_compute. discriminate.
Qed.

(** C9 on a table of 5 rows under a page of 10: [from] is [5 - 10 = -5], and
    row objects are constructed for the indexes -5 to -1. *)
Example renderRows_small_table_negative_indexes :
  rowsPerPage small0 = 10
  /\ rangeFrom small0 0 = -5
  /\ rangeTo small0 0 (5 - 1) = 3
  /\ exists v,
       @initialRender sampleGrid small0 = Returns v
       /\ windowIndexes v = [-5; -4; -3; -2; -1; 0; 1; 2; 3; 4]
       /\ ~ Forall (fun i => 0 <= i < rowCount (viewport small0)) (windowIndexes v).
Proof.
  split; [vm_compute; reflexivity|].
  split; [vm_compute; reflexivity|].
  split; [vm_compute; reflexivity|].
  exists (stateOf (@initialRender sampleGrid small0) small0).
  split; [vm_compute; reflexivity|].
  assert (windowIndexes (stateOf (@initialRender sampleGrid small0) small0)
          = [-5; -4; -3; -2; -1; 0; 1; 2; 3; 4]) as Hw
    by (vm_compute; reflexivity).
  split; [exact Hw|]. rewrite Hw.
  intros Hall. apply Forall_inv in Hall. lia.
Qed.

(** C10 on the sample grid: on the window of 14 rows after the initial
    render the pass returns, every subscript it dereferences lies within the
    array and the last read is [rows[12]]; on the empty window before it the
    pass reads [rows[0]] and throws, and so does a scroll event. *)
Lemma adjustRowHeights_reads_sample :
  (exists v', @adjustRowHeights sampleGrid sample1 = Returns v')
  /\ (exists derefd,
        reads (@adjustRowHeightsT sampleGrid sample1) = derefd ++ [12]
        /\ Forall (inBounds 14) derefd)
  /\ reads (@adjustRowHeightsT sampleGrid sample0) = [0]
  /\ @adjustRowHeights sampleGrid sample0 = Throws TypeError
  /\ @scroll sampleGrid sample0 = Throws TypeError.
Proof.
  destruct (@adjustRowHeights_reads sampleGrid sample1) as (_ & _ & Hsome & _).
  destruct (@adjustRowHeights_reads sampleGrid sample0) as (_ & _ & _ & Hnone).
  destruct Hsome as (_ & _ & _ & Hret); [vm_compute; discriminate|].
  destruct Hnone as (Hreads & _ & _ & Hthrow & Hscroll); [vm_compute; reflexivity|].
  destruct Hret as (Hv' & derefd & Hd & Hin).
  { vm_compute. repeat constructor; discriminate. }
  split; [exact Hv'|].
  split; [exists derefd; split; [exact Hd|exact Hin]|].
  split; [exact Hreads|]. split; [exact Hthrow|].
  apply Hscroll; vm_compute; reflexivity.
Defined.

(** C10 as stated fails on a window of one row: the pass reads
    [rows[0]] three times and then [rows[rowsLn - 2]] at subscript -1, out of
    bounds; that read yields [undefined], which the test before its use
    catches, and the pass returns. *)
Lemma single_row_window_reads_out_of_bounds :
  rows (viewport single1) <> []
  /\ reads (@adjustRowHeightsT sampleGrid single1) = [0; 0; 0; -1]
  /\ at_ (rows (viewport single1)) (-1) = None
  /\ ~ Forall (inBounds (Z.of_nat (length (rows (viewport single1)))))
         (reads (@adjustRowHeightsT sampleGrid single1))
  /\ exists v', @adjustRowHeights sampleGrid single1 = Returns v'.
Proof.
  assert (reads (@adjustRowHeightsT sampleGrid single1) = [0; 0; 0; -1]) as Hreads
    by (vm_compute; reflexivity).
  split; [vm_compute; discriminate|].
  split; [exact Hreads|].
  split; [vm_compute; reflexivity|].
  split.
  - rewrite Hreads.
    intros Hall. apply Forall_inv_tail, Forall_inv_tail, Forall_inv_tail in Hall.
    apply Forall_inv in Hall. unfold inBounds in Hall. lia.
  - eexists. vm_compute. reflexivity.
Qed.

(** * Further properties of the height pass *)

Section HeightPass.

Context `{Collaborators}.

Local Arguments Qfloor : simpl never.
Local Arguments Qminus : simpl never.
Local Arguments Qmult : simpl never.
Local Arguments Qdiv : simpl never.
Local Arguments inject_Z : simpl never.

(** ** The second loop in closed form *)

Lemma offsetLoop_stackRows mid pre prev post tb :
  offsetLoop (length mid) (Z.of_nat (S (length pre))) tb (pre ++ prev :: mid ++ post)
  = Returns (pre ++ prev :: stackRows tb prev mid ++ post).
Proof.
  revert pre prev tb. induction mid as [|r mid IH]; intros pre prev tb; [done|].
  cbn [length offsetLoop stackRows].
  replace (Z.of_nat (S (length pre)) - 1) with (Z.of_nat (length pre)) by lia.
  rewrite (at_lookup _ (length pre)),
    (list_lookup_middle pre _ prev (length pre) eq_refl).
  cbn [deref mbind Outcome_bind].
  assert (pre ++ prev :: (r :: mid) ++ post = (pre ++ [prev]) ++ r :: mid ++ post)
    as Hshape by (by rewrite <- app_assoc).
  assert (S (length pre) = length (pre ++ [prev])) as Hlen
    by (rewrite length_app; cbn [length]; lia).
  rewrite Hshape, (at_lookup _ (S (length pre))), Hlen,
    (list_lookup_middle (pre ++ [prev]) _ r _ eq_refl).
  cbn [deref mbind Outcome_bind].
  unfold put. rewrite Nat2Z.id.
  rewrite <- (Nat.add_0_r (length (pre ++ [prev]))), insert_app_r.
  cbn [insert list_insert]. rewrite Nat.add_0_r.
  replace (Z.of_nat (length (pre ++ [prev])) + 1)
    with (Z.of_nat (S (length (pre ++ [prev])))) by lia.
  rewrite IH. by rewrite <- app_assoc.
Qed.

Lemma stackRows_length tb prev l : length (stackRows tb prev l) = length l.
Proof.
  revert tb prev. induction l as [|r l IH]; intros tb prev; [done|].
  cbn [stackRows length]. by rewrite IH.
Qed.

Lemma stackRows_box tb prev l : box <$> stackRows tb prev l = box <$> l.
Proof.
  revert tb prev. induction l as [|r l IH]; intros tb prev; [done|].
  cbn [stackRows fmap list_fmap]. f_equal. apply IH.
Qed.

Lemma box_rowOffsetHeight r r' : box r = box r' -> rowOffsetHeight r = rowOffsetHeight r'.
Proof.
  unfold box, rowOffsetHeight. intros [= _ _ Hc Hs]. by rewrite Hc, Hs.
Qed.

Lemma box_sumHeights l l' : box <$> l = box <$> l' -> sumHeights l = sumHeights l'.
Proof.
  revert l'. induction l as [|r l IH]; intros [|r' l'] Hb; try done.
  cbn in Hb. cbn [sumHeights foldr].
  assert (box r = box r') as Hr by congruence.
  assert (box <$> l = box <$> l') as Hl by (by injection Hb).
  fold (sumHeights l) (sumHeights l').
  by rewrite (box_rowOffsetHeight _ _ Hr), (IH _ Hl).
Qed.

(** The offset of the row at position [j] of the stacked rows: the buffer,
    the height of the row before them and the heights of the rows up to
    [j]. *)
Lemma stackRows_lookup tb prev l j r' :
  stackRows tb prev l !! j = Some r' ->
  rowTransform r'
  = Some (tb + rowOffsetHeight prev + sumHeights (take j (stackRows tb prev l))).
Proof.
  revert tb prev j. induction l as [|r l IH]; intros tb prev j Hj; [done|].
  cbn [stackRows] in *. destruct j as [|j].
  - injection Hj as <-. cbn. f_equal. lia.
  - cbn [lookup list_lookup] in Hj. apply IH in Hj. rewrite Hj.
    cbn [take sumHeights foldr]. fold (sumHeights (take j
      (stackRows (tb + rowOffsetHeight prev)
         (setRowTransform (Some (tb + rowOffsetHeight prev)) r) l))).
    f_equal. lia.
Qed.

(** ** The whole pass in closed form *)

Lemma adjustRowHeights_exact v first rest f1 rest1 :
  rows (viewport v) = first :: rest ->
  eachRow (adjustRow (rowCursor v) (defaultRowHeight v) (scrollTop (viewport v)))
    (first :: rest) = Returns (f1 :: rest1) ->
  let n := (length rest1 - 1)%nat in
  adjustRowHeights v =
  Returns (setViewport
             (setRows
                (glueLast (f1 :: stackRows (getDefaultTopOffset first) f1
                                   (take n rest1) ++ drop n rest1))
                (viewport v)) v).
Proof.
  intros Hrows Heach n. unfold adjustRowHeights. rewrite Hrows, at_0.
  cbn [head deref mbind Outcome_bind]. rewrite Nat2Z.id.
  pose proof (heightLoop_eachRow (rowCursor v) (defaultRowHeight v)
                (scrollTop (viewport v)) [] (first :: rest)) as Hh.
  change (Z.of_nat (length [])) with 0 in Hh. cbn [app] in Hh.
  rewrite Hh, Heach. cbn [mbind Outcome_bind mret Outcome_ret app].
  pose proof (eachRow_length _ _ _ Heach) as Hlen. cbn [length] in Hlen.
  assert (length rest1 = length rest) as Hlen' by lia.
  assert (Z.to_nat (Z.of_nat (length (first :: rest)) - 1 - 1)
          = length (take n rest1)) as ->.
  { rewrite length_take. cbn [length]. subst n. lia. }
  pose proof (offsetLoop_stackRows (take n rest1) [] f1 (drop n rest1)
                (getDefaultTopOffset first)) as Hoff.
  change (Z.of_nat (S (length []))) with 1 in Hoff. cbn [app] in Hoff.
  rewrite take_drop in Hoff. rewrite Hoff. cbn [mbind Outcome_bind].
  set (rs2 := f1 :: stackRows (getDefaultTopOffset first) f1 (take n rest1)
                 ++ drop n rest1).
  assert (length rs2 = length (first :: rest)) as Hlen2.
  { subst rs2. cbn [length]. rewrite length_app, stackRows_length, <- length_app,
      take_drop. lia. }
  unfold glueLast. rewrite Hlen2.
  destruct (at_is_Some rs2 (Z.of_nat (length (first :: rest)) - 1)) as [lastRow ->].
  { rewrite Hlen2. cbn [length]. lia. }
  cbn [deref mbind Outcome_bind].
  by destruct (at_ rs2 (Z.of_nat (length (first :: rest)) - 2)).
Qed.

Lemma adjustRowHeights_shape v v' :
  adjustRowHeights v = Returns v' ->
  exists first rest f1 rest1,
    rows (viewport v) = first :: rest
    /\ eachRow (adjustRow (rowCursor v) (defaultRowHeight v) (scrollTop (viewport v)))
         (first :: rest) = Returns (f1 :: rest1)
    /\ length rest1 = length rest
    /\ rows (viewport v')
       = glueLast (f1 :: stackRows (getDefaultTopOffset first) f1
                           (take (length rest1 - 1) rest1)
                         ++ drop (length rest1 - 1) rest1)
    /\ v' = setViewport (setRows (rows (viewport v')) (viewport v)) v.
Proof.
  intros Hv. pose proof (adjustRowHeights_inv _ _ Hv) as (Hne & rs1 & Heach & _).
  destruct (rows (viewport v)) as [|first rest] eqn:Hrows; [done|].
  pose proof (eachRow_length _ _ _ Heach) as Hlen.
  destruct rs1 as [|f1 rest1]; [done|]. cbn [length] in Hlen.
  exists first, rest, f1, rest1. split; [done|]. split; [done|]. split; [lia|].
  rewrite (adjustRowHeights_exact v first rest f1 rest1 Hrows Heach) in Hv.
  injection Hv as <-. by cbn.
Qed.

Lemma at_Some_bounds {A : Type} (l : list A) i x :
  at_ l i = Some x -> 0 <= i < Z.of_nat (length l).
Proof.
  intros Hx. destruct (decide (0 <= i < Z.of_nat (length l))) as [|Hn]; [done|].
  apply at_None in Hn. congruence.
Qed.

Lemma glueLast_box rs : box <$> glueLast rs = box <$> rs.
Proof.
  unfold glueLast.
  destruct (at_ rs (Z.of_nat (length rs) - 1)) as [lastRow|] eqn:Hlast; [|done].
  destruct (at_ rs (Z.of_nat (length rs) - 2)) as [pre|]; [|done].
  destruct (index pre =? index lastRow - 1); [|done].
  by apply put_transform_box.
Qed.

Lemma glueLast_length rs : length (glueLast rs) = length rs.
Proof. apply box_length, glueLast_box. Qed.

Lemma glueLast_lookup rs k :
  S k <> length rs -> glueLast rs !! k = rs !! k.
Proof.
  intros Hk. unfold glueLast.
  destruct (at_ rs (Z.of_nat (length rs) - 1)) as [lastRow|] eqn:Hlast; [|done].
  apply at_Some_bounds in Hlast.
  destruct (at_ rs (Z.of_nat (length rs) - 2)) as [pre|]; [|done].
  destruct (index pre =? index lastRow - 1); [|done].
  unfold put. apply list_lookup_insert_ne. lia.
Qed.

Lemma sumHeights_app l l' : sumHeights (l ++ l') = sumHeights l + sumHeights l'.
Proof.
  induction l as [|r l IH]; [done|]. cbn [app sumHeights foldr].
  fold (sumHeights (l ++ l')) (sumHeights l). rewrite IH. lia.
Qed.

Lemma sumHeights_take_box k l l' :
  box <$> l = box <$> l' -> sumHeights (take k l) = sumHeights (take k l').
Proof.
  intros Hb. apply box_sumHeights. by rewrite !fmap_take, Hb.
Qed.

(** ** Stacking *)

(** X1: The second loop stacks the rows between the first and the last one:
    the row at position [k], [1 <= k <= rowsLn - 2], is translated to the
    default top offset of the first row plus the heights of the rows before
    it.  So from position 2 on each of these rows starts where the one
    before it ends; the row at position 1 starts at the default top offset
    of the first row plus the height of the first row, which is where the
    first row ends when the first row is at its default top offset (the
    pass leaves the first row where it was). *)
Theorem adjustRowHeights_stacks v v' first :
  adjustRowHeights v = Returns v' ->
  head (rows (viewport v)) = Some first ->
  let rs' := rows (viewport v') in
  (forall k r', (1 <= k)%nat -> (k + 1 < length rs')%nat -> rs' !! k = Some r' ->
     rowTransform r'
     = Some (getDefaultTopOffset first + sumHeights (take k rs')))
  /\ (forall k r1 r2, (1 <= k)%nat -> (k + 2 < length rs')%nat ->
        rs' !! k = Some r1 -> rs' !! S k = Some r2 ->
        exists t, rowTransform r1 = Some t
                  /\ rowTransform r2 = Some (t + rowOffsetHeight r1))
  /\ (forall r0 r1, (2 < length rs')%nat ->
        rs' !! 0%nat = Some r0 -> rs' !! 1%nat = Some r1 ->
        rowTransform r0 = rowTransform first
        /\ rowTransform r1
           = Some (getDefaultTopOffset first + rowOffsetHeight r0)
        /\ (getTranslateY (rowTransform first) = getDefaultTopOffset first ->
            rowTransform r1
            = Some (getTranslateY (rowTransform r0) + rowOffsetHeight r0))).
Proof.
  intros Hv Hfirst rs'.
  destruct (adjustRowHeights_shape _ _ Hv)
    as (first' & rest & f1 & rest1 & Hrows & Heach & Hlen & Hrs' & _).
  rewrite Hrows in Hfirst. injection Hfirst as ->.
  set (n := (length rest1 - 1)%nat) in *.
  set (st := stackRows (getDefaultTopOffset first) f1 (take n rest1)) in *.
  set (rs2 := f1 :: st ++ drop n rest1) in *.
  assert (length st = n) as Hst.
  { subst st. rewrite stackRows_length, length_take. lia. }
  assert (length rs' = S (length rest1)) as Hlen'.
  { subst rs'. rewrite Hrs', glueLast_length. subst rs2. cbn [length].
    rewrite length_app, length_drop. lia. }
  assert (forall k r', (1 <= k)%nat -> (k + 1 < length rs')%nat ->
            rs' !! k = Some r' ->
            rowTransform r'
            = Some (getDefaultTopOffset first + sumHeights (take k rs'))) as Habs.
  { intros k r' Hk1 Hk2 Hr'. subst rs'. rewrite Hrs' in Hr'.
    rewrite glueLast_lookup in Hr' by (rewrite <- glueLast_length, <- Hrs'; lia).
    destruct k as [|k]; [lia|]. subst rs2. rewrite lookup_cons in Hr'.
    rewrite lookup_app_l in Hr' by lia.
    rewrite (stackRows_lookup _ _ _ _ _ Hr'). f_equal.
    rewrite (sumHeights_take_box (S k) _ (f1 :: st ++ drop n rest1))
      by (rewrite Hrs'; apply glueLast_box).
    cbn [take sumHeights foldr]. rewrite take_app_le by lia.
    fold (sumHeights (take k st)). subst st. lia. }
  split; [exact Habs|]. split.
  - intros k r1 r2 Hk1 Hk2 Hr1 Hr2.
    pose proof (Habs k r1 Hk1 ltac:(lia) Hr1) as H1.
    pose proof (Habs (S k) r2 ltac:(lia) ltac:(lia) Hr2) as H2.
    eexists. split; [exact H1|]. rewrite H2. f_equal.
    rewrite (take_S_r _ _ _ Hr1), sumHeights_app. cbn [sumHeights foldr]. lia.
  - intros r0 r1 Hlen2 Hr0 Hr1.
    pose proof (Habs 1%nat r1 ltac:(lia) ltac:(lia) Hr1) as H1.
    rewrite (take_S_r _ 0 _ Hr0), take_0 in H1. cbn [app sumHeights foldr] in H1.
    replace (rowOffsetHeight r0 + 0) with (rowOffsetHeight r0) in H1 by lia.
    assert (rowTransform r0 = rowTransform first) as H0.
    { subst rs'. rewrite Hrs' in Hr0.
      rewrite glueLast_lookup in Hr0 by (rewrite <- glueLast_length, <- Hrs'; lia).
      subst rs2. cbn [lookup list_lookup] in Hr0. injection Hr0 as <-.
      apply eachRow_Forall2 in Heach. apply Forall2_cons_1 in Heach as [Hadj _].
      by apply adjustRow_inv in Hadj as (_ & _ & ? & _). }
    split; [exact H0|]. split; [exact H1|].
    intros Htop. by rewrite H1, H0, Htop.
Qed.

(** ** The first and the last row *)

Lemma glueLast_short rs : (length rs < 2)%nat -> glueLast rs = rs.
Proof.
  intros Hlen. unfold glueLast.
  destruct (at_ rs (Z.of_nat (length rs) - 1)); [|done].
  destruct (at_ rs (Z.of_nat (length rs) - 2)) as [pre|] eqn:Hpre; [|done].
  apply at_Some_bounds in Hpre. lia.
Qed.

Lemma glueLast_last rs l :
  last rs = Some l ->
  exists l',
    last (glueLast rs) = Some l' /\ index l' = index l
    /\ ((length rs < 2)%nat -> rowTransform l' = rowTransform l)
    /\ forall pre, rs !! (length rs - 2)%nat = Some pre -> (2 <= length rs)%nat ->
         (index pre = index l - 1 ->
          rowTransform l'
          = Some (rowOffsetHeight pre + getTranslateY (rowTransform pre)))
         /\ (index pre <> index l - 1 -> rowTransform l' = rowTransform l).
Proof.
  intros Hl. unfold glueLast. rewrite at_last_index, Hl.
  destruct (at_ rs (Z.of_nat (length rs) - 2)) as [pre|] eqn:Hpre.
  - pose proof (at_Some_bounds _ _ _ Hpre) as Hb.
    replace (Z.of_nat (length rs) - 2) with (Z.of_nat (length rs - 2)) in Hpre by lia.
    rewrite at_lookup in Hpre.
    destruct (Z.eqb_spec (index pre) (index l - 1)) as [Hadj|Hadj].
    + eexists. split.
      { rewrite last_lookup. unfold put. rewrite length_insert.
        replace (Z.to_nat (Z.of_nat (length rs) - 1)) with (pred (length rs)) by lia.
        apply list_lookup_insert_eq. lia. }
      split; [done|]. split; [lia|].
      intros pre' Hpre' _. rewrite Hpre in Hpre'. injection Hpre' as <-.
      split; [done|]. by intros ?.
    + exists l. split; [done|]. split; [done|]. split; [done|].
      intros pre' Hpre' _. rewrite Hpre in Hpre'. injection Hpre' as <-.
      split; [by intros ?|done].
  - exists l. split; [done|]. split; [done|]. split; [done|].
    intros pre' Hpre' Hlen. apply at_None in Hpre. lia.
Qed.

(** X2: The pass never moves the first row.  It moves the last row only when the
    row before it has the index just below its own: then the last row goes
    to the offset of that row ([getTranslateY]) plus its height, right
    below it; otherwise, and in a window of one row, the last row stays
    where it was. *)
Theorem adjustRowHeights_first_last v v' :
  adjustRowHeights v = Returns v' ->
  let rs := rows (viewport v) in
  let rs' := rows (viewport v') in
  rowTransform <$> head rs' = rowTransform <$> head rs
  /\ exists l l',
       last rs = Some l /\ last rs' = Some l' /\ index l' = index l
       /\ ((length rs' < 2)%nat -> rowTransform l' = rowTransform l)
       /\ forall pre', rs' !! (length rs' - 2)%nat = Some pre' ->
            (2 <= length rs')%nat ->
            (index pre' = index l - 1 ->
             rowTransform l'
             = Some (rowOffsetHeight pre' + getTranslateY (rowTransform pre')))
            /\ (index pre' <> index l - 1 -> rowTransform l' = rowTransform l).
Proof.
  intros Hv rs rs'.
  destruct (adjustRowHeights_shape _ _ Hv)
    as (first & rest & f1 & rest1 & Hrows & Heach & Hlen & Hrs' & _).
  set (n := (length rest1 - 1)%nat) in *.
  set (st := stackRows (getDefaultTopOffset first) f1 (take n rest1)) in *.
  set (rs2 := f1 :: st ++ drop n rest1) in *.
  assert (length st = n) as Hst.
  { subst st. rewrite stackRows_length, length_take. lia. }
  assert (length rs2 = S (length rest1)) as Hlen2.
  { subst rs2. cbn [length]. rewrite length_app, length_drop. lia. }
  pose proof (eachRow_Forall2 _ _ _ Heach) as Hall.
  assert (forall k r r1, (first :: rest) !! k = Some r -> (f1 :: rest1) !! k = Some r1 ->
            index r1 = index r /\ rowTransform r1 = rowTransform r) as Hkeep.
  { intros k r r1 Hr Hr1.
    pose proof (Forall2_lookup_lr _ _ _ _ _ _ Hall Hr Hr1) as Hadj.
    by apply adjustRow_inv in Hadj as (? & _ & ? & _). }
  (* the last row of the stacked rows is the last row after the first loop *)
  assert (rs2 !! length rest1 = (f1 :: rest1) !! length rest1) as Hsame.
  { subst rs2. destruct rest1 as [|x rest1'] eqn:Hr1; [done|].
    rewrite !lookup_cons. cbn [length].
    rewrite lookup_app_r by (rewrite Hst; subst n; cbn [length]; lia).
    rewrite Hst, lookup_drop. f_equal. subst n. cbn [length]. lia. }
  subst rs rs'. rewrite Hrows, Hrs'. split.
  - rewrite !head_lookup.
    destruct rest1 as [|x rest1'] eqn:Hr1.
    + rewrite glueLast_short by (rewrite Hlen2; cbn [length]; lia).
      subst rs2. cbn [lookup list_lookup fmap option_fmap option_map].
      f_equal. by apply (Hkeep 0%nat first f1).
    + rewrite glueLast_lookup by (rewrite Hlen2; cbn [length]; lia).
      subst rs2. cbn [lookup list_lookup fmap option_fmap option_map].
      f_equal. by apply (Hkeep 0%nat first f1).
  - assert (exists l, last (first :: rest) = Some l) as [l Hl].
    { apply last_is_Some. done. }
    assert (exists l2, last rs2 = Some l2) as [l2 Hl2].
    { apply last_is_Some. by subst rs2. }
    assert (index l2 = index l /\ rowTransform l2 = rowTransform l) as [Hi2 Ht2].
    { rewrite last_lookup in Hl, Hl2. rewrite Hlen2 in Hl2. cbn [length pred] in Hl, Hl2.
      rewrite Hsame in Hl2. rewrite <- Hlen in Hl. by apply (Hkeep (length rest1)). }
    destruct (glueLast_last rs2 l2 Hl2) as (l' & Hl' & Hi' & Hshort & Hpre).
    exists l, l'. split; [done|]. split; [done|]. split; [congruence|].
    rewrite glueLast_length. split; [intros ?; rewrite <- Ht2; by apply Hshort|].
    intros pre' Hpre' Hlen'.
    rewrite glueLast_lookup in Hpre' by lia.
    destruct (Hpre pre' Hpre' Hlen') as [Hadj Hfar].
    rewrite <- Hi2, <- Ht2. done.
Qed.

(** ** Running the pass again *)

Ltac head_cell := cbn; change (Z.to_nat 0) with 0%nat in *; cbn.

Lemma setCellTransform_absorb a b (l : list DataGridCell) :
  setCellTransform a <$> (setCellTransform b <$> l) = setCellTransform a <$> l.
Proof. rewrite <- list_fmap_compose. by apply list_fmap_ext. Qed.

Lemma adjustRow_idem c d s r r1 :
  adjustRow c d s r = Returns r1 -> adjustRow c d s r1 = Returns r1.
Proof.
  destruct r as [i hd [|[ch t] cs] sh rt]; [by rewrite adjustRow_throws|].
  unfold adjustRow at 1. head_cell.
  destruct (i <? c) eqn:Hlt.
  - destruct t; cbn; rewrite ?Hlt; intros [= <-];
      unfold adjustRow; head_cell; by rewrite Hlt.
  - destruct (i >? c) eqn:Hgt.
    + destruct t; cbn; rewrite ?Hlt, ?Hgt; cbn; rewrite ?Hgt; intros [= <-];
        unfold adjustRow; head_cell; rewrite Hlt; cbn; by rewrite Hgt.
    + destruct (ch >? d) eqn:Hhd.
      * destruct t; cbn; rewrite ?Hlt, ?Hgt; cbn; rewrite ?Hgt;
          unfold rowOffsetHeight; cbn; rewrite Hhd; intros [= <-];
          unfold adjustRow; head_cell; rewrite Hlt; cbn; rewrite Hgt;
          unfold rowOffsetHeight; cbn; rewrite Hhd; cbn;
          by rewrite !setCellTransform_absorb.
      * destruct t; cbn; rewrite ?Hlt, ?Hgt; cbn; rewrite ?Hgt;
          unfold rowOffsetHeight; cbn; rewrite Hhd; intros [= <-];
          unfold adjustRow; head_cell; rewrite Hlt; cbn; rewrite Hgt;
          unfold rowOffsetHeight; cbn; by rewrite Hhd.
Qed.

Lemma adjustRow_setRowTransform c d s t r r1 :
  adjustRow c d s r = Returns r1 ->
  adjustRow c d s (setRowTransform t r) = Returns (setRowTransform t r1).
Proof.
  destruct r as [i hd [|[ch t0] cs] sh rt]; [by rewrite adjustRow_throws|].
  unfold adjustRow. head_cell.
  destruct t0; cbn; destruct (i <? c); cbn; try (by intros [= <-]);
    destruct (i >? c); cbn; try (by intros [= <-]);
    unfold rowOffsetHeight; cbn; destruct (ch >? d); by intros [= <-].
Qed.

Lemma stackRows_idem tb prev l :
  stackRows tb prev (stackRows tb prev l) = stackRows tb prev l.
Proof.
  revert tb prev. induction l as [|r l IH]; intros tb prev; [done|].
  cbn [stackRows]. f_equal. apply IH.
Qed.

Lemma stackRows_Forall (P : DataGridRow -> Prop) tb prev l :
  (forall t r, P r -> P (setRowTransform t r)) ->
  Forall P l -> Forall P (stackRows tb prev l).
Proof.
  intros HP Hl. revert tb prev.
  induction Hl as [|r l Hr _ IH]; intros tb prev; cbn [stackRows];
    constructor; auto.
Qed.

(** The last step on an array given by its rows before the last one and the
    last one. *)
Lemma glueLast_snoc body l :
  glueLast (body ++ [l])
  = body ++ [match last body with
             | Some pre =>
                 if index pre =? index l - 1 then
                   setRowTransform
                     (Some (rowOffsetHeight pre + getTranslateY (rowTransform pre))) l
                 else l
             | None => l
             end].
Proof.
  unfold glueLast. rewrite at_last_index, last_snoc.
  assert (length (body ++ [l]) = S (length body)) as Hlen
    by (rewrite length_app; cbn [length]; lia).
  rewrite Hlen.
  replace (Z.of_nat (S (length body)) - 2) with (Z.of_nat (length body) - 1) by lia.
  destruct (last body) as [pre|] eqn:Hpre.
  - assert (at_ (body ++ [l]) (Z.of_nat (length body) - 1) = Some pre) as ->.
    { rewrite last_lookup in Hpre.
      assert (body <> []) as Hne by (intros ->; done).
      replace (Z.of_nat (length body) - 1) with (Z.of_nat (pred (length body)))
        by (destruct body; [done|cbn [length]; lia]).
      rewrite at_lookup, lookup_app_l; [done|].
      destruct body; [done|cbn [length]; lia]. }
    destruct (index pre =? index l - 1); [|done].
    unfold put.
    replace (Z.to_nat (Z.of_nat (S (length body)) - 1)) with (length body + 0)%nat
      by lia.
    by rewrite insert_app_r.
  - apply last_None in Hpre as ->. cbn [length app].
    assert (at_ [l] (Z.of_nat 0 - 1) = None) as ->; [|done].
    apply at_None. cbn [length]. lia.
Qed.

Lemma glueLast_idem rs : glueLast (glueLast rs) = glueLast rs.
Proof.
  destruct (last rs) as [l|] eqn:Hl.
  - apply last_Some in Hl as [body ->]. rewrite glueLast_snoc.
    destruct (last body) as [pre|] eqn:Hpre.
    + destruct (index pre =? index l - 1) eqn:Hadj.
      * rewrite glueLast_snoc, Hpre. cbn [index setRowTransform]. by rewrite Hadj.
      * by rewrite glueLast_snoc, Hpre, Hadj.
    + by rewrite glueLast_snoc, Hpre.
  - by apply last_None in Hl as ->.
Qed.

Lemma glueLast_Forall (P : DataGridRow -> Prop) rs :
  (forall t r, P r -> P (setRowTransform t r)) ->
  Forall P rs -> Forall P (glueLast rs).
Proof.
  intros HP Hrs.
  destruct (last rs) as [l|] eqn:Hl.
  - apply last_Some in Hl as [body ->]. rewrite glueLast_snoc.
    apply Forall_app in Hrs as [Hbody Hlast]. apply Forall_inv in Hlast.
    apply Forall_app. split; [done|]. apply Forall_singleton.
    destruct (last body) as [pre|]; [|done].
    destruct (index pre =? index l - 1); [by apply HP|done].
  - by apply last_None in Hl as ->.
Qed.

Lemma eachRow_fixed f l :
  Forall (fun r => f r = Returns r) l -> eachRow f l = Returns l.
Proof.
  induction 1 as [|r l Hr _ IH]; [done|]. cbn [eachRow]. by rewrite Hr, IH.
Qed.

Lemma adjustRowHeights_again v v' :
  (forall r r', index r = index r' ->
                getDefaultTopOffset r = getDefaultTopOffset r') ->
  adjustRowHeights v = Returns v' ->
  adjustRowHeights v' = Returns v'.
Proof.
  intros Htop Hv.
  destruct (adjustRowHeights_shape _ _ Hv)
    as (first & rest & f1 & rest1 & Hrows & Heach & Hlen & Hrs' & Hv').
  pose proof (adjustRowHeights_frame _ _ Hv) as (Hd & Hc & _ & _ & _ & Hs & _).
  set (top := getDefaultTopOffset first) in *.
  set (c := rowCursor v) in *. set (d := defaultRowHeight v) in *.
  set (s := scrollTop (viewport v)) in *.
  set (Fixed := fun r => adjustRow c d s r = Returns r).
  assert (forall t r, Fixed r -> Fixed (setRowTransform t r)) as Hclosed.
  { intros t r Hr. by apply adjustRow_setRowTransform. }
  pose proof (eachRow_Forall2 _ _ _ Heach) as Hall.
  assert (index f1 = index first) as Hif1.
  { inversion Hall as [|? ? ? ? Hf _]; subst. by apply adjustRow_inv in Hf as (? & _). }
  assert (Forall Fixed (f1 :: rest1)) as Hfixed1.
  { clear -Hall. induction Hall as [|r r1 l l1 Hr _ IH]; constructor; [|done].
    by eapply adjustRow_idem. }
  apply Forall_cons in Hfixed1 as [Hf1 Hrest1].
  assert (forall rs3, rows (viewport v') = rs3 ->
            Returns (setViewport (setRows rs3 (viewport v')) v') = Returns v') as Hback.
  { intros rs3 <-. clear. by destruct v' as [? ? [] ?]. }
  destruct (last rest1) as [lst|] eqn:Hlst.
  - apply last_Some in Hlst as [body ->].
    assert ((length (body ++ [lst]) - 1)%nat = length body) as Hn
      by (rewrite length_app; cbn [length]; lia).
    rewrite Hn, take_app_length, drop_app_length in Hrs'.
    apply Forall_app in Hrest1 as [Hbody Hlast].
    set (st := stackRows top f1 body) in *.
    change (f1 :: st ++ [lst]) with ((f1 :: st) ++ [lst]) in Hrs'.
    rewrite glueLast_snoc in Hrs'.
    set (l' := match last (f1 :: st) with
               | Some pre =>
                   if index pre =? index lst - 1 then
                     setRowTransform
                       (Some (rowOffsetHeight pre + getTranslateY (rowTransform pre)))
                       lst
                   else lst
               | None => lst
               end) in *.
    assert (Fixed l') as Hl'.
    { subst l'. apply Forall_inv in Hlast.
      destruct (last (f1 :: st)) as [pre|]; [|done].
      destruct (index pre =? index lst - 1); [by apply Hclosed|done]. }
    assert (Forall Fixed st) as Hst by (by apply stackRows_Forall).
    assert (eachRow (adjustRow (rowCursor v') (defaultRowHeight v')
                       (scrollTop (viewport v'))) (f1 :: st ++ [l'])
            = Returns (f1 :: st ++ [l'])) as Heach'.
    { rewrite Hc, Hd, Hs. apply eachRow_fixed. constructor; [done|].
      apply Forall_app. split; [done|]. by apply Forall_singleton. }
    rewrite (adjustRowHeights_exact v' f1 (st ++ [l']) f1 (st ++ [l']) Hrs' Heach').
    assert ((length (st ++ [l']) - 1)%nat = length st) as Hn'
      by (rewrite length_app; cbn [length]; lia).
    rewrite Hn', take_app_length, drop_app_length.
    rewrite (Htop f1 first Hif1). fold top. subst st. rewrite stackRows_idem.
    change (f1 :: stackRows top f1 body ++ [l'])
      with ((f1 :: stackRows top f1 body) ++ [l']).
    assert (glueLast ((f1 :: stackRows top f1 body) ++ [l'])
            = (f1 :: stackRows top f1 body) ++ [l']) as ->.
    { subst l'. rewrite <- glueLast_snoc. apply glueLast_idem. }
    by apply Hback.
  - apply last_None in Hlst as ->. rewrite take_nil, drop_nil in Hrs'.
    cbn [stackRows app] in Hrs'.
    rewrite glueLast_short in Hrs' by (cbn [length]; lia).
    assert (eachRow (adjustRow (rowCursor v') (defaultRowHeight v')
                       (scrollTop (viewport v'))) [f1] = Returns [f1]) as Heach'.
    { rewrite Hc, Hd, Hs. apply eachRow_fixed. by constructor. }
    rewrite (adjustRowHeights_exact v' f1 [] f1 [] Hrs' Heach').
    rewrite take_nil, drop_nil. cbn [stackRows app].
    rewrite glueLast_short by (cbn [length]; lia).
    by apply Hback.
Qed.

(** X3: Running the pass again changes nothing: on a state the pass returned,
    under the same cursor and scroll offset, it returns that very state, and
    so does [reflowRows] called twice when reflowing a row leaves it as it is
    (no change of geometry in between).  The default top offset of a row is
    taken to depend on its index only. *)
Theorem height_pass_idempotent v v' :
  (forall r r', index r = index r' ->
                getDefaultTopOffset r = getDefaultTopOffset r') ->
  (adjustRowHeights v = Returns v' -> adjustRowHeights v' = Returns v')
  /\ ((forall r, reflow r = r) ->
      reflowRows v = Returns v' -> reflowRows v' = Returns v').
Proof.
  intros Htop. split; [by apply adjustRowHeights_again|].
  intros Hid. unfold reflowRows.
  assert (forall l : list DataGridRow, reflow <$> l = l) as Hmap.
  { intros l. rewrite <- (list_fmap_id l) at 2. by apply list_fmap_ext. }
  assert (forall w, setViewport (setRows (rows (viewport w)) (viewport w)) w = w)
    as Hsame by (by intros [? ? [] ?]).
  rewrite !Hmap, !Hsame.
  destruct (Z.ltb_spec (Z.of_nat (length (rows (viewport v)))) 1) as [Hlt|Hge].
  - intros [= <-]. destruct (Z.ltb_spec (Z.of_nat (length (rows (viewport v)))) 1);
      [done|lia].
  - intros Hv. pose proof (adjustRowHeights_index_handle _ _ Hv) as [Hi _].
    apply (f_equal length) in Hi. rewrite !length_fmap in Hi. rewrite Hi.
    destruct (Z.ltb_spec (Z.of_nat (length (rows (viewport v)))) 1); [lia|].
    by apply (adjustRowHeights_again v v').
Qed.

(** ** Reflow *)

(** X4: [reflowRows] tests for an empty window, which it leaves alone, and
    otherwise reflows every row and runs the height pass.  It returns
    whenever the reflowed rows have cells, and it changes neither the cursor
    nor the scroll offset nor which row objects are in the window: none is
    constructed or destroyed.  Reflowing a row is taken to keep its index
    and identity. *)
Theorem reflowRows_keeps_window v :
  (forall r, index (reflow r) = index r /\ handle (reflow r) = handle r) ->
  (rows (viewport v) = [] -> reflowRows v = Returns v)
  /\ (Forall (fun r => hasCells (reflow r)) (rows (viewport v)) ->
      exists v', reflowRows v = Returns v')
  /\ forall v', reflowRows v = Returns v' ->
       rowCursor v' = rowCursor v
       /\ scrollTop (viewport v') = scrollTop (viewport v)
       /\ index <$> rows (viewport v') = index <$> rows (viewport v)
       /\ handle <$> rows (viewport v') = handle <$> rows (viewport v)
       /\ destroyed (viewport v') = destroyed (viewport v)
       /\ nextHandle (viewport v') = nextHandle (viewport v).
Proof.
  intros Hkeep.
  assert (index <$> (reflow <$> rows (viewport v)) = index <$> rows (viewport v)
          /\ handle <$> (reflow <$> rows (viewport v)) = handle <$> rows (viewport v))
    as [Hi Hh].
  { rewrite <- !list_fmap_compose.
    split; apply list_fmap_ext; intros k r _; cbn; apply Hkeep. }
  unfold reflowRows. split; [by intros ->|]. split.
  - intros Hcells.
    destruct (Z.ltb_spec (Z.of_nat (length (rows (viewport v)))) 1) as [Hlt|Hge];
      [by eexists|].
    apply adjustRowHeights_returns; cbn [viewport rows setViewport setRows].
    + destruct (rows (viewport v)); [cbn [length] in Hge; lia|done].
    + by apply Forall_fmap.
  - intros v'.
    destruct (Z.ltb_spec (Z.of_nat (length (rows (viewport v)))) 1) as [Hlt|Hge].
    { by intros [= <-]. }
    intros Hv'.
    pose proof (adjustRowHeights_frame _ _ Hv')
      as (_ & Hc & _ & _ & _ & Hs & Hds & Hnh).
    pose proof (adjustRowHeights_index_handle _ _ Hv') as (Hi' & Hh').
    cbn [viewport rows setViewport setRows rowCursor scrollTop destroyed nextHandle]
      in *.
    repeat split; congruence.
Qed.

End HeightPass.

(** * Further properties of sessions *)

Section Sessions.

Context `{Collaborators}.

Local Arguments Qfloor : simpl never.
Local Arguments Qceiling : simpl never.
Local Arguments Qminus : simpl never.
Local Arguments Qmult : simpl never.
Local Arguments Qdiv : simpl never.
Local Arguments inject_Z : simpl never.

(** ** [scroll] and [renderRows] by cases *)

Lemma scroll_inv v v' :
  scroll v = Returns v' ->
  let c := Qfloor (scrollTop (viewport v) / inject_Z (defaultRowHeight v)) in
  exists v1 v2,
    (if decide (rowCursor v = c) then Returns v else renderRows c v) = Returns v1
    /\ adjustRowHeights (setRowCursor c v1) = Returns v2
    /\ v' = setViewport (setScrollTop (scrollTop (viewport v')) (viewport v2)) v2.
Proof.
  unfold scroll.
  set (c := Qfloor (scrollTop (viewport v) / inject_Z (defaultRowHeight v))).
  cbv zeta.
  destruct (if decide (rowCursor v = c) then Returns v else renderRows c v)
    as [v1|] eqn:Hv1; [|done]. cbn [mbind Outcome_bind].
  destruct (adjustRowHeights (setRowCursor c v1)) as [v2|] eqn:Hv2; [|done].
  cbn [mbind Outcome_bind]. intros Hv'. exists v1, v2. split; [done|]. split; [done|].
  destruct (Qlt_le_dec _ _); by injection Hv' as <-.
Qed.

Lemma renderRows_empty c v :
  rows (viewport v) = [] ->
  let vp := viewport v in
  let a := firstLast vp in
  let from := rangeFrom v c in
  let n := Z.to_nat (rangeTo v c (index a) - from + 1) in
  renderRows c v =
  Returns (setViewport
             (mkTable (freshRows n from (S (nextHandle vp)) ++ [a]) (rowCount vp)
                (offsetHeight vp) (scrollTop vp) (destroyed vp)
                (S (nextHandle vp) + n)%nat) v).
Proof.
  intros Hrows. cbv zeta. rewrite renderRows_spec, Hrows. cbn [last default removelast].
  by rewrite app_nil_r.
Qed.

Lemma renderRows_snoc c v body a :
  rows (viewport v) = body ++ [a] ->
  let vp := viewport v in
  let from := rangeFrom v c in
  let n := Z.to_nat (rangeTo v c (index a) - from + 1) in
  renderRows c v =
  Returns (setViewport
             (mkTable (freshRows n from (nextHandle vp) ++ [a]) (rowCount vp)
                (offsetHeight vp) (scrollTop vp)
                (destroyed vp ++ (handle <$> body))
                (nextHandle vp + n)%nat) v).
Proof.
  intros Hrows. cbv zeta. rewrite renderRows_spec, Hrows, last_snoc, removelast_snoc.
  cbn [default]. by destruct body.
Qed.

(** ** Row objects are accounted for *)

Lemma renderRows_accounted c v0 v v' :
  accounted v0 v -> renderRows c v = Returns v' -> accounted v0 v'.
Proof.
  intros (Hle & ds & Hds & Hperm).
  destruct (last (rows (viewport v))) as [a|] eqn:Hlast.
  - apply last_Some in Hlast as [body Hrows].
    rewrite (renderRows_snoc c v body a Hrows). intros [= <-].
    unfold accounted. cbn [viewport setViewport rows destroyed nextHandle].
    split; [lia|]. exists (ds ++ (handle <$> body)).
    split; [by rewrite Hds, app_assoc|].
    rewrite Hrows, fmap_app in Hperm.
    rewrite fmap_app, freshRows_handle.
    match goal with |- context [Z.to_nat ?x] => set (n := Z.to_nat x) end.
    replace (nextHandle (viewport v) + n - nextHandle (viewport v0))%nat
      with ((nextHandle (viewport v) - nextHandle (viewport v0)) + n)%nat by lia.
    rewrite seq_app, <- Hperm.
    replace (nextHandle (viewport v0)
             + (nextHandle (viewport v) - nextHandle (viewport v0)))%nat
      with (nextHandle (viewport v)) by lia.
    cbn [fmap list_fmap]. solve_Permutation.
  - apply last_None in Hlast.
    rewrite (renderRows_empty c v Hlast). intros [= <-].
    unfold accounted. cbn [viewport setViewport rows destroyed nextHandle].
    split; [lia|]. exists ds. split; [done|].
    rewrite Hlast in Hperm. cbn [fmap list_fmap app] in Hperm.
    rewrite fmap_app, freshRows_handle.
    match goal with |- context [Z.to_nat ?x] => set (n := Z.to_nat x) end.
    replace (S (nextHandle (viewport v) + n) - nextHandle (viewport v0))%nat
      with ((nextHandle (viewport v) - nextHandle (viewport v0)) + S n)%nat by lia.
    rewrite seq_app, <- Hperm.
    replace (nextHandle (viewport v0)
             + (nextHandle (viewport v) - nextHandle (viewport v0)))%nat
      with (nextHandle (viewport v)) by lia.
    cbn [fmap list_fmap seq firstLast handle]. solve_Permutation.
Qed.

Lemma adjustRowHeights_accounted v0 v v' :
  accounted v0 v -> adjustRowHeights v = Returns v' -> accounted v0 v'.
Proof.
  intros Hacc Hv.
  pose proof (adjustRowHeights_frame _ _ Hv) as (_ & _ & _ & _ & _ & _ & Hds & Hnh).
  pose proof (adjustRowHeights_index_handle _ _ Hv) as (_ & Hh).
  unfold accounted in *. by rewrite Hds, Hnh, Hh.
Qed.

Lemma reachable_accounted v0 v : reachable v0 v -> accounted v0 v.
Proof.
  induction 1 as [v _ Hrows Hv|v s v' _ IH Hv'].
  - unfold initialRender in Hv.
    destruct (renderRows (rowCursor v0) v0) as [v1|] eqn:Hv1; [|done].
    cbn [mbind Outcome_bind] in Hv.
    eapply adjustRowHeights_accounted; [|done].
    eapply renderRows_accounted; [|done].
    split; [done|]. exists []. rewrite app_nil_r, Hrows, Nat.sub_diag. done.
  - apply scroll_inv in Hv' as (v1 & v2 & Hv1 & Hv2 & ->).
    assert (accounted v0 v2) as Hacc; [|done].
    eapply adjustRowHeights_accounted; [|done].
    assert (accounted v0 v1) as Hacc1; [|done].
    destruct (decide _); [by injection Hv1 as <-|].
    exact (renderRows_accounted _ v0 (scrollTo s v) v1 IH Hv1).
Qed.

(** X5: After [initialRender()] and any scroll events, every row object that was
    constructed is either in the window or was destroyed, and never both: the
    handles of the window and the handles destroyed since the start are, in
    some order and without repetition, the handles handed out.  No object is
    destroyed twice and none is dropped without being destroyed. *)
Theorem row_objects_accounted v0 v :
  reachable v0 v ->
  exists ds,
    destroyed (viewport v) = destroyed (viewport v0) ++ ds
    /\ (handle <$> rows (viewport v)) ++ ds
       ≡ₚ seq (nextHandle (viewport v0))
            (nextHandle (viewport v) - nextHandle (viewport v0))
    /\ NoDup ((handle <$> rows (viewport v)) ++ ds)
    /\ forall h, (nextHandle (viewport v0) <= h < nextHandle (viewport v))%nat ->
                 h ∈ handle <$> rows (viewport v) \/ h ∈ ds.
Proof.
  intros Hreach. destruct (reachable_accounted _ _ Hreach) as (Hle & ds & Hds & Hperm).
  exists ds. split; [done|]. split; [done|]. split.
  - rewrite Hperm. apply NoDup_seq.
  - intros h Hh. apply elem_of_app. rewrite Hperm. apply elem_of_seq. lia.
Qed.

(** ** Indexes within the table *)

(** X6: In a table that has a row and at least the rows of a page, every row
    object of the window has an index of the table, whatever the scroll
    offsets were (tables shorter than a page are the case of C9). *)
Theorem window_indexes_valid v0 v :
  reachable v0 v ->
  1 <= rowCount (viewport v) ->
  rowsPerPage v <= rowCount (viewport v) ->
  Forall (fun i => 0 <= i < rowCount (viewport v)) (windowIndexes v).
Proof.
  intros Hreach HN Hp.
  pose proof (reachable_Inv _ _ Hreach) as (_ & Hw & _).
  unfold windowAt in Hw. rewrite Hw. apply Forall_app. split.
  - unfold indexRun. apply Forall_seqZ. unfold rangeFrom, rangeTo. lia.
  - apply Forall_singleton. lia.
Qed.

(** ** Scrolling within a row *)

(** X7: A scroll event to an offset in the same row as the scroll event before it
    (the same [floor(scrollTop / defaultRowHeight)]) renders nothing: the
    window holds the same row objects afterwards, none is constructed and
    none is destroyed. *)
Theorem scroll_within_row v v1 s v2 :
  0 < defaultRowHeight v ->
  scroll v = Returns v1 ->
  Qfloor (s / inject_Z (defaultRowHeight v))
  = Qfloor (scrollTop (viewport v) / inject_Z (defaultRowHeight v)) ->
  scroll (scrollTo s v1) = Returns v2 ->
  rowCursor v2 = rowCursor v1
  /\ index <$> rows (viewport v2) = index <$> rows (viewport v1)
  /\ handle <$> rows (viewport v2) = handle <$> rows (viewport v1)
  /\ destroyed (viewport v2) = destroyed (viewport v1)
  /\ nextHandle (viewport v2) = nextHandle (viewport v1).
Proof.
  intros Hd Hv1 Hrow Hv2.
  apply scroll_inv in Hv1 as (w1 & w2 & Hw1 & Hw2 & Hv1).
  pose proof (adjustRowHeights_frame _ _ Hw2) as (Hd2 & Hc2 & _).
  assert (defaultRowHeight w1 = defaultRowHeight v) as Hd1.
  { destruct (decide _); [by injection Hw1 as <-|].
    by apply renderRows_frame in Hw1 as ((? & _) & _). }
  assert (rowCursor v1
          = Qfloor (scrollTop (viewport v) / inject_Z (defaultRowHeight v))
          /\ defaultRowHeight v1 = defaultRowHeight v) as [Hc1 Hdv1].
  { rewrite Hv1. cbn [rowCursor defaultRowHeight setViewport].
    rewrite Hc2, Hd2. by cbn. }
  apply scroll_inv in Hv2 as (u1 & u2 & Hu1 & Hu2 & Hv2).
  cbn [scrollTo viewport setViewport setScrollTop scrollTop defaultRowHeight rowCursor]
    in Hu1, Hu2.
  rewrite Hdv1, Hrow, <- Hc1 in Hu1, Hu2.
  destruct (decide (rowCursor v1 = rowCursor v1)) as [_|]; [|done].
  injection Hu1 as <-.
  pose proof (adjustRowHeights_frame _ _ Hu2) as (_ & Hcu & _ & _ & _ & _ & Hds & Hnh).
  pose proof (adjustRowHeights_index_handle _ _ Hu2) as (Hi & Hh).
  rewrite Hv2. cbn [rowCursor viewport setViewport setScrollTop rows destroyed nextHandle].
  by rewrite Hcu, Hi, Hh, Hds, Hnh.
Qed.

(** X8: A scroll event that moves the cursor renders the window anew: every row
    object but the last one is destroyed, also those whose index stays in
    the window; the last row object is kept, and the rows before it are
    newly constructed, with the handles handed out next. *)
Theorem scroll_across_rows v v' a :
  rowCursor v
  <> Qfloor (scrollTop (viewport v) / inject_Z (defaultRowHeight v)) ->
  last (rows (viewport v)) = Some a ->
  scroll v = Returns v' ->
  destroyed (viewport v')
  = destroyed (viewport v) ++ (handle <$> removelast (rows (viewport v)))
  /\ exists news a',
       rows (viewport v') = news ++ [a']
       /\ handle a' = handle a /\ index a' = index a
       /\ handle <$> news = seq (nextHandle (viewport v)) (length news)
       /\ nextHandle (viewport v')
          = (nextHandle (viewport v) + length news)%nat.
Proof.
  intros Hmove Ha Hv'.
  apply scroll_inv in Hv' as (w1 & w2 & Hw1 & Hw2 & Hv').
  destruct (decide _) as [Heq|_]; [by destruct Hmove|].
  pose proof (adjustRowHeights_frame _ _ Hw2) as (_ & _ & _ & _ & _ & _ & Hds & Hnh).
  pose proof (adjustRowHeights_index_handle _ _ Hw2) as (Hi & Hh).
  rewrite Hv'. cbn [viewport setViewport setScrollTop rows destroyed nextHandle].
  rewrite Hds, Hnh. clear Hds Hnh Hw2 Hv'.
  revert Hi Hh. rewrite renderRows_spec in Hw1. injection Hw1 as <-.
  cbn [viewport setViewport setRowCursor rows destroyed nextHandle].
  rewrite Ha. cbn [default].
  destruct (rows (viewport v)) as [|r0 l] eqn:Hrows; [done|].
  rewrite !fmap_app, freshRows_handle, freshRows_index.
  cbn [fmap list_fmap]. intros Hi Hh. split; [done|].
  apply fmap_app_inv in Hh as (news & tl & Hnews & Htl & Hrs).
  destruct tl as [|a' [|? ?]]; [done| |done]. injection Htl as Htl.
  rewrite Hrs, fmap_app in Hi. cbn [fmap list_fmap] in Hi.
  apply app_inj_tail in Hi as [_ Hia].
  assert (length news = Z.to_nat (rangeTo v
            (Qfloor (scrollTop (viewport v) / inject_Z (defaultRowHeight v)))
            (index a)
          - rangeFrom v
              (Qfloor (scrollTop (viewport v) / inject_Z (defaultRowHeight v)))
          + 1)) as Hlen.
  { apply (f_equal length) in Hnews. by rewrite length_fmap, length_seq in Hnews. }
  exists news, a'. rewrite Hlen. done.
Qed.

(** ** Heights after a scroll event *)

Lemma adjustRow_head_height c d s r r1 cell1 :
  adjustRow c d s r = Returns r1 ->
  head (cells r1) = Some cell1 ->
  exists cell0, head (cells r) = Some cell0
                /\ cellOffsetHeight cell0 = cellOffsetHeight cell1.
Proof.
  destruct r as [i hd [|[ch t0] cs] sh rt]; [by rewrite adjustRow_throws|].
  intros Hr Hc1. exists (mkCell ch t0). split; [done|]. revert Hr Hc1.
  unfold adjustRow. cbn. change (Z.to_nat 0) with 0%nat. cbn.
  destruct t0; cbn; destruct (i <? c); cbn;
    try (intros [= <-]; cbn; by intros [= <-]);
    destruct (i >? c); cbn; try (intros [= <-]; cbn; by intros [= <-]);
    unfold rowOffsetHeight; cbn; destruct (ch >? d);
    intros [= <-]; cbn; by intros [= <-].
Qed.

(** X9: After a scroll event every row of the window has an explicit height
    between the default row height [d] and its natural height [h] (the
    measured height of its first cell).  For the first visible row, when it
    is higher than the default, the height is between [d] and [h] and every
    cell is translated by the same amount, between [d - h] and [0]. *)
Theorem scroll_heights_between v v' k r' cell0 :
  0 < defaultRowHeight v ->
  scroll v = Returns v' ->
  rows (viewport v') !! k = Some r' ->
  head (cells r') = Some cell0 ->
  let d := defaultRowHeight v in
  let h := cellOffsetHeight cell0 in
  exists a,
    styleHeight r' = Some a
    /\ Z.min d h <= a <= Z.max d h
    /\ (index r' = rowCursor v' -> d < h ->
        Forall (fun cell => cellTransform cell = Some (a - h)) (cells r')
        /\ d - h <= a - h <= 0).
Proof.
  intros Hd Hv' Hk Hcell d h.
  apply scroll_inv in Hv' as (v1 & v2 & Hv1 & Hv2 & Hv').
  assert (defaultRowHeight v1 = defaultRowHeight v
          /\ scrollTop (viewport v1) = scrollTop (viewport v)) as [Hd1 Hs1].
  { destruct (decide _); [by injection Hv1 as <-|].
    by apply renderRows_frame in Hv1 as ((? & _) & _ & ?). }
  pose proof (adjustRowHeights_frame _ _ Hv2) as (_ & Hc2 & _).
  rewrite Hv' in Hk. cbn [viewport setViewport rows setScrollTop] in Hk.
  assert (rowCursor v' = rowCursor v2) as Hcv by (by rewrite Hv').
  pose proof (adjustRowHeights_rows _ _ Hv2) as Hrows.
  destruct (Forall2_lookup_r _ _ _ _ _ Hrows Hk) as (r & _ & r1 & Hr1 & Hbox).
  cbn [rowCursor defaultRowHeight viewport scrollTop setRowCursor] in Hr1, Hc2.
  rewrite Hd1, Hs1 in Hr1.
  unfold box in Hbox. injection Hbox as Hbi _ Hbc Hbs.
  rewrite Hbc in Hcell.
  destruct (adjustRow_head_height _ _ _ _ _ _ Hr1 Hcell) as (cell & Hcell' & Hheight).
  apply adjustRow_inv in Hr1
    as (Hi & _ & _ & _ & cell'' & Hcell'' & Hlt & Hgt & Hle & Heq).
  rewrite Hcell' in Hcell''. injection Hcell'' as <-.
  rewrite Hheight in Hgt, Hle, Heq. fold h in Hgt, Hle, Heq.
  fold d in Hlt, Hgt, Hle, Heq.
  rewrite Hbs, Hbc, Hbi, Hcv, Hc2.
  set (c := Qfloor (scrollTop (viewport v) / inject_Z (defaultRowHeight v))) in *.
  destruct (Z.lt_trichotomy (index r) c) as [Hcmp|[Hcmp|Hcmp]].
  - exists d. split; [by apply Hlt|]. split; [lia|]. rewrite Hi. lia.
  - destruct (Z_lt_le_dec d h) as [Hdh|Hdh].
    + destruct (Heq Hcmp ltac:(lia)) as [Hs Hcells].
      pose proof (interpolated_between d h (scrollTop (viewport v)) Hd Hdh) as Hbetween.
      fold c in Hbetween. eexists. split; [exact Hs|]. split; [lia|].
      intros _ _. split; [exact Hcells|lia].
    + exists h. split; [by apply Hle|]. split; [lia|]. intros _ ?. lia.
  - exists h. split; [apply Hgt; change (index r > c); lia|]. split; [lia|].
    rewrite Hi. lia.
Qed.

(** ** Translated cells *)

Lemma adjustRow_untranslated c d s r r1 :
  firstCellTells r ->
  adjustRow c d s r = Returns r1 ->
  firstCellTells r1 /\ (index r1 <> c -> untranslated r1).
Proof.
  destruct r as [i hd [|[ch t0] cs] sh rt]; [by rewrite adjustRow_throws|].
  intros Htells.
  assert (forall l : list DataGridCell,
            Forall (fun cell => cellTransform cell = None) (setCellTransform None <$> l))
    as Hreset by (intros l; by apply Forall_fmap, Forall_true).
  assert (t0 = None -> Forall (fun cell => cellTransform cell = None) cs) as Hclean.
  { intros ->. assert (untranslated (mkRow i hd (mkCell ch None :: cs) sh rt)) as Hu.
    { apply Htells. by eexists. }
    by apply Forall_inv_tail in Hu. }
  assert (forall r2, untranslated r2 ->
            firstCellTells r2 /\ (index r2 <> c -> untranslated r2)) as Hboth.
  { intros r2 Hu. split; [by intros _|done]. }
  unfold adjustRow. cbn. change (Z.to_nat 0) with 0%nat. cbn.
  destruct t0 as [z|]; cbn.
  - destruct (Z.ltb_spec i c); cbn.
    { intros [= <-]. apply Hboth. by constructor. }
    destruct (Z.gtb_spec i c); cbn.
    { intros [= <-]. apply Hboth. by constructor. }
    unfold rowOffsetHeight; cbn. destruct (ch >? d).
    + intros [= <-]. split; [|cbn; lia].
      intros (cell0 & Hhead & Hnone). cbn in Hhead. injection Hhead as <-. done.
    + intros [= <-]. apply Hboth. by constructor.
  - specialize (Hclean eq_refl).
    destruct (Z.ltb_spec i c); cbn.
    { intros [= <-]. apply Hboth. by constructor. }
    destruct (Z.gtb_spec i c); cbn.
    { intros [= <-]. apply Hboth. by constructor. }
    unfold rowOffsetHeight; cbn. destruct (ch >? d).
    + intros [= <-]. split; [|cbn; lia].
      intros (cell0 & Hhead & Hnone). cbn in Hhead. injection Hhead as <-. done.
    + intros [= <-]. apply Hboth. by constructor.
Qed.

Lemma adjustRowHeights_untranslated v v' :
  Forall firstCellTells (rows (viewport v)) ->
  adjustRowHeights v = Returns v' ->
  Forall (fun r => firstCellTells r /\ (index r <> rowCursor v -> untranslated r))
    (rows (viewport v')).
Proof.
  intros Htells Hv. apply adjustRowHeights_rows in Hv.
  induction Hv as [|r r' l l' (r1 & Hr1 & Hbox) _ IH]; [constructor|].
  apply Forall_cons in Htells as [Hr Hl]. constructor; [|by apply IH].
  destruct (adjustRow_untranslated _ _ _ _ _ Hr Hr1) as [Ht Hu].
  unfold box in Hbox. injection Hbox as Hbi _ Hbc _.
  unfold firstCellTells, untranslated in *. by rewrite Hbc, Hbi.
Qed.

Lemma renderRows_firstCellTells c v v' :
  (forall i, Forall (fun cell => cellTransform cell = None) (fst (render i))) ->
  Forall firstCellTells (rows (viewport v)) ->
  renderRows c v = Returns v' ->
  Forall firstCellTells (rows (viewport v')).
Proof.
  intros Hrender Htells. rewrite renderRows_spec. intros [= <-].
  cbn [viewport setViewport rows].
  assert (forall r, cells r = fst (render (index r)) -> firstCellTells r) as Hfresh.
  { intros r Hr _. unfold untranslated. rewrite Hr. apply Hrender. }
  apply Forall_app. split.
  - apply Forall_forall. intros r Hr. by apply Hfresh, (freshRows_cells _ _ _ _ Hr).
  - apply Forall_singleton.
    destruct (last (rows (viewport v))) as [a|] eqn:Ha; cbn [default].
    + apply last_Some_elem_of in Ha. by eapply Forall_forall in Htells.
    + by apply Hfresh.
Qed.

(** X10: When rows are rendered with cells that carry no transform, then after
    [initialRender()] and after every scroll event only the first visible
    row, the row of the cursor, can have translated cells: the height pass
    clears the translation a row got while it was the first visible one. *)
Theorem only_cursor_row_translated v0 v :
  (forall i, Forall (fun cell => cellTransform cell = None) (fst (render i))) ->
  reachable v0 v ->
  Forall (fun r => index r <> rowCursor v -> untranslated r) (rows (viewport v)).
Proof.
  intros Hrender Hreach.
  assert (Forall (fun r => firstCellTells r
                           /\ (index r <> rowCursor v -> untranslated r))
            (rows (viewport v))) as Hboth.
  { induction Hreach as [v _ Hrows Hv|v s v' _ IH Hv'].
    - unfold initialRender in Hv.
      destruct (renderRows (rowCursor v0) v0) as [v1|] eqn:Hv1; [|done].
      cbn [mbind Outcome_bind] in Hv.
      pose proof (renderRows_frame _ _ _ Hv1) as (_ & Hc1 & _).
      pose proof (adjustRowHeights_frame _ _ Hv) as (_ & Hc & _).
      rewrite Hc. apply (adjustRowHeights_untranslated v1 v); [|done].
      apply (renderRows_firstCellTells (rowCursor v0) v0 v1 Hrender); [|done].
      rewrite Hrows. constructor.
    - apply scroll_inv in Hv' as (v1 & v2 & Hv1 & Hv2 & ->).
      cbn [viewport setViewport rows setScrollTop rowCursor].
      pose proof (adjustRowHeights_frame _ _ Hv2) as (_ & Hc & _).
      rewrite Hc. apply adjustRowHeights_untranslated; [|done].
      cbn [setRowCursor viewport].
      assert (Forall firstCellTells (rows (viewport (scrollTo s v)))) as Htells.
      { eapply Forall_impl; [exact IH|]. by intros r [? _]. }
      destruct (decide _); [by injection Hv1 as <-|].
      by eapply (renderRows_firstCellTells _ (scrollTo s v) v1 Hrender Htells). }
  eapply Forall_impl; [exact Hboth|]. by intros r [_ ?].
Qed.

End Sessions.

(** * Properties of columns *)

Section Columns.

Lemma toggleClass_last (name : string) b b' e :
  Column.toggleClass b name (Column.toggleClass b' name e) = Column.toggleClass b name e.
Proof.
  destruct e as [attrs cl]. unfold Column.toggleClass. cbn. f_equal.
  apply set_eq. intros x. destruct (decide (x = name)); destruct b, b'; set_solver.
Qed.

Lemma toggleClass_back (name : string) e :
  name ∉ Column.classList e -> Column.toggleClass false name (Column.toggleClass true name e) = e.
Proof.
  destruct e as [attrs cl]. unfold Column.toggleClass. cbn. intros Hnot. f_equal.
  set_solver.
Qed.

(** X11: Cells registered in a column are kept in the order of registration after
    the cells it had, each with the attribute [column-id] set to the id of
    the column and with its class list and its other attributes as they
    were; the id of the column does not change. *)
Theorem column_cells_registered col (cs : list Column.HTMLElement) :
  let col' := foldl (fun c e => Column.registerCell e c) col cs in
  Column.cells col'
  = Column.cells col ++ (Column.setAttribute "column-id" (Column.id col) <$> cs)
  /\ Column.id col' = Column.id col
  /\ forall k e, cs !! k = Some e ->
       exists e',
         Column.cells col' !! (length (Column.cells col) + k)%nat = Some e'
         /\ Column.attributes e' !! "column-id" = Some (Column.id col)
         /\ Column.classList e' = Column.classList e
         /\ forall name, name <> "column-id" ->
                         Column.attributes e' !! name = Column.attributes e !! name.
Proof.
  cbv zeta.
  assert (Column.cells (foldl (fun c e => Column.registerCell e c) col cs)
          = Column.cells col
            ++ (Column.setAttribute "column-id" (Column.id col) <$> cs)
          /\ Column.id (foldl (fun c e => Column.registerCell e c) col cs)
             = Column.id col) as [Hcells Hid].
  { revert col. induction cs as [|e cs IH]; intros col.
    - cbn. by rewrite app_nil_r.
    - cbn [foldl]. destruct (IH (Column.registerCell e col)) as [-> ->].
      cbn [Column.registerCell Column.cells Column.id fmap list_fmap].
      by rewrite <- app_assoc. }
  split; [done|]. split; [done|].
  intros k e Hk. exists (Column.setAttribute "column-id" (Column.id col) e).
  split.
  - rewrite Hcells, lookup_app_r by lia.
    replace (length (Column.cells col) + k - length (Column.cells col))%nat
      with k by lia.
    by rewrite list_lookup_fmap, Hk.
  - cbn [Column.setAttribute Column.attributes Column.classList].
    split; [apply lookup_insert_eq|].
    split; [done|]. intros name Hname. by apply lookup_insert_ne.
Qed.

(** X12: [setHover(hovered)] gives the class of hovered columns to the head element
    (when there is one) and to every cell, or takes it from them, and leaves
    every other class, the attributes, the cells and the width of the
    column as they are. *)
Theorem column_setHover_effect (hoveredColumn : string) hovered col :
  let col' := Column.setHover hoveredColumn hovered col in
  Column.width col' = Column.width col /\ Column.id col' = Column.id col
  /\ Column.index col' = Column.index col
  /\ length (Column.cells col') = length (Column.cells col)
  /\ (forall k e, Column.cells col !! k = Some e ->
        exists e',
          Column.cells col' !! k = Some e'
          /\ Column.attributes e' = Column.attributes e
          /\ (hoveredColumn ∈ Column.classList e' <-> hovered = true)
          /\ forall c, c <> hoveredColumn -> (c ∈ Column.classList e' <-> c ∈ Column.classList e))
  /\ (forall e, Column.headElement col = Some e ->
        exists e',
          Column.headElement col' = Some e'
          /\ Column.attributes e' = Column.attributes e
          /\ (hoveredColumn ∈ Column.classList e' <-> hovered = true)
          /\ forall c, c <> hoveredColumn -> (c ∈ Column.classList e' <-> c ∈ Column.classList e))
  /\ (Column.headElement col = None -> Column.headElement col' = None).
Proof.
  cbv zeta.
  cbn [Column.setHover Column.width Column.id Column.index Column.cells
       Column.headElement].
  assert (forall e,
            Column.attributes (Column.toggleClass hovered hoveredColumn e) = Column.attributes e
            /\ (hoveredColumn ∈ Column.classList (Column.toggleClass hovered hoveredColumn e)
                <-> hovered = true)
            /\ forall c, c <> hoveredColumn ->
                 (c ∈ Column.classList (Column.toggleClass hovered hoveredColumn e)
                  <-> c ∈ Column.classList e)) as Hone.
  { intros [attrs cl]. unfold Column.toggleClass. cbn. split; [done|].
    destruct hovered; split; set_solver. }
  split; [done|]. split; [done|]. split; [done|].
  split; [apply length_fmap|]. split; [|split].
  - intros k e Hk. exists (Column.toggleClass hovered hoveredColumn e).
    split; [by rewrite list_lookup_fmap, Hk|]. apply Hone.
  - intros e ->. exists (Column.toggleClass hovered hoveredColumn e).
    split; [done|]. apply Hone.
  - by intros ->.
Qed.

Lemma toggleClass_back_inv (name : string) e :
  Column.toggleClass false name (Column.toggleClass true name e) = e ->
  name ∉ Column.classList e.
Proof.
  destruct e as [attrs cl]. unfold Column.toggleClass. cbn. intros [= Hcl].
  set_solver.
Qed.

(** X13: Of two calls of [setHover] the last one decides, so calling it twice
    with the same argument is calling it once; and hovering a column, then
    leaving it, gives the column back as it was exactly when none of its
    elements had the class before. *)
Theorem column_setHover_compose (hoveredColumn : string) b b' col :
  Column.setHover hoveredColumn b (Column.setHover hoveredColumn b' col)
  = Column.setHover hoveredColumn b col
  /\ (Column.setHover hoveredColumn false
        (Column.setHover hoveredColumn true col) = col
      <-> Column.noneHas hoveredColumn col).
Proof.
  destruct col as [w cs i ix hd]. unfold Column.setHover. cbn. split.
  - f_equal.
    + rewrite <- list_fmap_compose. apply list_fmap_ext. intros k e _. cbn.
      apply toggleClass_last.
    + destruct hd as [e|]; [|done]. cbn. f_equal. apply toggleClass_last.
  - unfold Column.noneHas. cbn. split.
    + intros [= Hcells Hhead]. split.
      * rewrite <- list_fmap_compose in Hcells.
        rewrite <- (list_fmap_id cs) in Hcells at 2.
        apply Forall_fmap_ext in Hcells.
        eapply Forall_impl; [exact Hcells|].
        intros e He. cbn in He. by apply toggleClass_back_inv.
      * intros e ->. cbn in Hhead. injection Hhead as Hhead.
        by apply toggleClass_back_inv.
    + intros [Hcells Hhead]. f_equal.
      * rewrite <- list_fmap_compose. rewrite <- (list_fmap_id cs) at 2.
        apply Forall_fmap_ext_1. eapply Forall_impl; [exact Hcells|].
        intros e He. cbn. by apply toggleClass_back.
      * destruct hd as [e|]; [|done]. cbn. f_equal. apply toggleClass_back.
        by apply Hhead.
Qed.

End Columns.

(** * The further properties on the sample grid *)

Lemma sample510_reachable : @reachable sampleGrid sample0 sample510.
Proof.
  apply (@reach_scroll sampleGrid sample0 sample1 510%Q).
  - exact sample1_reachable.
  - vm_compute. reflexivity.
Qed.

Lemma sampleGrid_topOffset_by_index r r' :
  index r = index r' ->
  @getDefaultTopOffset sampleGrid r = @getDefaultTopOffset sampleGrid r'.
Proof. intros Hi. unfold getDefaultTopOffset, sampleGrid. by rewrite Hi. Qed.

(** Stacking at offset 510: the first row of the window, row 23, has the
    default top offset 460 and is there; the rows 23, 24 and 25 are 20, 20
    and 30 high, so row 24 at position 1 is translated to 480, where row 23
    ends, and row 26 at position 3 to 530. *)
Lemma adjustRowHeights_stacks_sample :
  exists first r0 r1 r',
    head (rows (viewport sample510Rendered)) = Some first
    /\ @getDefaultTopOffset sampleGrid first = 460
    /\ rows (viewport sample510) !! 0%nat = Some r0
    /\ rows (viewport sample510) !! 1%nat = Some r1
    /\ rows (viewport sample510) !! 3%nat = Some r'
    /\ index r' = 26
    /\ sumHeights (take 3 (rows (viewport sample510))) = 70
    /\ rowTransform r'
       = Some (@getDefaultTopOffset sampleGrid first
               + sumHeights (take 3 (rows (viewport sample510))))
    /\ rowTransform r1
       = Some (@getTranslateY sampleGrid (rowTransform r0) + rowOffsetHeight r0).
Proof.
  exists (mkRow 23 14 [mkCell 40 None; mkCell 40 None] None (Some 460)).
  exists (mkRow 23 14 [mkCell 40 None; mkCell 40 None] (Some 20) (Some 460)).
  exists (mkRow 24 15 [mkCell 40 None; mkCell 40 None] (Some 20) (Some 480)).
  exists (mkRow 26 17 [mkCell 40 None; mkCell 40 None] (Some 40) (Some 530)).
  split; [vm_compute; reflexivity|].
  split; [vm_compute; reflexivity|].
  split; [vm_compute; reflexivity|].
  split; [vm_compute; reflexivity|].
  split; [vm_compute; reflexivity|].
  split; [vm_compute; reflexivity|].
  split; [vm_compute; reflexivity|].
  destruct (@adjustRowHeights_stacks sampleGrid sample510Rendered sample510
              (mkRow 23 14 [mkCell 40 None; mkCell 40 None] None (Some 460)))
    as (Hk & _ & H01).
  - vm_compute. reflexivity.
  - vm_compute. reflexivity.
  - split.
    + apply (Hk 3%nat).
      * lia.
      * vm_compute. lia.
      * vm_compute. reflexivity.
    + apply H01.
      * vm_compute. lia.
      * vm_compute. reflexivity.
      * vm_compute. reflexivity.
      * vm_compute. reflexivity.
Defined.

(** The last row at the end of the table: the window is [988..998] and row
    999, so the row before the last one is its neighbour, 40 high at offset
    20120, and the last row goes to 20160. *)
Lemma adjustRowHeights_first_last_sampleEnd :
  exists l',
    @adjustRowHeights sampleGrid sampleEnd = Returns sampleEnd
    /\ rowTransform <$> head (rows (viewport sampleEnd)) = Some (Some 19760)
    /\ last (rows (viewport sampleEnd)) = Some l'
    /\ index l' = 999
    /\ rowTransform l' = Some (40 + 20120).
Proof.
  assert (@adjustRowHeights sampleGrid sampleEnd = Returns sampleEnd) as Hadj
    by (vm_compute; reflexivity).
  assert (last (rows (viewport sampleEnd))
          = Some (mkRow 999 0 [mkCell 40 None; mkCell 40 None] (Some 40)
                    (Some 20160))) as Hlast
    by (vm_compute; reflexivity).
  destruct (@adjustRowHeights_first_last sampleGrid sampleEnd sampleEnd Hadj)
    as (Hfirst & l & l' & Hl & Hl' & Hi & _ & Hpre).
  exists l'.
  split; [exact Hadj|].
  split; [vm_compute; reflexivity|].
  split; [exact Hl'|].
  rewrite Hlast in Hl. injection Hl as <-.
  split; [exact Hi|].
  destruct (Hpre (mkRow 998 24 [mkCell 40 None; mkCell 40 None] (Some 40)
                    (Some 20120))) as [Hglue _].
  - vm_compute. reflexivity.
  - vm_compute. lia.
  - apply Hglue. reflexivity.
Defined.

(** Running the pass again on the sample grid at offset 510. *)
Lemma height_pass_idempotent_sample :
  @adjustRowHeights sampleGrid sample510Rendered = Returns sample510
  /\ @adjustRowHeights sampleGrid sample510 = Returns sample510
  /\ @reflowRows sampleGrid sample510 = Returns sample510.
Proof.
  assert (@adjustRowHeights sampleGrid sample510Rendered = Returns sample510)
    as Hadj by (vm_compute; reflexivity).
  destruct (@height_pass_idempotent sampleGrid sample510Rendered sample510
              sampleGrid_topOffset_by_index) as [Hpass Hreflow].
  split; [exact Hadj|]. split; [exact (Hpass Hadj)|].
  apply Hreflow.
  - intros r. reflexivity.
  - vm_compute. reflexivity.
Defined.

(** [reflowRows] on the sample grid: nothing happens before the initial
    render; after the scroll event at offset 500 the 16 row objects stay. *)
Lemma reflowRows_keeps_window_sample :
  @reflowRows sampleGrid sample0 = Returns sample0
  /\ exists v',
       @reflowRows sampleGrid sample500 = Returns v'
       /\ rowCursor v' = rowCursor sample500
       /\ handle <$> rows (viewport v') = handle <$> rows (viewport sample500)
       /\ destroyed (viewport v') = destroyed (viewport sample500).
Proof.
  destruct (@reflowRows_keeps_window sampleGrid sample0) as (Hempty & _).
  { intros r. split; reflexivity. }
  destruct (@reflowRows_keeps_window sampleGrid sample500) as (_ & Hret & Hkeep).
  { intros r. split; reflexivity. }
  split; [apply Hempty; vm_compute; reflexivity|].
  destruct Hret as (v' & Hv').
  { vm_compute. repeat constructor; discriminate. }
  destruct (Hkeep v' Hv') as (Hc & _ & _ & Hh & Hd & _).
  exists v'. split; [exact Hv'|]. split; [exact Hc|]. split; [exact Hh|exact Hd].
Defined.

(** Bookkeeping on the sample grid after the scroll event at offset 500: 29
    row objects were constructed, 16 are in the window and 13 destroyed. *)
Lemma row_objects_accounted_sample :
  nextHandle (viewport sample500) = 29%nat
  /\ length (rows (viewport sample500)) = 16%nat
  /\ exists ds,
       destroyed (viewport sample500) = destroyed (viewport sample0) ++ ds
       /\ NoDup ((handle <$> rows (viewport sample500)) ++ ds)
       /\ (3 ∈ handle <$> rows (viewport sample500) \/ 3 ∈ ds)%nat.
Proof.
  split; [vm_compute; reflexivity|].
  split; [vm_compute; reflexivity|].
  destruct (@row_objects_accounted sampleGrid sample0 sample500
              sample500_reachable) as (ds & Hd & _ & Hnd & Hall).
  exists ds. split; [exact Hd|]. split; [exact Hnd|].
  apply Hall. vm_compute. lia.
Defined.

(** The indexes of the window after the scroll event at offset 500. *)
Lemma window_indexes_valid_sample :
  windowIndexes sample500 = indexRun 23 37 ++ [999]
  /\ Forall (fun i => 0 <= i < rowCount (viewport sample500))
       (windowIndexes sample500).
Proof.
  split; [vm_compute; reflexivity|].
  apply (@window_indexes_valid sampleGrid sample0 sample500 sample500_reachable);
    vm_compute; discriminate.
Defined.

(** A scroll event at offset 510 after the one at offset 500: both offsets are
    in row 25, and the second event keeps the 16 row objects. *)
Lemma scroll_within_row_sample :
  exists v2,
    @scroll sampleGrid (scrollTo 510 sample500) = Returns v2
    /\ rowCursor v2 = 25
    /\ handle <$> rows (viewport v2) = handle <$> rows (viewport sample500)
    /\ nextHandle (viewport v2) = nextHandle (viewport sample500).
Proof.
  exists (stateOf (@scroll sampleGrid (scrollTo 510 sample500)) sample500).
  assert (@scroll sampleGrid (scrollTo 510 sample500)
          = Returns (stateOf (@scroll sampleGrid (scrollTo 510 sample500))
                       sample500)) as Hv2
    by (vm_compute; reflexivity).
  destruct (@scroll_within_row sampleGrid (scrollTo 500 sample1) sample500
              510%Q _ eq_refl eq_refl eq_refl Hv2) as (Hc & _ & Hh & _ & Hn).
  split; [exact Hv2|]. split; [|split; [exact Hh|exact Hn]].
  rewrite Hc. vm_compute. reflexivity.
Defined.

(** The scroll event at offset 510 after the initial render moves the cursor
    from 0 to 25: the 13 rows before the last one are destroyed, the last
    row object, of handle 0, stays, and the new rows get the handles from 14
    on. *)
Lemma scroll_across_rows_sample :
  rowCursor (scrollTo 510 sample1) = 0
  /\ rowCursor sample510 = 25
  /\ destroyed (viewport sample510)
     = handle <$> removelast (rows (viewport sample1))
  /\ exists news a',
       rows (viewport sample510) = news ++ [a']
       /\ handle a' = 0%nat
       /\ handle <$> news = seq 14 (length news).
Proof.
  split; [vm_compute; reflexivity|].
  split; [vm_compute; reflexivity|].
  destruct (@scroll_across_rows sampleGrid (scrollTo 510 sample1) sample510
              sampleAnchor)
    as (Hd & news & a' & Hrs & Hha & _ & Hnews & _).
  - vm_compute. discriminate.
  - vm_compute. reflexivity.
  - vm_compute. reflexivity.
  - split; [exact Hd|].
    exists news, a'. split; [exact Hrs|]. split; [exact Hha|exact Hnews].
Defined.

(** The heights after the scroll event at offset 510: the first visible row,
    row 25, is between 20 and 40 high and its cells are moved up by what it
    lost. *)
Lemma scroll_heights_between_sample :
  exists r' a,
    rows (viewport sample510) !! 2%nat = Some r'
    /\ index r' = 25
    /\ styleHeight r' = Some a
    /\ 20 <= a <= 40
    /\ Forall (fun cell => cellTransform cell = Some (a - 40)) (cells r').
Proof.
  exists (mkRow 25 16 [mkCell 40 (Some (-10)); mkCell 40 (Some (-10))]
            (Some 30) (Some 500)).
  destruct (@scroll_heights_between sampleGrid (scrollTo 510 sample1) sample510
              2%nat
              (mkRow 25 16 [mkCell 40 (Some (-10)); mkCell 40 (Some (-10))]
                 (Some 30) (Some 500))
              (mkCell 40 (Some (-10))))
    as (a & Ha & Hbetween & Hcursor).
  - vm_compute. reflexivity.
  - vm_compute. reflexivity.
  - vm_compute. reflexivity.
  - vm_compute. reflexivity.
  - exists a.
    split; [vm_compute; reflexivity|].
    split; [vm_compute; reflexivity|].
    split; [exact Ha|].
    split; [exact Hbetween|].
    destruct Hcursor as [Hcells _]; [reflexivity|reflexivity|exact Hcells].
Defined.

(** On the sample grid after the scroll event at offset 510 the rows other
    than row 25 have no translated cell. *)
Lemma only_cursor_row_translated_sample :
  rowCursor sample510 = 25
  /\ Forall (fun r => index r <> rowCursor sample510 -> untranslated r)
       (rows (viewport sample510)).
Proof.
  split; [vm_compute; reflexivity|].
  apply (@only_cursor_row_translated sampleGrid sample0 sample510).
  - intros i. repeat constructor.
  - exact sample510_reachable.
Defined.

(** * The properties of columns on a sample column *)

(** The second cell registered in the column [price]. *)
Lemma column_cells_registered_sample :
  exists e',
    Column.cells sampleColumn !! 1%nat = Some e'
    /\ Column.attributes e' !! "column-id" = Some "price"
    /\ Column.classList e' = {["cell"]}.
Proof.
  destruct (column_cells_registered
              (Column.mkColumn 100 [] "price" 2
                 (Some (Column.mkElement ∅ {["head"]})))
              [Column.mkElement ∅ {["cell"]}; Column.mkElement ∅ {["cell"]}])
    as (_ & _ & Hcell).
  destruct (Hcell 1%nat (Column.mkElement ∅ {["cell"]}) eq_refl)
    as (e' & He' & Hid & Hcl & _).
  exists e'. split; [exact He'|]. split; [exact Hid|exact Hcl].
Defined.

(** Hovering the sample column: its head element gets the class and keeps the
    class it had. *)
Lemma column_setHover_effect_sample :
  exists e',
    Column.headElement (Column.setHover "hovered" true sampleColumn) = Some e'
    /\ "hovered" ∈ Column.classList e'
    /\ "head" ∈ Column.classList e'
    /\ length (Column.cells (Column.setHover "hovered" true sampleColumn)) = 2%nat.
Proof.
  destruct (column_setHover_effect "hovered" true sampleColumn)
    as (_ & _ & _ & Hlen & _ & Hhead & _).
  destruct (Hhead (Column.mkElement ∅ {["head"]}) eq_refl)
    as (e' & He' & _ & Hhov & Hother).
  exists e'. split; [exact He'|].
  split; [apply Hhov; reflexivity|].
  split; [|exact Hlen].
  apply Hother; [discriminate|].
  cbn [Column.classList]. apply elem_of_singleton_2. reflexivity.
Defined.

(** Hovering the sample column and leaving it gives it back. *)
Lemma column_setHover_compose_sample :
  Column.setHover "hovered" true (Column.setHover "hovered" false sampleColumn)
  = Column.setHover "hovered" true sampleColumn
  /\ Column.setHover "hovered" false (Column.setHover "hovered" true sampleColumn)
     = sampleColumn
  /\ Column.setHover "hovered" false
       (Column.setHover "hovered" true (Column.setHover "hovered" true sampleColumn))
     <> Column.setHover "hovered" true sampleColumn.
Proof.
  destruct (column_setHover_compose "hovered" true false sampleColumn)
    as [Hlast Hback].
  split; [exact Hlast|]. split.
  - apply Hback. split.
    + apply Forall_cons_2; [|apply Forall_cons_2; [|apply Forall_nil_2]];
        cbn [Column.classList Column.setAttribute]; intros Hin;
        apply elem_of_singleton in Hin; discriminate Hin.
    + intros e He. injection He as <-. cbn [Column.classList]. intros Hin.
      apply elem_of_singleton in Hin. discriminate Hin.
  - intros Heq.
    apply (column_setHover_compose "hovered" true true
             (Column.setHover "hovered" true sampleColumn)) in Heq
      as [_ Hhead].
    apply (Hhead (Column.mkElement ∅ ({["hovered"]} ∪ {["head"]}))); [reflexivity|].
    cbn [Column.classList]. apply elem_of_union_l, elem_of_singleton_2. reflexivity.
Defined.
